(** * Progression engine and session lifecycle of the fitness tracker

    A shallow embedding of [src/index.tsx]: the quest/level progression
    update ([updateQuestProgress]), the startup load with its daily refresh,
    the onboarding record, and the haversine distance estimator.

    Number model.  JavaScript numbers are IEEE 754 binary64 values.
    The progression update is given twice:
    - module [B64] is [updateQuestProgress] over binary64 numbers (the
      standard library's [SpecFloat] at precision 53), with the
      level-up loop run on fuel because it need not end there, and with
      it the distance estimator over binary64 numbers; the statements
      about the loop, the award of a quest and the distance of a point
      from itself are about [B64];
    - the definitions at top level read the same source over exact
      numbers: [level] and [xp] (declared [Type.INTEGER] in the
      response schema) as integers, [Z]; [goal], [progress] and
      progress deltas ([Type.NUMBER]) as rationals, [Q]; the
      trigonometry of [haversineDistance] over the reals, [R].  This is
      what the code computes as long as no operation rounds (whole
      numbers up to [2 ^ 53]); the statements about the session (load,
      refresh, persistence, questionnaire, notification, tracking) are
      over this reading. *)

From Equations Require Import Equations.
From Stdlib Require Import ZArith QArith Qminmax List String Ascii Bool Lia Lqa.
From Stdlib Require Import Reals Lra.
From Stdlib Require Import DecimalString SpecFloat.
Import ListNotations.

Local Open Scope Z_scope.

(** ** Interfaces *)

Inductive QuestType := static | distance.

Module Quest.

Record t := mk {
  id : string;
  title : string;
  description : string;
  xp : Z;
  type : QuestType;
  goal : Q;
  progress : Q
}.

(** [{ ...q, progress: p }] *)
Definition withProgress (q : t) (p : Q) : t :=
  mk (id q) (title q) (description q) (xp q) (type q) (goal q) p.

End Quest.

Module Skill.

Record t := mk {
  name : string;
  level : Z;
  description : string
}.

End Skill.

Module UserState.

(** [lastLogin] is an ISO date string in the source; it is kept here as
    the time value (milliseconds since the epoch, UTC) that
    [new Date(lastLogin)] denotes. *)
Record t := mk {
  level : Z;
  xp : Z;
  difficulty : string;
  quests : list Quest.t;
  skills : list Skill.t;
  name : string;
  lastLogin : Z;
  dailySteps : Q;
  dailyDistance : Q
}.

End UserState.

(** ** Constants *)

Definition XP_PER_LEVEL : Z := 100.

(** ** The level-up loop of [updateQuestProgress]

    [let xpForNextLevel = XP_PER_LEVEL * newLevel;
     while (newXp >= xpForNextLevel) { newXp -= xpForNextLevel;
       newLevel++; xpForNextLevel = XP_PER_LEVEL * newLevel; }]
    The loop state is the pair [(newLevel, newXp)]; the variable
    [xpForNextLevel] always holds [XP_PER_LEVEL * newLevel]. *)

Definition xpForNextLevel (newLevel : Z) : Z := XP_PER_LEVEL * newLevel.
Arguments xpForNextLevel : simpl never.

Definition loopCond (st : Z * Z) : bool :=
  let '(newLevel, newXp) := st in newXp >=? xpForNextLevel newLevel.

Definition loopBody (st : Z * Z) : Z * Z :=
  let '(newLevel, newXp) := st in
  (newLevel + 1, newXp - xpForNextLevel newLevel).

(** Termination measure for arbitrary integers: while the level is below
    1 it climbs towards 1; from then on the experience strictly drops. *)
Definition loopMeasure (newLevel newXp : Z) : nat * nat :=
  (Z.to_nat (1 - newLevel), Z.to_nat newXp).

Equations? levelUp (newLevel newXp : Z) : Z * Z
  by wf (loopMeasure newLevel newXp) (Subterm.lexprod nat nat lt lt) :=
  levelUp newLevel newXp with Z_ge_dec newXp (xpForNextLevel newLevel) := {
    | left _ => levelUp (newLevel + 1) (newXp - xpForNextLevel newLevel)
    | right _ => (newLevel, newXp) }.
Proof.
  clear levelUp. unfold loopMeasure, xpForNextLevel, XP_PER_LEVEL in *.
  destruct (Z_le_gt_dec newLevel 0) as [Hl | Hl].
  - left. apply Z2Nat.inj_lt; lia.
  - replace (Z.to_nat (1 - (newLevel + 1))) with (Z.to_nat (1 - newLevel))
      by lia.
    right. apply Z2Nat.inj_lt; lia.
Qed.

(** Sum of the thresholds of [n] consecutive levels starting at [L]:
    [100*L + 100*(L+1) + ... + 100*(L+n-1)]. *)
Fixpoint sumThresholdsFrom (L : Z) (n : nat) : Z :=
  match n with
  | O => 0
  | S n' => xpForNextLevel L + sumThresholdsFrom (L + 1) n'
  end.

(** [Σ_{k=L}^{L'-1} 100*k]. *)
Definition sumThresholds (L L' : Z) : Z :=
  sumThresholdsFrom L (Z.to_nat (L' - L)).

(** ** Comparisons on rationals ([<] and [>=] of JavaScript numbers) *)

Definition Qlt_bool (x y : Q) : bool := negb (Qle_bool y x).
Definition Qge_bool (x y : Q) : bool := Qle_bool y x.

(** ** The state updater of [updateQuestProgress] *)

(** The callback of [prevState.quests.map(q => ...)].  It reads and
    writes the closure variable [xpGained], which is threaded through
    explicitly. *)
Definition questCallback (questId : string) (value : Q)
    (q : Quest.t) (xpGained : Z) : Quest.t * Z :=
  if String.eqb (Quest.id q) questId
     && Qlt_bool (Quest.progress q) (Quest.goal q)
  then
    let newProgress := Qmin (Quest.progress q + value) (Quest.goal q) in
    let xpGained :=
      if Qge_bool newProgress (Quest.goal q)
         && Qlt_bool (Quest.progress q) (Quest.goal q)
      then xpGained + Quest.xp q
      else xpGained in
    (Quest.withProgress q newProgress, xpGained)
  else (q, xpGained).

(** [quests.map(callback)], left to right. *)
Fixpoint mapQuests (questId : string) (value : Q)
    (quests : list Quest.t) (xpGained : Z) : list Quest.t * Z :=
  match quests with
  | [] => ([], xpGained)
  | q :: rest =>
      let '(q', xpGained) := questCallback questId value q xpGained in
      let '(rest', xpGained) := mapQuests questId value rest xpGained in
      (q' :: rest', xpGained)
  end.

(** [newQuests.every((q, i) => q.progress === prevQuests[i].progress)].
    [newQuests] is the image of [prevQuests] under [map], so the index is
    always in range; reading past the end would raise a [TypeError] and
    is modelled as [false]. *)
Fixpoint everyProgressSame (newQuests prevQuests : list Quest.t) : bool :=
  match newQuests, prevQuests with
  | [], _ => true
  | q :: qs, p :: ps =>
      Qeq_bool (Quest.progress q) (Quest.progress p)
      && everyProgressSame qs ps
  | _ :: _, [] => false
  end.

(** The arrow function handed to [updateAndSaveState]:
    [prevState => { ... }]; [None] is JavaScript's [null]. *)
Definition updateQuestProgress_updater (questId : string) (value : Q)
    (prevState : option UserState.t) : option UserState.t :=
  match prevState with
  | None => None
  | Some prev =>
      let '(newQuests, xpGained) :=
        mapQuests questId value (UserState.quests prev) 0 in
      if (xpGained =? 0)
         && everyProgressSame newQuests (UserState.quests prev)
      then Some prev (* No change *)
      else
        let '(newLevel, newXp) :=
          levelUp (UserState.level prev) (UserState.xp prev + xpGained) in
        Some (UserState.mk newLevel newXp
                (UserState.difficulty prev) newQuests
                (UserState.skills prev) (UserState.name prev)
                (UserState.lastLogin prev)
                (UserState.dailySteps prev) (UserState.dailyDistance prev))
  end.

(** ** JavaScript dates

    The part of ECMAScript's [Date] that the load effect uses:
    [new Date(x).toISOString().split('T')[0]].  A time value is a number
    of milliseconds since 1970-01-01T00:00:00Z; [toISOString] renders it
    in UTC. *)

Module JSDate.

Definition msPerDay : Z := 86400000.

(** ECMAScript [Day(t)] and [TimeWithinDay(t)]. *)
Definition Day (t : Z) : Z := t / msPerDay.
Definition TimeWithinDay (t : Z) : Z := t mod msPerDay.

(** A [Date] holds a valid time value only within 100,000,000 days of
    the epoch; outside of it the date is invalid and [toISOString]
    raises a [RangeError]. *)
Definition validTime (t : Z) : bool :=
  (-8640000000000000 <=? t) && (t <=? 8640000000000000).

(** Proleptic Gregorian calendar.  The calendar repeats every 400 years,
    which are 146097 days; within a cycle years are counted from 1 March,
    so that the leap day comes last.  [civilFromDoe] maps a day of the
    cycle (0..146096) to the year of the cycle (0..399, from March), the
    month (1..12) and the day of the month. *)
Definition civilFromDoe (doe : Z) : Z * Z * Z :=
  let yoe := (doe - doe / 1460 + doe / 36524 - doe / 146096) / 365 in
  let doy := doe - (365 * yoe + yoe / 4 - yoe / 100) in
  let mp := (5 * doy + 2) / 153 in
  let d := doy - (153 * mp + 2) / 5 + 1 in
  let m := if mp <? 10 then mp + 3 else mp - 9 in
  (yoe, m, d).

(** Day number (days since the epoch) to year, month and day of month. *)
Definition civilFromDay (day : Z) : Z * Z * Z :=
  let z := day + 719468 in
  let era := z / 146097 in
  let '(yoe, m, d) := civilFromDoe (z mod 146097) in
  let y := yoe + era * 400 in
  (if m <=? 2 then y + 1 else y, m, d).

(** The inverse within a cycle, and the inverse of [civilFromDay]. *)
Definition doeFromCivil (yoe m d : Z) : Z :=
  let mp := if 2 <? m then m - 3 else m + 9 in
  let doy := (153 * mp + 2) / 5 + d - 1 in
  yoe * 365 + yoe / 4 - yoe / 100 + doy.

Definition dayFromCivil (ymd : Z * Z * Z) : Z :=
  let '(y0, m, d) := ymd in
  let y := if m <=? 2 then y0 - 1 else y0 in
  (y / 400) * 146097 + doeFromCivil (y mod 400) m d - 719468.

(** One cycle, checked day by day: the fields are in range and
    [doeFromCivil] undoes [civilFromDoe]. *)
Definition cycleCheck (doe : Z) : bool :=
  let '(yoe, m, d) := civilFromDoe doe in
  (0 <=? yoe) && (yoe <=? 399) && (1 <=? m) && (m <=? 12)
  && (1 <=? d) && (d <=? 31) && (doeFromCivil yoe m d =? doe).

(** [cycleCheck] on [n] consecutive days from [doe] on. *)
Fixpoint cycleCheckFrom (n : nat) (doe : Z) : bool :=
  match n with
  | O => true
  | S n' => cycleCheck doe && cycleCheckFrom n' (doe + 1)
  end.

Definition YearFromTime (t : Z) : Z := fst (fst (civilFromDay (Day t))).
(** Months are numbered from 1 here (ECMAScript's [MonthFromTime + 1]). *)
Definition MonthFromTime (t : Z) : Z := snd (fst (civilFromDay (Day t))).
Definition DateFromTime (t : Z) : Z := snd (civilFromDay (Day t)).
Definition HourFromTime (t : Z) : Z := (t / 3600000) mod 24.
Definition MinFromTime (t : Z) : Z := (t / 60000) mod 60.
Definition SecFromTime (t : Z) : Z := (t / 1000) mod 60.
Definition msFromTime (t : Z) : Z := t mod 1000.

(** Decimal digit as a character. *)
Definition digit (d : Z) : ascii := ascii_of_nat (48 + Z.to_nat d).

(** [n] as exactly [w] decimal digits, most significant first. *)
Fixpoint pad (w : nat) (n : Z) : string :=
  match w with
  | O => EmptyString
  | S w' => String (digit ((n / 10 ^ Z.of_nat w') mod 10)) (pad w' n)
  end.

(** Years 0 to 9999 take four digits, all others a sign and six. *)
Definition renderYear (y : Z) : string :=
  if (0 <=? y) && (y <=? 9999) then pad 4 y
  else String (if 0 <=? y then "+"%char else "-"%char) (pad 6 (Z.abs y)).

Definition renderDate (ymd : Z * Z * Z) : string :=
  let '(y, m, d) := ymd in
  (renderYear y ++ "-" ++ pad 2 m ++ "-" ++ pad 2 d)%string.

Definition renderTime (t : Z) : string :=
  (pad 2 (HourFromTime t) ++ ":" ++ pad 2 (MinFromTime t) ++ ":"
   ++ pad 2 (SecFromTime t) ++ "." ++ pad 3 (msFromTime t))%string.

(** [date.toISOString()]: [YYYY-MM-DDTHH:mm:ss.sssZ]; [None] stands for
    the [RangeError] raised on an invalid date. *)
Definition toISOString (t : Z) : option string :=
  if validTime t
  then Some (renderDate (civilFromDay (Day t)) ++ "T" ++ renderTime t ++ "Z")%string
  else None.

(** [s.split(sep)[0]] for a one-character separator: the text before the
    first occurrence of [sep], or all of [s] when there is none. *)
Fixpoint splitHead (sep : ascii) (s : string) : string :=
  match s with
  | EmptyString => EmptyString
  | String c rest =>
      if Ascii.eqb c sep then EmptyString else String c (splitHead sep rest)
  end.

(** [sep] does not occur in [s]. *)
Fixpoint avoids (sep : ascii) (s : string) : Prop :=
  match s with
  | EmptyString => True
  | String c rest => c <> sep /\ avoids sep rest
  end.

(** [new Date(t).toISOString().split('T')[0]] *)
Definition isoDay (t : Z) : option string :=
  option_map (splitHead "T"%char) (toISOString t).

End JSDate.

(** ** The quest oracle ([getAiResponse])

    What one call to the generative service can come to: the request is
    rejected, the reply has no JSON that [parseAiJson] can extract (or
    the JSON is a falsy value), or the reply parses to a truthy value,
    the payload. *)

Inductive OracleOutcome (A : Type) :=
| NetworkError
| Unparseable
| Parsed (data : A).
Arguments NetworkError {A}.
Arguments Unparseable {A}.
Arguments Parsed {A} data.

(** What a parsed reply is to the code that reads it: data of the shape
    the schema asks for, or some other truthy value (for the refresh, a
    value that is no array, such as the one object that [parseAiJson]
    scrapes from an array cut off after its first element). *)
Inductive Reply (A : Type) :=
| Shaped (data : A)
| Misshapen.
Arguments Shaped {A} data.
Arguments Misshapen {A}.

(** An outcome whose reply, if there is one, has the shape asked for. *)
Definition shaped {A : Type} (outcome : OracleOutcome A)
    : OracleOutcome (Reply A) :=
  match outcome with
  | NetworkError => NetworkError
  | Unparseable => Unparseable
  | Parsed data => Parsed (Shaped data)
  end.

(** [getAiResponse]: both failures are caught and turned into [null]. *)
Definition getAiResponse {A : Type} (outcome : OracleOutcome A) : option A :=
  match outcome with
  | Parsed data => Some data
  | NetworkError | Unparseable => None
  end.

(** A quest as the response schema describes it: no [progress] yet. *)
Module QuestData.

Record t := mk {
  id : string;
  title : string;
  description : string;
  xp : Z;
  type : QuestType;
  goal : Q
}.

End QuestData.

(** [(q: any) => ({ ...q, progress: 0 })] *)
Definition withZeroProgress (q : QuestData.t) : Quest.t :=
  Quest.mk (QuestData.id q) (QuestData.title q) (QuestData.description q)
           (QuestData.xp q) (QuestData.type q) (QuestData.goal q) 0.

(** The object the onboarding prompt asks for. *)
Module Assessment.

Record t := mk {
  difficulty : string;
  quests : list QuestData.t
}.

End Assessment.

(** ** Session state ([App])

    The part of the component state that the session's record lives in,
    together with the one [localStorage] slot.  The slot is absent, holds
    the empty string, holds text that does not parse to a record, or
    holds the snapshot of a record ([JSON.stringify] followed by
    [JSON.parse] gives the record back: its numbers are finite). *)

Inductive StoredItem :=
| Empty
| Unreadable
| Snapshot (s : UserState.t).

Module App.

Record t := mk {
  userState : option UserState.t;
  isLoading : bool;
  showSync : bool;
  storage : option StoredItem
}.

Definition setUserState (u : option UserState.t) (app : t) : t :=
  mk u (isLoading app) (showSync app) (storage app).

Definition setIsLoading (b : bool) (app : t) : t :=
  mk (userState app) b (showSync app) (storage app).

(** [localStorage.removeItem("soloLevelingUserState")] *)
Definition removeItem (app : t) : t :=
  mk (userState app) (isLoading app) (showSync app) None.

(** The state of a freshly mounted component over a given store. *)
Definition mounted (store : option StoredItem) : t :=
  mk None true false store.

(** A new installation: nothing persisted yet. *)
Definition initial : t := mounted None.

End App.

(** [React.SetStateAction<UserState | null>]: a value or an updater. *)
Inductive SetStateAction :=
| Value (newState : option UserState.t)
| Updater (f : option UserState.t -> option UserState.t).

(** [saveStateAndSync]: write the snapshot and flash the sync marker
    (the timer that hides the marker again is left out). *)
Definition saveStateAndSync (stateToSave : UserState.t) (app : App.t) : App.t :=
  App.mk (App.userState app) (App.isLoading app) true
         (Some (Snapshot stateToSave)).

Definition updateAndSaveState (updater : SetStateAction) (app : App.t) : App.t :=
  let currentState := App.userState app in
  let newState :=
    match updater with
    | Updater f => f currentState
    | Value v => v
    end in
  let app :=
    match newState with
    | Some s => saveStateAndSync s app
    | None => app
    end in
  App.setUserState newState app.

Definition updateQuestProgress (questId : string) (value : Q)
    (app : App.t) : App.t :=
  updateAndSaveState (Updater (updateQuestProgress_updater questId value)) app.

Definition handleCompleteQuestionnaire (initialState : UserState.t)
    (app : App.t) : App.t :=
  updateAndSaveState (Value (Some initialState)) app.

(** [handleBeforeUnload] *)
Definition handleBeforeUnload (app : App.t) : App.t :=
  match App.userState app with
  | Some s => saveStateAndSync s app
  | None => app
  end.

(** *** Onboarding: the last step of [handleNext] *)

(** [newAnswers[0] || 'Player'] *)
Definition playerName (newAnswers : list string) : string :=
  match newAnswers with
  | [] => "Player"
  | a :: _ => if String.eqb a EmptyString then "Player" else a
  end.

(** The record built from the oracle's assessment; [now] is the clock
    read by [new Date()]. *)
Definition initialState (newAnswers : list string) (now : Z)
    (aiData : Assessment.t) : UserState.t :=
  UserState.mk 1 0 (Assessment.difficulty aiData)
    (map withZeroProgress (Assessment.quests aiData))
    [] (playerName newAnswers) now 0 0.

Definition submitQuestionnaire (newAnswers : list string) (now : Z)
    (outcome : OracleOutcome Assessment.t) (app : App.t) : App.t :=
  match getAiResponse outcome with
  | Some aiData =>
      match JSDate.toISOString now with
      | Some _ =>
          handleCompleteQuestionnaire (initialState newAnswers now aiData) app
      | None => app
      end
  | None => app (* alert; the user may try again *)
  end.

(** *** The load effect, with the daily refresh *)

(** [today !== lastLoginDay] *)
Definition dayChanged (today lastLoginDay : string) : bool :=
  negb (String.eqb today lastLoginDay).

(** [newQuestsData?.map(q => ({ ...q, progress: 0 })) || []] *)
Definition freshQuests (newQuestsData : option (list QuestData.t)) : list Quest.t :=
  match newQuestsData with
  | Some data => map withZeroProgress data
  | None => []
  end.

(** [{ ...parsedState, quests: freshQuests, lastLogin: ...,
       dailyDistance: 0, dailySteps: 0 }] *)
Definition refreshed (parsedState : UserState.t) (quests : list Quest.t)
    (stamp : Z) : UserState.t :=
  UserState.mk (UserState.level parsedState) (UserState.xp parsedState)
    (UserState.difficulty parsedState) quests
    (UserState.skills parsedState) (UserState.name parsedState)
    stamp 0 0.

(** [generateNewQuests]: the oracle is asked, then the clock is read
    again ([stamp]) for the new [lastLogin].  On a reply that is no
    array, [newQuestsData?.map] is not a function: the [TypeError] ends
    the call, which nothing awaits, and nothing more is set. *)
Definition generateNewQuests (parsedState : UserState.t) (stamp : Z)
    (outcome : OracleOutcome (Reply (list QuestData.t))) (app : App.t)
    : App.t :=
  match getAiResponse outcome with
  | Some Misshapen => app
  | newQuestsData =>
      let newQuestsData :=
        match newQuestsData with
        | Some (Shaped data) => Some data
        | _ => None
        end in
      match JSDate.toISOString stamp with
      | Some _ =>
          App.setIsLoading false
            (updateAndSaveState
               (Value (Some (refreshed parsedState
                               (freshQuests newQuestsData) stamp)))
               app)
      | None => app
      end
  end.

(** The effect run on mount.  [now] is the clock when the effect starts,
    [stamp] the clock when the oracle has answered.  An absent item and
    the empty string are falsy at [if (savedState)].  An exception
    inside the [try] block (unparseable snapshot, invalid date) removes
    the snapshot. *)
Definition loadEffect (now stamp : Z)
    (outcome : OracleOutcome (Reply (list QuestData.t))) (app : App.t)
    : App.t :=
  match App.storage app with
  | None | Some Empty => App.setIsLoading false app
  | Some Unreadable => App.setIsLoading false (App.removeItem app)
  | Some (Snapshot parsedState) =>
      match JSDate.isoDay now, JSDate.isoDay (UserState.lastLogin parsedState) with
      | Some today, Some lastLoginDay =>
          if dayChanged today lastLoginDay
          then generateNewQuests parsedState stamp outcome app
          else App.setIsLoading false (App.setUserState (Some parsedState) app)
      | _, _ => App.setIsLoading false (App.removeItem app)
      end
  end.

(** *** Events of a session *)

Inductive Event :=
| Mount (now stamp : Z) (outcome : OracleOutcome (list QuestData.t))
| SubmitQuestionnaire (newAnswers : list string) (now : Z)
    (outcome : OracleOutcome Assessment.t)
| UpdateQuest (questId : string) (value : Q)
| BeforeUnload
| ResetProgress
| MountMisshapen (now stamp : Z).

(** [Mount] is a page load: component state starts afresh over the
    store, and the load effect runs; the oracle's reply, if it is asked
    and answers, is an array of quests.  [MountMisshapen] is a page load
    on which the reply parses to something that is no array.  [UpdateQuest] is a call of
    [updateQuestProgress], from the manual log of a static quest or from
    a position fix of the distance tracker.  [ResetProgress] is the
    confirmed reset button up to the removal of the snapshot; the reload
    it asks for is the next [Mount]. *)
Definition step (e : Event) (app : App.t) : App.t :=
  match e with
  | Mount now stamp outcome =>
      loadEffect now stamp (shaped outcome) (App.mounted (App.storage app))
  | MountMisshapen now stamp =>
      loadEffect now stamp (Parsed Misshapen) (App.mounted (App.storage app))
  | SubmitQuestionnaire newAnswers now outcome =>
      submitQuestionnaire newAnswers now outcome app
  | UpdateQuest questId value => updateQuestProgress questId value app
  | BeforeUnload => handleBeforeUnload app
  | ResetProgress => App.removeItem app
  end.

Definition run (events : list Event) (app : App.t) : App.t :=
  fold_left (fun a e => step e a) events app.

(** States a new installation can get to. *)
Inductive Reachable : App.t -> Prop :=
| reach_initial : Reachable App.initial
| reach_step (e : Event) (app : App.t) :
    Reachable app -> Reachable (step e app).

(** ** Local calendar days (the specification's reading of the refresh)

    The calendar date of a time value in the local timezone, which is
    what the specification says the refresh decision compares.  The timezone is a fixed offset from UTC in minutes
    (ECMAScript's [LocalTime(t) = t + LocalTZA]). *)
Definition localDay (offsetMinutes : Z) (t : Z) : Z * Z * Z :=
  JSDate.civilFromDay (JSDate.Day (t + offsetMinutes * 60000)).

(** ** Distance estimator ([haversineDistance])

    Over the real numbers; [GeolocationCoordinates] is cut down to the
    two fields that are read. *)

Module Geo.

Local Open Scope R_scope.

Record GeolocationCoordinates := mkCoords {
  latitude : R;
  longitude : R
}.

(** [Math.atan2(y, x)]: the angle of the point [(x, y)], in [(-PI, PI]]. *)
Definition atan2 (y x : R) : R :=
  if Rlt_dec 0 x then atan (y / x)
  else if Rlt_dec x 0 then
    (if Rle_dec 0 y then atan (y / x) + PI else atan (y / x) - PI)
  else if Rlt_dec 0 y then PI / 2
  else if Rlt_dec y 0 then - (PI / 2)
  else 0.

Definition toRad (x : R) : R := (x * PI) / 180.

(** The quantity [a] of the source: the haversine of the central angle. *)
Definition haversineA (coords1 coords2 : GeolocationCoordinates) : R :=
  let dLat := toRad (latitude coords2 - latitude coords1) in
  let dLon := toRad (longitude coords2 - longitude coords1) in
  let lat1 := toRad (latitude coords1) in
  let lat2 := toRad (latitude coords2) in
  sin (dLat / 2) * sin (dLat / 2)
  + sin (dLon / 2) * sin (dLon / 2) * cos lat1 * cos lat2.

Definition haversineDistance (coords1 coords2 : GeolocationCoordinates) : R :=
  let R := 6371 in (* Earth radius in km *)
  let a := haversineA coords1 coords2 in
  let c := 2 * atan2 (sqrt a) (sqrt (1 - a)) in
  R * c. (* in km *)

End Geo.

(** ** Observations used in the statements *)

(** What the callback makes of one quest. *)
Definition updatedQuest (questId : string) (value : Q) (q : Quest.t) : Quest.t :=
  fst (questCallback questId value q 0).

(** The condition under which the [map] callback runs
    [xpGained += q.xp]: both [if] tests of the callback hold. *)
Definition awards (questId : string) (value : Q) (q : Quest.t) : bool :=
  (String.eqb (Quest.id q) questId
   && Qlt_bool (Quest.progress q) (Quest.goal q))
  && (Qge_bool (Qmin (Quest.progress q + value) (Quest.goal q)) (Quest.goal q)
      && Qlt_bool (Quest.progress q) (Quest.goal q)).

(** The rewards of the quests for which the callback runs
    [xpGained += q.xp], added up. *)
Fixpoint sumAwards (questId : string) (value : Q) (quests : list Quest.t) : Z :=
  match quests with
  | [] => 0
  | q :: rest =>
      (if awards questId value q then Quest.xp q else 0)
      + sumAwards questId value rest
  end.

(** [xpGained] as it stands after the [map]. *)
Definition xpGainedBy (questId : string) (value : Q) (prev : UserState.t) : Z :=
  snd (mapQuests questId value (UserState.quests prev) 0).

(** A quest is complete iff [progress >= goal]. *)
Definition isCompleted (q : Quest.t) : bool :=
  Qge_bool (Quest.progress q) (Quest.goal q).

(** All experience ever credited to a record: what it holds now plus the
    thresholds [100 * k] of the levels [1 <= k < level] already paid. *)
Definition cumulativeXp (s : UserState.t) : Z :=
  UserState.xp s + 50 * UserState.level s * (UserState.level s - 1).


(** ** Sample data *)

Definition samplePushups : Quest.t :=
  Quest.mk "q1" "Push-ups" "Do 50 push-ups" 250 static 50 20.

Definition sampleRun : Quest.t :=
  Quest.mk "q2" "Run" "Run 3 km" 300 distance 3 (1 # 2).

(** A record at level 1 with no experience, as onboarding leaves it. *)
Definition sampleState : UserState.t :=
  UserState.mk 1 0 "E" [samplePushups; sampleRun] [] "Jinwoo"
    1704103200000 0 0.


(** A session that was closed with [sampleState] persisted. *)
Definition sampleApp : App.t :=
  App.mounted (Some (Snapshot sampleState)).

(** 2024-01-02T10:00:00Z, the day after [sampleState]'s last login, and
    the clock two seconds later. *)
Definition sampleNow : Z := 1704189600000.
Definition sampleStamp : Z := 1704189602000.

Definition sampleBatch : list QuestData.t :=
  [QuestData.mk "d1" "Squats" "Do 40 squats" 120 static 40;
   QuestData.mk "d2" "Walk" "Walk 2 km" 80 distance 2].

(** Both daily counters of a record are zero. *)
Definition countersZero (s : UserState.t) : Prop :=
  UserState.dailySteps s = 0%Q /\ UserState.dailyDistance s = 0%Q.

(** What a session holds, in memory and in the store, has both counters
    at zero. *)
Definition countersInvariant (app : App.t) : Prop :=
  (forall s, App.userState app = Some s -> countersZero s)
  /\ (forall s, App.storage app = Some (Snapshot s) -> countersZero s).

(** A first day: the app is opened on a new installation, the
    questionnaire is submitted and answered by the oracle, and thirty
    push-ups are logged. *)
Definition sampleSession : list Event :=
  [Mount 1704103100000 1704103100000 NetworkError;
   SubmitQuestionnaire ["Jinwoo"%string; "3"%string] 1704103200000
     (Parsed (Assessment.mk "E"
                [QuestData.mk "q1" "Push-ups" "Do 50 push-ups" 250 static 50]));
   UpdateQuest "q1" 30;
   BeforeUnload].

(** The record that [sampleSession] ends with. *)
Definition sampleSessionEnd : UserState.t :=
  UserState.mk 1 0 "E"
    [Quest.mk "q1" "Push-ups" "Do 50 push-ups" 250 static 50 30]
    [] "Jinwoo" 1704103200000 0 0.

(** Two records last used on the evening of 2024-01-01 (UTC): at
    22:30:00Z and at 21:30:00Z. *)
Definition sampleLate : UserState.t :=
  UserState.mk 1 0 "E" [samplePushups; sampleRun] [] "Jinwoo"
    1704148200000 0 0.

Definition sampleEarlier : UserState.t :=
  UserState.mk 1 0 "E" [samplePushups; sampleRun] [] "Jinwoo"
    1704144600000 0 0.
(** ** Further observations on records *)

(** The data model's bound on experience: [0 <= xp < 100 * level], from
    level 1 on. *)
Definition wellFormed (s : UserState.t) : Prop :=
  1 <= UserState.level s
  /\ 0 <= UserState.xp s < XP_PER_LEVEL * UserState.level s.

(** No quest takes experience away. *)
Definition rewardsNonneg (quests : list Quest.t) : Prop :=
  Forall (fun q => 0 <= Quest.xp q) quests.



(** ** Further observations on sessions *)

(** The oracle's quests carry no negative reward in this event. *)
Definition saneEvent (e : Event) : Prop :=
  match e with
  | Mount _ _ (Parsed data) =>
      Forall (fun q => 0 <= QuestData.xp q) data
  | SubmitQuestionnaire _ _ (Parsed aiData) =>
      Forall (fun q => 0 <= QuestData.xp q) (Assessment.quests aiData)
  | _ => True
  end.

(** The record in memory and the persisted one are well-formed and
    carry no negative reward. *)
Definition recordsWellFormed (app : App.t) : Prop :=
  forall s,
    App.userState app = Some s \/ App.storage app = Some (Snapshot s) ->
    wellFormed s /\ rewardsNonneg (UserState.quests s).

(** ** The onboarding questionnaire ([Questionnaire]) *)

Definition INITIAL_QUESTIONS : list string :=
  ["What is your name, user?";
   "How many days a week can you realistically dedicate to physical tasks?";
   "How many minutes can you set aside on those days?";
   "On a scale of 1-10, how would you rate your current cardiovascular endurance (e.g., running, swimming)?";
   "On a scale of 1-10, how would you rate your current muscular strength (e.g., lifting, push-ups)?";
   "Describe your current weekly physical activity. Be specific.";
   "What are your primary fitness goals? (e.g., lose weight, build muscle, improve endurance)";
   "Do you have access to a gym or any workout equipment?";
   "Are there any physical limitations or injuries the System should be aware of?";
   "How many push-ups can you do in a single set?";
   "How far can you run without stopping (in kilometers)?";
   "How well do you handle repetitive tasks?";
   "What motivates you to push your limits?"]%string.

Module Questionnaire.

(** The component's state: [currentIndex], [answers], [currentAnswer]
    and [isLoading]. *)
Record t := mk {
  currentIndex : nat;
  answers : list string;
  currentAnswer : string;
  isLoading : bool
}.

Definition initial : t := mk 0 [] EmptyString false.

(** [onChange] of the text area: [setCurrentAnswer(e.target.value)]. *)
Definition setCurrentAnswer (text : string) (st : t) : t :=
  mk (currentIndex st) (answers st) text (isLoading st).

(** [handleNext].  The answer is appended and the input cleared; before
    the last question the index moves on; at the last question the
    oracle is asked, and its assessment becomes the record
    ([onComplete]) or, on failure, the alert is shown and the loading
    flag is taken back.  The session part of the last step is
    [submitQuestionnaire]. *)
Definition handleNext (now : Z) (outcome : OracleOutcome Assessment.t)
    (st : t) (app : App.t) : t * App.t :=
  let newAnswers := (answers st ++ [currentAnswer st])%list in
  if (currentIndex st <? List.length INITIAL_QUESTIONS - 1)%nat
  then (mk (currentIndex st + 1) newAnswers EmptyString (isLoading st), app)
  else
    (mk (currentIndex st) newAnswers EmptyString
        (match getAiResponse outcome with Some _ => true | None => false end),
     submitQuestionnaire newAnswers now outcome app).

End Questionnaire.

Section QuestionnaireButton.

(** [String.prototype.trim], of which only this is used here: it maps
    the empty string to the empty string. *)
Variable trim : string -> string.

(** [disabled={!currentAnswer.trim()}] *)
Definition nextDisabled (st : Questionnaire.t) : bool :=
  String.eqb (trim (Questionnaire.currentAnswer st)) EmptyString.

(** A click on the button: nothing happens while it is disabled. *)
Definition clickNext (now : Z) (outcome : OracleOutcome Assessment.t)
    (ui : Questionnaire.t * App.t) : Questionnaire.t * App.t :=
  if nextDisabled (fst ui) then ui
  else Questionnaire.handleNext now outcome (fst ui) (snd ui).

(** The user types [text] and clicks the button. *)
Definition answerQuestion (now : Z) (outcome : OracleOutcome Assessment.t)
    (ui : Questionnaire.t * App.t) (text : string) : Questionnaire.t * App.t :=
  clickNext now outcome (Questionnaire.setCurrentAnswer text (fst ui), snd ui).

Definition answerQuestions (now : Z) (outcome : OracleOutcome Assessment.t)
    (texts : list string) (ui : Questionnaire.t * App.t) : Questionnaire.t * App.t :=
  fold_left (answerQuestion now outcome) texts ui.

(** The button is enabled for this text. *)
Definition notBlank (text : string) : Prop :=
  String.eqb (trim text) EmptyString = false.

End QuestionnaireButton.

(** ** The manual log of a static quest ([QuestItem])

    [parseInt(string, 10)] of ECMAScript over strings of code units below
    256: leading white space is skipped, one sign is read, and the
    decimal digits that follow are the value; whatever comes after them
    is ignored.  [None] is [NaN]. *)
Definition isWhiteSpace (c : ascii) : bool :=
  let n := nat_of_ascii c in
  ((n =? 9) || (n =? 10) || (n =? 11) || (n =? 12) || (n =? 13)
   || (n =? 32) || (n =? 160))%nat.

Fixpoint trimStart (s : string) : string :=
  match s with
  | String c rest => if isWhiteSpace c then trimStart rest else s
  | EmptyString => s
  end.

Definition digitValue (c : ascii) : option Z :=
  let n := Z.of_nat (nat_of_ascii c) in
  if (48 <=? n) && (n <=? 57) then Some (n - 48) else None.

Fixpoint readDigits (acc : Z) (s : string) : Z :=
  match s with
  | String c rest =>
      match digitValue c with
      | Some d => readDigits (10 * acc + d) rest
      | None => acc
      end
  | EmptyString => acc
  end.

Definition startsWithDigit (s : string) : bool :=
  match s with
  | String c _ =>
      match digitValue c with Some _ => true | None => false end
  | EmptyString => false
  end.

Fixpoint allDigits (s : string) : bool :=
  match s with
  | String c rest =>
      match digitValue c with Some _ => allDigits rest | None => false end
  | EmptyString => true
  end.

Definition parseInt (s : string) : option Z :=
  let trimmed := trimStart s in
  let '(sign, body) :=
    match trimmed with
    | String "-"%char rest => (-1, rest)
    | String "+"%char rest => (1, rest)
    | _ => (1, trimmed)
    end in
  if startsWithDigit body then Some (sign * readDigits 0 body) else None.

Module QuestItem.

(** [handleLogSubmit]: the new content of the input field and the
    session after the click. *)
Definition handleLogSubmit (quest : Quest.t) (logValue : string)
    (app : App.t) : string * App.t :=
  match parseInt logValue with
  | Some value =>
      if 0 <? value
      then (EmptyString,
            updateQuestProgress (Quest.id quest) (inject_Z value) app)
      else (logValue, app)
  | None => (logValue, app)
  end.

End QuestItem.



(** ** The level-up notification

    The component keeps the level it saw last ([prevLevelRef]) and the
    pending message ([notification]). *)
Module Notifier.

Record t := mk {
  prevLevel : option Z;
  notification : option string
}.

(** A fresh mount: [useRef()] and [useState(null)]. *)
Definition initial : t := mk None None.

Definition setNotification (message : option string) (n : t) : t :=
  mk (prevLevel n) message.

End Notifier.

(** The template literal of the effect; the number is written in
    decimal, as [String(level)] does for an integer. *)
Definition levelUpMessage (level : Z) : string :=
  ("LEVEL UP! REACHED LEVEL " ++ NilZero.string_of_int (Z.to_int level))%string.

(** [prevLevelRef.current && userState.level > prevLevelRef.current]:
    [undefined] and [0] are falsy. *)
Definition levelRose (prevLevel : option Z) (level : Z) : bool :=
  match prevLevel with
  | Some previous => negb (previous =? 0) && (level >? previous)
  | None => false
  end.

(** The effect on [userState]. *)
Definition levelEffect (userState : option UserState.t)
    (n : Notifier.t) : Notifier.t :=
  match userState with
  | Some s =>
      let n :=
        if levelRose (Notifier.prevLevel n) (UserState.level s)
        then Notifier.setNotification
               (Some (levelUpMessage (UserState.level s))) n
        else n in
      Notifier.mk (Some (UserState.level s)) (Notifier.notification n)
  | None => n
  end.

(** The session with its notifier.  [Acknowledge] is the Continue button
    of the notification.  A page load starts the notifier afresh.  The
    effect is run after every event; after an event that leaves
    [userState] as it is, React does not run it, and it would change
    nothing ([levelEffect_idle] under [inSync]). *)
Inductive SessionEvent :=
| AppEvent (e : Event)
| Acknowledge.

Definition sessionStep (e : SessionEvent)
    (st : App.t * Notifier.t) : App.t * Notifier.t :=
  match e with
  | AppEvent e =>
      let app := step e (fst st) in
      let n :=
        match e with
        | Mount _ _ _ | MountMisshapen _ _ => Notifier.initial
        | _ => snd st
        end in
      (app, levelEffect (App.userState app) n)
  | Acknowledge => (fst st, Notifier.setNotification None (snd st))
  end.

Definition sessionRun (events : list SessionEvent)
    (st : App.t * Notifier.t) : App.t * Notifier.t :=
  fold_left (fun st e => sessionStep e st) events st.

(** The notifier has seen the level of the record in memory. *)
Definition inSync (st : App.t * Notifier.t) : Prop :=
  forall s, App.userState (fst st) = Some s ->
            Notifier.prevLevel (snd st) = Some (UserState.level s).

(** The level of the record in memory, if there is one. *)
Definition currentLevel (st : App.t * Notifier.t) : option Z :=
  option_map UserState.level (App.userState (fst st)).


(** ** Extraction of the oracle's JSON ([parseAiJson])

    The regular expression has three alternatives, tried in this order
    at each position from the left:
    - a fence [```json], a line feed, a body taken lazily up to the first
      line feed followed by [```] (group 1 is the body);
    - an opening brace, then greedily up to the last closing brace
      (group 2, braces included);
    - an opening bracket, then greedily up to the last closing bracket
      (group 3, brackets included).
    [[\s\S]] matches every character. *)
Definition LF : ascii := ascii_of_nat 10.

Definition fenceOpen : string := ("```json" ++ String LF EmptyString)%string.
Definition fenceClose : string := String LF "```".

(** The lazy body: the text before the first occurrence of [stop]. *)
Fixpoint before (stop s : string) : option string :=
  if String.prefix stop s then Some EmptyString
  else match s with
       | String c rest => option_map (String c) (before stop rest)
       | EmptyString => None
       end.

(** The greedy body: the longest prefix that ends in [close]. *)
Fixpoint throughLast (close : ascii) (s : string) : option string :=
  match s with
  | EmptyString => None
  | String c rest =>
      match throughLast close rest with
      | Some t => Some (String c t)
      | None => if Ascii.eqb c close then Some (String c EmptyString) else None
      end
  end.

(** What follows the prefix [p], when [s] starts with it. *)
Fixpoint afterPrefix (p s : string) : option string :=
  match p with
  | EmptyString => Some s
  | String a p' =>
      match s with
      | String b s' => if Ascii.eqb a b then afterPrefix p' s' else None
      | EmptyString => None
      end
  end.

Definition fenced (s : string) : option string :=
  match afterPrefix fenceOpen s with
  | Some rest => before fenceClose rest
  | None => None
  end.

Definition enclosed (open close : ascii) (s : string) : option string :=
  match s with
  | String c rest =>
      if Ascii.eqb c open
      then option_map (String c) (throughLast close rest)
      else None
  | EmptyString => None
  end.

(** The capture groups 1, 2 and 3 of a match. *)
Definition Groups : Type := option string * option string * option string.

Definition matchHere (s : string) : option Groups :=
  match fenced s with
  | Some body => Some (Some body, None, None)
  | None =>
      match enclosed "{" "}" s with
      | Some object => Some (None, Some object, None)
      | None =>
          match enclosed "[" "]" s with
          | Some array => Some (None, None, Some array)
          | None => None
          end
      end
  end.

(** [text.match(...)]: the leftmost position with a match. *)
Fixpoint regexMatch (text : string) : option Groups :=
  match matchHere text with
  | Some groups => Some groups
  | None =>
      match text with
      | String _ rest => regexMatch rest
      | EmptyString => None
      end
  end.

(** [a || b] on capture groups: [undefined] and the empty string are
    falsy. *)
Definition orElse (a b : option string) : option string :=
  match a with
  | Some EmptyString | None => b
  | Some _ => a
  end.

Section ParseAiJson.

(** [JSON.parse]; [None] is a [SyntaxError]. *)
Variable JSON : Type.
Variable JSON_parse : string -> option JSON.

(** [JSON.parse] turns its argument into a string first. *)
Definition argument (jsonStr : option string) : string :=
  match jsonStr with
  | Some s => s
  | None => "undefined"
  end.

Definition parseAiJson (text : string) : option JSON :=
  match regexMatch text with
  | Some (m1, m2, m3) =>
      let jsonStr := orElse m1 (orElse m2 m3) in
      JSON_parse (argument jsonStr)
  | None => None
  end.

End ParseAiJson.

(** Plain prose: no backtick, brace or bracket opens a block. *)
Definition opensNoBlock (s : string) : Prop :=
  JSDate.avoids "`" s /\ JSDate.avoids "{" s /\ JSDate.avoids "[" s.

(** ** Location tracking ([handleToggleTracking])

    The component state that the tracker uses, and the position watches
    that are live in the browser, each with the quest its callbacks were
    created for.  A position is kept as its coordinates, the only part
    that is read. *)
Module Tracker.

Record t := mk {
  activeTrackingQuestId : option string;
  questWatchIdRef : option Z;
  lastQuestPositionRef : option Geo.GeolocationCoordinates;
  watches : list (Z * string)
}.

Definition initial : t := mk None None None [].

(** [if (questWatchIdRef.current)]: [null] and [0] are falsy. *)
Definition truthy (watchId : option Z) : bool :=
  match watchId with
  | Some id => negb (id =? 0)
  | None => false
  end.

(** [navigator.geolocation.clearWatch] *)
Definition clearWatch (watchId : option Z) (ws : list (Z * string))
    : list (Z * string) :=
  match watchId with
  | Some id => filter (fun w => negb (fst w =? id)) ws
  | None => ws
  end.

(** The quest of a live watch. *)
Fixpoint questOf (watchId : Z) (ws : list (Z * string)) : option string :=
  match ws with
  | [] => None
  | (id, questId) :: rest =>
      if id =? watchId then Some questId else questOf watchId rest
  end.

Definition sameId (a : option string) (questId : string) : bool :=
  match a with
  | Some current => String.eqb current questId
  | None => false
  end.

(** [handleToggleTracking]; [newWatchId] is what [watchPosition] returns
    when it is called. *)
Definition handleToggleTracking (questId : string) (newWatchId : Z)
    (tr : t) : t :=
  let isStopping := sameId (activeTrackingQuestId tr) questId in
  let '(ref, ws) :=
    if truthy (questWatchIdRef tr)
    then (None, clearWatch (questWatchIdRef tr) (watches tr))
    else (questWatchIdRef tr, watches tr) in
  if isStopping
  then mk None ref None ws
  else mk (Some questId) (Some newWatchId) None ((newWatchId, questId) :: ws).

(** The success callback of the watch created for [questId]: the calls
    of [updateQuestProgress] it makes, and the state after it. *)
Definition onPosition (questId : string)
    (position : Geo.GeolocationCoordinates) (tr : t)
    : list (string * R) * t :=
  let calls :=
    match lastQuestPositionRef tr with
    | Some last => [(questId, Geo.haversineDistance last position)]
    | None => []
    end in
  (calls,
   mk (activeTrackingQuestId tr) (questWatchIdRef tr) (Some position)
      (watches tr)).

(** The error callback of the watch created for [questId]. *)
Definition onError (questId : string) (tr : t) : t :=
  if sameId (activeTrackingQuestId tr) questId
  then mk None None (lastQuestPositionRef tr)
          (if truthy (questWatchIdRef tr)
           then clearWatch (questWatchIdRef tr) (watches tr)
           else watches tr)
  else tr.

Inductive Event :=
| Toggle (questId : string) (newWatchId : Z)
| Fix (watchId : Z) (position : Geo.GeolocationCoordinates)
| Failure (watchId : Z).

(** The browser delivers fixes and errors to live watches only. *)
Definition step (e : Event) (tr : t) : list (string * R) * t :=
  match e with
  | Toggle questId newWatchId => ([], handleToggleTracking questId newWatchId tr)
  | Fix watchId position =>
      match questOf watchId (watches tr) with
      | Some questId => onPosition questId position tr
      | None => ([], tr)
      end
  | Failure watchId =>
      match questOf watchId (watches tr) with
      | Some questId => ([], onError questId tr)
      | None => ([], tr)
      end
  end.

(** The calls of [updateQuestProgress] made during the events, in
    order, and the state after them. *)
Fixpoint run (events : list Event) (tr : t) : list (string * R) * t :=
  match events with
  | [] => ([], tr)
  | e :: rest =>
      let '(calls, t1) := step e tr in
      let '(more, t2) := run rest t1 in
      ((calls ++ more)%list, t2)
  end.

(** Every watch the browser hands out has a non-zero identifier. *)
Definition nonZeroIds (events : list Event) : Prop :=
  Forall (fun e => match e with
                   | Toggle _ newWatchId => newWatchId <> 0
                   | _ => True
                   end) events.

(** Nothing is tracked and no watch is live, or one quest is tracked
    and its watch is the only one. *)
Definition singleWatch (tr : t) : Prop :=
  (activeTrackingQuestId tr = None /\ questWatchIdRef tr = None
   /\ watches tr = [])
  \/ exists watchId questId,
       watchId <> 0
       /\ activeTrackingQuestId tr = Some questId
       /\ questWatchIdRef tr = Some watchId
       /\ watches tr = [(watchId, questId)].

(** The legs of a track: the distance from each position to the next. *)
Fixpoint legs (questId : string) (first : Geo.GeolocationCoordinates)
    (others : list Geo.GeolocationCoordinates) : list (string * R) :=
  match others with
  | [] => []
  | next :: rest =>
      (questId, Geo.haversineDistance first next) :: legs questId next rest
  end.

End Tracker.

(** ** Further sample data *)

(** A session with [sampleState] in memory and persisted. *)
Definition sampleOpen : App.t :=
  App.mk (Some sampleState) false false (Some (Snapshot sampleState)).


(** 2024-01-01T12:00:00Z, the day of [sampleState]'s last login, and
    2024-01-02T11:00:00Z, the day of [sampleStamp]. *)
Definition sampleSameDay : Z := 1704110400000.
Definition sampleNextVisit : Z := 1704193200000.

(** The thirteen answers of a questionnaire, and an assessment. *)
Definition sampleAnswers : list string :=
  ["Jinwoo"; "3"; "45"; "4"; "5"; "Walking to work"; "Build muscle"; "No";
   "None"; "20"; "2"; "Well"; "Getting stronger"]%string.

Definition sampleAssessment : Assessment.t :=
  Assessment.mk "E"
    [QuestData.mk "q1" "Push-ups" "Do 50 push-ups" 250 static 50].

(** The record that onboarding makes of them at 2024-01-01T10:00:00Z. *)
Definition sampleOnboarded : UserState.t :=
  UserState.mk 1 0 "E"
    [Quest.mk "q1" "Push-ups" "Do 50 push-ups" 250 static 50 0]
    [] "Jinwoo" 1704103200000 0 0.

(** Opening a new installation and submitting the questionnaire. *)
Definition sampleOnboarding : list SessionEvent :=
  [AppEvent (Mount 1704103100000 1704103100000 NetworkError);
   AppEvent (SubmitQuestionnaire sampleAnswers 1704103200000
               (Parsed sampleAssessment))].


(** Three positions: on the equator at longitudes 0 and 1, and one
    degree north of the second. *)
Definition samplePosition0 : Geo.GeolocationCoordinates := Geo.mkCoords 0 0.
Definition samplePosition1 : Geo.GeolocationCoordinates := Geo.mkCoords 0 1.
Definition samplePosition2 : Geo.GeolocationCoordinates := Geo.mkCoords 1 1.

(** Tracking of a quest is started and the sensor fails; and tracking
    with a fix, a sensor failure and a new start. *)
Definition sampleFailedTracking : list Tracker.Event :=
  [Tracker.Toggle "q1" 3; Tracker.Failure 3].

Definition sampleTracking : list Tracker.Event :=
  [Tracker.Toggle "q2" 7; Tracker.Fix 7 samplePosition0;
   Tracker.Failure 7; Tracker.Toggle "q2" 8].

(** A double quote, and a text between double quotes. *)
Definition dq : string := String (ascii_of_nat 34) EmptyString.

Definition quoted (s : string) : string := dq ++ s ++ dq.

(** The first quest of a reply, as JSON text. *)
Definition sampleFirstObject : string :=
  "{" ++ quoted "id" ++ ":" ++ quoted "d1" ++ ","
      ++ quoted "title" ++ ":" ++ quoted "Squats" ++ ","
      ++ quoted "description" ++ ":" ++ quoted "Do 40 squats" ++ ","
      ++ quoted "xp" ++ ":120,"
      ++ quoted "type" ++ ":" ++ quoted "static" ++ ","
      ++ quoted "goal" ++ ":40}".

(** A reply that is cut off inside its second quest: the array is
    never closed. *)
Definition sampleCutReply : string :=
  "[" ++ sampleFirstObject ++ ",{" ++ quoted "id" ++ ":" ++ quoted "d2"
      ++ "," ++ quoted "title" ++ ":" ++ quoted "Wal".

(** ** The progression update on binary64 numbers

    The same source text, [updateQuestProgress], with JavaScript's
    numbers as they are: IEEE 754 binary64 values, here the standard
    library's [spec_float] at precision 53 and maximal exponent 1024,
    with its correctly rounded [SFadd], [SFsub], [SFmul], [SFdiv] and
    [SFsqrt] and its comparison [SFcompare].  The definitions above are
    this update read over exact numbers; the two agree while every
    number is a whole number up to [2 ^ 53]. *)
Module B64.

Definition prec : Z := 53.
Definition emax : Z := 1024.

Definition Number : Type := spec_float.

Definition NaN : Number := S754_nan.

(** The number nearest to the whole number [n]: [n] itself up to
    [2 ^ 53]. *)
Definition ofZ (n : Z) : Number := binary_normalize prec emax n 0 false.

(** The number nearest to the fraction [p / q] of two whole numbers up
    to [2 ^ 53], as a decimal literal denotes it. *)
Definition ofQ (p q : Z) : Number := SFdiv prec emax (ofZ p) (ofZ q).

(** [a + b], [a - b], [a * b], [a / b] and [Math.sqrt(a)]. *)
Definition add : Number -> Number -> Number := SFadd prec emax.
Definition sub : Number -> Number -> Number := SFsub prec emax.
Definition mul : Number -> Number -> Number := SFmul prec emax.
Definition div : Number -> Number -> Number := SFdiv prec emax.
Definition sqrt : Number -> Number := SFsqrt prec emax.

(** [a < b], [a >= b] and [a === b]: all false when an operand is
    [NaN]. *)
Definition ltb (x y : Number) : bool := SFltb x y.
Definition geb (x y : Number) : bool := SFleb y x.
Definition strictEq (x y : Number) : bool := SFeqb x y.

Definition isNaN (x : Number) : bool :=
  match x with
  | S754_nan => true
  | _ => false
  end.

(** Neither [NaN] nor an infinity. *)
Definition isFinite (x : Number) : bool :=
  match x with
  | S754_zero _ | S754_finite _ _ _ => true
  | S754_infinity _ | S754_nan => false
  end.

(** [Math.min(x, y)]: [NaN] if an argument is [NaN]; [-0] counts as
    smaller than [+0]. *)
Definition Math_min (x y : Number) : Number :=
  if isNaN x || isNaN y then NaN
  else if ltb y x then y
  else if ltb x y then x
  else match x with
       | S754_zero true => x
       | _ => y
       end.

(** The whole number a number stands for (its integer part, 0 for
    [NaN] and the infinities). *)
Definition toZ (x : Number) : Z :=
  match x with
  | S754_finite s m e =>
      let v := if 0 <=? e then Zpos m * 2 ^ e else Zpos m / 2 ^ (- e) in
      if s then - v else v
  | _ => 0
  end.

(** The whole numbers from 0 to [2 ^ 53]: each is a binary64 value, and
    sums, differences and products within the range are exact. *)
Definition whole (n : Z) : Prop := 0 <= n <= 2 ^ 53.

Definition wholeNumber (x : Number) : Prop :=
  whole (toZ x) /\ x = ofZ (toZ x).

Module Quest.

Record t := mk {
  id : string;
  title : string;
  description : string;
  xp : Number;
  type : QuestType;
  goal : Number;
  progress : Number
}.

(** [{ ...q, progress: p }] *)
Definition withProgress (q : t) (p : Number) : t :=
  mk (id q) (title q) (description q) (xp q) (type q) (goal q) p.

End Quest.

Module UserState.

Record t := mk {
  level : Number;
  xp : Number;
  difficulty : string;
  quests : list Quest.t;
  skills : list Skill.t;
  name : string;
  lastLogin : Z;
  dailySteps : Number;
  dailyDistance : Number
}.

End UserState.

Definition XP_PER_LEVEL : Number := ofZ 100.

(** The callback of [prevState.quests.map(q => ...)], with the closure
    variable [xpGained] threaded through. *)
Definition questCallback (questId : string) (value : Number)
    (q : Quest.t) (xpGained : Number) : Quest.t * Number :=
  if String.eqb (Quest.id q) questId
     && ltb (Quest.progress q) (Quest.goal q)
  then
    let newProgress := Math_min (add (Quest.progress q) value) (Quest.goal q) in
    let xpGained :=
      if geb newProgress (Quest.goal q)
         && ltb (Quest.progress q) (Quest.goal q)
      then add xpGained (Quest.xp q)
      else xpGained in
    (Quest.withProgress q newProgress, xpGained)
  else (q, xpGained).

Fixpoint mapQuests (questId : string) (value : Number)
    (quests : list Quest.t) (xpGained : Number) : list Quest.t * Number :=
  match quests with
  | [] => ([], xpGained)
  | q :: rest =>
      let '(q', xpGained) := questCallback questId value q xpGained in
      let '(rest', xpGained) := mapQuests questId value rest xpGained in
      (q' :: rest', xpGained)
  end.

(** [newQuests.every((q, i) => q.progress === prevQuests[i].progress)] *)
Fixpoint everyProgressSame (newQuests prevQuests : list Quest.t) : bool :=
  match newQuests, prevQuests with
  | [], _ => true
  | q :: qs, p :: ps =>
      strictEq (Quest.progress q) (Quest.progress p)
      && everyProgressSame qs ps
  | _ :: _, [] => false
  end.

(** The level-up loop.  On binary64 numbers it need not come to an end,
    so it is run for at most [fuel] tests of its condition; [None] says
    that the loop was still running then. *)
Fixpoint levelUp (fuel : nat) (newLevel newXp : Number)
    : option (Number * Number) :=
  match fuel with
  | O => None
  | S fuel =>
      let xpForNextLevel := mul XP_PER_LEVEL newLevel in
      if geb newXp xpForNextLevel
      then levelUp fuel (add newLevel (ofZ 1)) (sub newXp xpForNextLevel)
      else Some (newLevel, newXp)
  end.

(** The arrow function handed to [updateAndSaveState].  The outer
    [None] says that the loop was still running after [fuel] tests; the
    inner one is JavaScript's [null]. *)
Definition updateQuestProgress_updater (fuel : nat) (questId : string)
    (value : Number) (prevState : option UserState.t)
    : option (option UserState.t) :=
  match prevState with
  | None => Some None
  | Some prev =>
      let '(newQuests, xpGained) :=
        mapQuests questId value (UserState.quests prev) (ofZ 0) in
      if strictEq xpGained (ofZ 0)
         && everyProgressSame newQuests (UserState.quests prev)
      then Some (Some prev) (* No change *)
      else
        match levelUp fuel (UserState.level prev)
                (add (UserState.xp prev) xpGained) with
        | Some (newLevel, newXp) =>
            Some (Some (UserState.mk newLevel newXp
                          (UserState.difficulty prev) newQuests
                          (UserState.skills prev) (UserState.name prev)
                          (UserState.lastLogin prev)
                          (UserState.dailySteps prev)
                          (UserState.dailyDistance prev)))
        | None => None
        end
  end.

(** *** Observations *)

(** Both [if] tests of the callback hold: it runs [xpGained += q.xp]. *)
Definition awards (questId : string) (value : Number) (q : Quest.t) : bool :=
  (String.eqb (Quest.id q) questId
   && ltb (Quest.progress q) (Quest.goal q))
  && (geb (Math_min (add (Quest.progress q) value) (Quest.goal q))
        (Quest.goal q)
      && ltb (Quest.progress q) (Quest.goal q)).

(** The rewards of the quests for which the callback runs
    [xpGained += q.xp], added up as whole numbers. *)
Fixpoint gained (questId : string) (value : Number)
    (quests : list Quest.t) : Z :=
  match quests with
  | [] => 0
  | q :: rest =>
      (if awards questId value q then toZ (Quest.xp q) else 0)
      + gained questId value rest
  end.

(** What the callback makes of one quest. *)
Definition updatedQuest (questId : string) (value : Number)
    (q : Quest.t) : Quest.t :=
  fst (questCallback questId value q (ofZ 0)).

(** A quest is complete iff [progress >= goal]. *)
Definition isCompleted (q : Quest.t) : bool :=
  geb (Quest.progress q) (Quest.goal q).

(** The body and the condition of the loop on its two variables, and
    the state of the loop after [n] runs of its body. *)
Definition loopBody (st : Number * Number) : Number * Number :=
  (add (fst st) (ofZ 1), sub (snd st) (mul XP_PER_LEVEL (fst st))).

Definition loopCond (st : Number * Number) : bool :=
  geb (snd st) (mul XP_PER_LEVEL (fst st)).

Definition iterations (n : nat) (st : Number * Number) : Number * Number :=
  Nat.iter n loopBody st.

(** The rewards of a record's quests are whole numbers. *)
Definition wholeRewards (quests : list Quest.t) : Prop :=
  Forall (fun q => wholeNumber (Quest.xp q)) quests.

(** *** Mantissas and exponents

    What the statements about exact arithmetic are proved with. *)

Definition rec0 (m : Z) : shr_record := Build_shr_record m false false.

(** Two mantissa-exponent pairs of the same value. *)
Definition sameValue (m : positive) (e : Z) (w : positive) (t : Z) : Prop :=
  (e <= t /\ Zpos m = Zpos w * 2 ^ (t - e))
  \/ (t <= e /\ Zpos w = Zpos m * 2 ^ (e - t)).

(** The value of a mantissa [m] at exponent [e >= -1074], scaled by
    [2 ^ 1074]. *)
Definition scaled (m e : Z) : Z := m * 2 ^ (e + 1074).

(** The 53-digit mantissa [w] at exponent [t] is the whole number [n]. *)
Definition repr (n : Z) (w : positive) (t : Z) : Prop :=
  Zpos (digits2_pos w) = 53
  /\ -1074 <= t <= 971
  /\ scaled (Zpos w) t = scaled n 0.

(** The whole-number levels and experience totals from which every
    number the level-up loop computes is a whole number up to
    [2 ^ 53]. *)
Definition exactLoop (L X : Z) : Prop :=
  1 <= L /\ 0 <= X /\ 100 * L <= 2 ^ 53 /\ X + 100 * (L - 1) <= 2 ^ 53.

(** The exact value of a finite number, as a fraction (0 for [NaN] and
    the infinities). *)
Definition toQ (x : Number) : Q :=
  match x with
  | S754_finite s m e =>
      let v := if 0 <=? e then inject_Z (Zpos m * 2 ^ e)
               else Qmake (Zpos m) (Z.to_pos (2 ^ (- e))) in
      if s then Qopp v else v
  | _ => 0%Q
  end.

(** The rewards of the quests that are not complete, added up as whole
    numbers: what the record's quests can still gain. *)
Fixpoint pending (quests : list Quest.t) : Z :=
  match quests with
  | [] => 0
  | q :: rest =>
      (if isCompleted q then 0 else toZ (Quest.xp q)) + pending rest
  end.

(** A record of whole numbers on which every sum the update computes,
    now and on later updates, stays within [2 ^ 53]. *)
Definition inRange (st : UserState.t) : Prop :=
  wholeNumber (UserState.level st)
  /\ wholeNumber (UserState.xp st)
  /\ wholeRewards (UserState.quests st)
  /\ 1 <= toZ (UserState.level st)
  /\ 100 * toZ (UserState.level st) + toZ (UserState.xp st)
     + pending (UserState.quests st) <= 2 ^ 53.

(** All experience ever credited to a record of whole numbers: what it
    holds now plus the thresholds [100 * k] of the levels
    [1 <= k < level] already paid. *)
Definition cumulativeXp (st : UserState.t) : Z :=
  toZ (UserState.xp st)
  + 50 * toZ (UserState.level st) * (toZ (UserState.level st) - 1).

(** The update of quest [questId] by [value] runs [xpGained += q.xp]
    for the quest at position [i]. *)
Definition awardsAt (i : nat) (questId : string) (value : Number)
    (st : UserState.t) : bool :=
  match nth_error (UserState.quests st) i with
  | Some q => awards questId value q
  | None => false
  end.

(** A sequence of progress updates applied in order, each with [fuel]
    tests for its loop: the record they leave and how many of them run
    [xpGained += q.xp] for the quest at position [i]. *)
Fixpoint runUpdates (fuel : nat) (i : nat)
    (updates : list (string * Number)) (st : UserState.t)
    : option (UserState.t * nat) :=
  match updates with
  | [] => Some (st, O)
  | (questId, value) :: rest =>
      match updateQuestProgress_updater fuel questId value (Some st) with
      | Some (Some st') =>
          match runUpdates fuel i rest st' with
          | Some (final, n) =>
              Some (final,
                    ((if awardsAt i questId value st then 1 else 0) + n)%nat)
          | None => None
          end
      | _ => None
      end
  end.

(** *** The distance estimator ([haversineDistance]) *)

Module Geo.

Record GeolocationCoordinates := mkCoords {
  latitude : Number;
  longitude : Number
}.

(** [Math.sin], [Math.cos] and [Math.atan2].  ECMAScript fixes their
    values at a few arguments and leaves the others to the
    implementation, so the estimator takes them as an argument. *)
Record Math := mkMath {
  sin : Number -> Number;
  cos : Number -> Number;
  atan2 : Number -> Number -> Number
}.

(** Values that ECMAScript fixes: [sin(+0) = +0], [cos(+0) = 1],
    [sin(NaN) = cos(NaN) = NaN], [atan2(+0, x) = +0] for [x > 0], and
    [atan2] of a [NaN] is [NaN]. *)
Definition ecmaScript (M : Math) : Prop :=
  sin M (S754_zero false) = S754_zero false
  /\ cos M (S754_zero false) = ofZ 1
  /\ sin M NaN = NaN
  /\ cos M NaN = NaN
  /\ (forall x, ltb (ofZ 0) x = true ->
                atan2 M (S754_zero false) x = S754_zero false)
  /\ (forall y, atan2 M y NaN = NaN)
  /\ (forall x, atan2 M NaN x = NaN).

(** [Math.PI], the number [3.141592653589793]. *)
Definition PI : Number := S754_finite false 7074237752028440 (-51).

Definition toRad (x : Number) : Number := div (mul x PI) (ofZ 180).

(** The quantity [a] of the source. *)
Definition haversineA (M : Math) (coords1 coords2 : GeolocationCoordinates)
    : Number :=
  let dLat := toRad (sub (latitude coords2) (latitude coords1)) in
  let dLon := toRad (sub (longitude coords2) (longitude coords1)) in
  let lat1 := toRad (latitude coords1) in
  let lat2 := toRad (latitude coords2) in
  add (mul (sin M (div dLat (ofZ 2))) (sin M (div dLat (ofZ 2))))
      (mul (mul (mul (sin M (div dLon (ofZ 2))) (sin M (div dLon (ofZ 2))))
                (cos M lat1))
           (cos M lat2)).

Definition haversineDistance (M : Math)
    (coords1 coords2 : GeolocationCoordinates) : Number :=
  let R := ofZ 6371 in (* Earth radius in km *)
  let a := haversineA M coords1 coords2 in
  let c := mul (ofZ 2) (atan2 M (sqrt a) (sqrt (sub (ofZ 1) a))) in
  mul R c. (* in km *)

End Geo.

End B64.

(** ** Sample binary64 records *)

(** A record at level 1 with 90 experience and one open quest worth
    250. *)
Definition b64Pushups : B64.Quest.t :=
  B64.Quest.mk "q1" "Push-ups" "Do 50 push-ups" (B64.ofZ 250) static
    (B64.ofZ 50) (B64.ofZ 0).

Definition b64State : B64.UserState.t :=
  B64.UserState.mk (B64.ofZ 1) (B64.ofZ 90) "E" [b64Pushups] [] "Jinwoo"
    1704103200000 (B64.ofZ 0) (B64.ofZ 0).

(** A record at level 1 with 1 experience whose one quest is worth
    [2 ^ 53 = 9007199254740992]. *)
Definition b64LargeReward : B64.UserState.t :=
  B64.UserState.mk (B64.ofZ 1) (B64.ofZ 1) "S"
    [B64.Quest.mk "q1" "Run" "Run 1 km" (B64.ofZ (2 ^ 53)) distance
       (B64.ofZ 1) (B64.ofZ 0)]
    [] "Jinwoo" 1704103200000 (B64.ofZ 0) (B64.ofZ 0).

(** The number [1e40]. *)
Definition b64_1e40 : B64.Number := B64.ofZ (10 ^ 40).

(** A record at level 1 without experience whose one quest, worth 50,
    stands at progress [0.7] of its goal 1. *)
Definition b64Sprint : B64.Quest.t :=
  B64.Quest.mk "q2" "Run" "Run 1 km" (B64.ofZ 50) distance
    (B64.ofZ 1) (B64.ofQ 7 10).

Definition b64Runner : B64.UserState.t :=
  B64.UserState.mk (B64.ofZ 1) (B64.ofZ 0) "E" [b64Sprint] [] "Jinwoo"
    1704103200000 (B64.ofZ 0) (B64.ofZ 0).

(** The three functions at the arguments the sample fixes lead to:
    the values ECMAScript fixes, and the correctly rounded
    [sin(±0.13962634015954636) = ±0.13917310096006544],
    [sin(±1.5707963267948966) = ±1],
    [sin(±0.008726646259971648) = ±0.008726535498373935],
    [cos(±0.13962634015954636) = 0.9902680687415704] and
    [atan2(0.008726535498373935, 0.9999619230641713)
     = 0.008726646259971648].  No value is given for any other argument
    ([NaN] stands there). *)
Definition sampleSin (x : B64.Number) : B64.Number :=
  match x with
  | S754_zero _ => x
  | S754_finite s m e =>
      if (m =? 5030569068109113)%positive && (e =? -55)
      then S754_finite s 5014239404989977 (-55)
      else if (m =? 7074237752028440)%positive && (e =? -52)
      then S754_finite s 4503599627370496 (-52)
      else if (m =? 5030569068109113)%positive && (e =? -59)
      then S754_finite s 5030505218395169 (-59)
      else B64.NaN
  | _ => B64.NaN
  end.

Definition sampleCos (x : B64.Number) : B64.Number :=
  match x with
  | S754_zero _ => B64.ofZ 1
  | S754_finite _ m e =>
      if (m =? 5030569068109113)%positive && (e =? -55)
      then S754_finite false 8919541810762874 (-53)
      else B64.NaN
  | _ => B64.NaN
  end.

Definition sampleAtan2 (y x : B64.Number) : B64.Number :=
  if B64.isNaN y || B64.isNaN x then B64.NaN
  else match y with
       | S754_zero false =>
           if B64.ltb (B64.ofZ 0) x then S754_zero false else B64.NaN
       | S754_finite false 5030505218395169 (-59) =>
           match x with
           | S754_finite false 9006856288192973 (-53) =>
               S754_finite false 5030569068109113 (-59)
           | _ => B64.NaN
           end
       | _ => B64.NaN
       end.

Definition sampleMath : B64.Geo.Math :=
  B64.Geo.mkMath sampleSin sampleCos sampleAtan2.

(** Two position fixes: latitude 8, longitude 0, and latitude -8,
    longitude 180. *)
Definition b64Fix1 : B64.Geo.GeolocationCoordinates :=
  B64.Geo.mkCoords (B64.ofZ 8) (B64.ofZ 0).

Definition b64Fix2 : B64.Geo.GeolocationCoordinates :=
  B64.Geo.mkCoords (B64.ofZ (-8)) (B64.ofZ 180).

(** Two points of the equator one degree of longitude apart. *)
Definition b64Origin : B64.Geo.GeolocationCoordinates :=
  B64.Geo.mkCoords (B64.ofZ 0) (B64.ofZ 0).

Definition b64East : B64.Geo.GeolocationCoordinates :=
  B64.Geo.mkCoords (B64.ofZ 0) (B64.ofZ 1).

(** Two ways of logging fifty push-ups. *)
Definition b64LogOnce : list (string * B64.Number) :=
  [("q1"%string, B64.ofZ 50)].

Definition b64LogTwice : list (string * B64.Number) :=
  [("q1"%string, B64.ofZ 20); ("q1"%string, B64.ofZ 30)].

(** A record at level [2 ^ 53] with [1e40] experience and the quest
    [b64Sprint]. *)
Definition b64Stuck : B64.UserState.t :=
  B64.UserState.mk (B64.ofZ (2 ^ 53)) b64_1e40 "S" [b64Sprint] [] "Jinwoo"
    1704103200000 (B64.ofZ 0) (B64.ofZ 0).

(* ================================================================== *)
(** * Properties *)
(* ================================================================== *)

(** ** Level-up loop *)

(** The loop as one guarded iteration followed by the rest of the loop. *)
Lemma levelUp_step (newLevel newXp : Z) :
  levelUp newLevel newXp =
  if loopCond (newLevel, newXp)
  then levelUp (newLevel + 1) (newXp - xpForNextLevel newLevel)
  else (newLevel, newXp).
Proof.
  rewrite levelUp_equation_1. unfold loopCond.
  destruct (Z_ge_dec newXp (xpForNextLevel newLevel)) as [H | H]; simpl.
  - apply Z.geb_ge in H. rewrite H. reflexivity.
  - destruct (newXp >=? xpForNextLevel newLevel) eqn:E; [| reflexivity].
    apply Z.geb_ge in E. contradiction.
Qed.

Example levelUp_1_250 : levelUp 1 250 = (2, 150).
Proof.
  rewrite (levelUp_step 1 250). change (levelUp 2 150 = (2, 150)).
  rewrite (levelUp_step 2 150). reflexivity.
Qed.

(** *** Facts about the loop *)

Lemma sumThresholds_same (L : Z) : sumThresholds L L = 0.
Proof. unfold sumThresholds. rewrite Z.sub_diag. reflexivity. Qed.

Lemma sumThresholds_first (L L' : Z) :
  L < L' -> sumThresholds L L' = xpForNextLevel L + sumThresholds (L + 1) L'.
Proof.
  intros H. unfold sumThresholds.
  replace (Z.to_nat (L' - L)) with (S (Z.to_nat (L' - (L + 1)))) by lia.
  reflexivity.
Qed.

Lemma sumThresholdsFrom_closed (n : nat) (L : Z) :
  sumThresholdsFrom L n =
  50 * Z.of_nat n * (2 * L + Z.of_nat n - 1).
Proof.
  revert L. induction n as [| n IH]; intros L.
  - reflexivity.
  - cbn [sumThresholdsFrom]. rewrite IH.
    unfold xpForNextLevel, XP_PER_LEVEL. nia.
Qed.

(** What the loop returns: the level never drops, the guard is false on
    exit, and the experience taken away is the sum of the thresholds of
    the levels passed. *)
Lemma levelUp_spec (L x : Z) :
  let '(L', E) := levelUp L x in
  L <= L' /\ E < xpForNextLevel L' /\ E + sumThresholds L L' = x.
Proof.
  funelim (levelUp L x).
  - destruct (levelUp (newLevel + 1) (newXp - xpForNextLevel newLevel))
      as [L' E] eqn:Hrec.
    destruct H as (Hle & Hlt & Hsum).
    repeat split; try lia.
    rewrite sumThresholds_first by lia. lia.
  - rewrite sumThresholds_same. lia.
Qed.

Lemma levelUp_nonneg (L x : Z) :
  1 <= L -> 0 <= x -> 0 <= snd (levelUp L x).
Proof.
  funelim (levelUp L x); intros HL Hx.
  - apply H; unfold xpForNextLevel, XP_PER_LEVEL in *; lia.
  - exact Hx.
Qed.

Lemma sumThresholds_closed (L L' : Z) :
  L <= L' -> sumThresholds L L' = 50 * L' * (L' - 1) - 50 * L * (L - 1).
Proof.
  intros H. unfold sumThresholds. rewrite sumThresholdsFrom_closed.
  rewrite Z2Nat.id by lia. ring.
Qed.

(** ** Comparisons on rationals *)

Lemma Qlt_bool_iff (x y : Q) : Qlt_bool x y = true <-> (x < y)%Q.
Proof.
  unfold Qlt_bool. rewrite negb_true_iff.
  split; intros H.
  - apply Qnot_le_lt. intros Hle. apply Qle_bool_iff in Hle. congruence.
  - destruct (Qle_bool y x) eqn:E; [| reflexivity].
    apply Qle_bool_iff in E. exfalso. exact (Qlt_not_le _ _ H E).
Qed.

Lemma Qlt_bool_false_iff (x y : Q) : Qlt_bool x y = false <-> (y <= x)%Q.
Proof.
  unfold Qlt_bool. rewrite negb_false_iff. apply Qle_bool_iff.
Qed.

Lemma Qge_bool_iff (x y : Q) : Qge_bool x y = true <-> (y <= x)%Q.
Proof. apply Qle_bool_iff. Qed.

(** ** Quest updates *)

Section Updater.

(** One update: the identifier named and the amount reported. *)
Variables (questId : string) (value : Q).

Lemma questCallback_spec (q : Quest.t) (acc : Z) :
  questCallback questId value q acc =
  (updatedQuest questId value q,
   acc + (if awards questId value q then Quest.xp q else 0)).
Proof.
  unfold updatedQuest, questCallback, awards.
  destruct (String.eqb (Quest.id q) questId
            && Qlt_bool (Quest.progress q) (Quest.goal q)); cbn.
  - destruct (Qge_bool _ _ && Qlt_bool _ _); cbn; f_equal; lia.
  - f_equal. lia.
Qed.

Lemma mapQuests_spec (quests : list Quest.t) (acc : Z) :
  mapQuests questId value quests acc =
  (map (updatedQuest questId value) quests,
   acc + sumAwards questId value quests).
Proof.
  revert acc. induction quests as [| q rest IH]; intros acc; cbn [mapQuests map sumAwards].
  - f_equal. lia.
  - rewrite questCallback_spec, IH. f_equal. lia.
Qed.

Lemma xpGainedBy_sumAwards (prev : UserState.t) :
  xpGainedBy questId value prev = sumAwards questId value (UserState.quests prev).
Proof. unfold xpGainedBy. rewrite mapQuests_spec. reflexivity. Qed.

Lemma updatedQuest_other (q : Quest.t) :
  String.eqb (Quest.id q) questId && Qlt_bool (Quest.progress q) (Quest.goal q) = false ->
  updatedQuest questId value q = q /\ awards questId value q = false.
Proof.
  intros H. unfold updatedQuest, questCallback, awards. rewrite H. auto.
Qed.

Lemma everyProgressSame_refl (quests : list Quest.t) :
  everyProgressSame quests quests = true.
Proof.
  induction quests as [| q rest IH]; cbn; [reflexivity |].
  rewrite IH, andb_true_r. apply Qeq_bool_iff. reflexivity.
Qed.

(** The updater, with the [map] written out. *)
Lemma updater_unfold (prev : UserState.t) :
  updateQuestProgress_updater questId value (Some prev) =
  let newQuests := map (updatedQuest questId value) (UserState.quests prev) in
  let xpGained := xpGainedBy questId value prev in
  if (xpGained =? 0) && everyProgressSame newQuests (UserState.quests prev)
  then Some prev
  else
    Some (UserState.mk
            (fst (levelUp (UserState.level prev) (UserState.xp prev + xpGained)))
            (snd (levelUp (UserState.level prev) (UserState.xp prev + xpGained)))
            (UserState.difficulty prev) newQuests
            (UserState.skills prev) (UserState.name prev)
            (UserState.lastLogin prev)
            (UserState.dailySteps prev) (UserState.dailyDistance prev)).
Proof.
  unfold updateQuestProgress_updater, xpGainedBy.
  rewrite mapQuests_spec. cbn [fst snd].
  rewrite Z.add_0_l.
  destruct (_ && _); [reflexivity |].
  destruct (levelUp _ _); reflexivity.
Qed.

(** The updater always yields a record when given one. *)
Lemma updater_some (prev : UserState.t) :
  exists next, updateQuestProgress_updater questId value (Some prev) = Some next.
Proof.
  rewrite updater_unfold. cbv zeta. destruct (_ && _); eauto.
Qed.

(** A no-op [map]: when every quest that carries the identifier is
    already complete (in particular when none carries it), the callback
    gives every quest back as it is. *)
Lemma map_updatedQuest_noop (quests : list Quest.t) :
  (forall q, In q quests -> Quest.id q = questId -> isCompleted q = true) ->
  map (updatedQuest questId value) quests = quests
  /\ sumAwards questId value quests = 0.
Proof.
  induction quests as [| q rest IH]; intros Hdone; cbn [map sumAwards].
  - split; reflexivity.
  - destruct IH as [IHm IHs].
    { intros q' Hin. apply Hdone. now right. }
    assert (Hq : String.eqb (Quest.id q) questId
                 && Qlt_bool (Quest.progress q) (Quest.goal q) = false).
    { destruct (String.eqb_spec (Quest.id q) questId) as [Heq | Hne]; [| reflexivity].
      cbn. apply Qlt_bool_false_iff. apply Qge_bool_iff.
      apply Hdone; [now left | exact Heq]. }
    destruct (updatedQuest_other q Hq) as [-> ->].
    rewrite IHm, IHs. split; reflexivity.
Qed.

End Updater.

Lemma updater_noop (prev : UserState.t) (questId : string) (value : Q) :
  (forall q, In q (UserState.quests prev) ->
             Quest.id q = questId ->
             (Quest.goal q <= Quest.progress q)%Q) ->
  updateQuestProgress_updater questId value (Some prev) = Some prev.
Proof.
  intros Hdone. rewrite updater_unfold. cbv zeta.
  destruct (map_updatedQuest_noop questId value (UserState.quests prev)) as [Hm Hs].
  { intros q Hin Hid. apply Qge_bool_iff. now apply Hdone. }
  rewrite xpGainedBy_sumAwards, Hm, Hs, everyProgressSame_refl. reflexivity.
Qed.



Lemma NoDup_id_unique (quests : list Quest.t) (q q0 : Quest.t) :
  NoDup (map Quest.id quests) ->
  In q quests -> In q0 quests -> Quest.id q = Quest.id q0 -> q = q0.
Proof.
  induction quests as [| a l IH]; intros Hnd Hin Hin0 Hid; [contradiction |].
  apply NoDup_cons_iff in Hnd. destruct Hnd as [Hnotin Hnd].
  destruct Hin as [Ha | Hin], Hin0 as [Ha0 | Hin0].
  - congruence.
  - exfalso. apply Hnotin. rewrite Ha, Hid. now apply in_map.
  - exfalso. apply Hnotin. rewrite Ha0, <- Hid. now apply in_map.
  - now apply IH.
Qed.

(** The reading of C3 with the data model's unique identifiers: the
    identifier is absent, or a quest carrying it is complete. *)
Corollary updateQuestProgress_noop_unique (prev : UserState.t) (questId : string) (value : Q) :
  NoDup (map Quest.id (UserState.quests prev)) ->
  (~ In questId (map Quest.id (UserState.quests prev))
   \/ exists q, In q (UserState.quests prev) /\ Quest.id q = questId
                /\ (Quest.goal q <= Quest.progress q)%Q) ->
  updateQuestProgress_updater questId value (Some prev) = Some prev.
Proof.
  intros Hnd Hcase. apply updater_noop.
  intros q Hin Hid. destruct Hcase as [Habs | (q0 & Hin0 & Hid0 & Hdone)].
  - exfalso. apply Habs. rewrite <- Hid. now apply in_map.
  - assert (q = q0) as ->; [| exact Hdone].
    apply (NoDup_id_unique (UserState.quests prev)); congruence.
Qed.




(** When one quest alone carries the identifier, the pending experience
    is that quest's reward or nothing. *)
Lemma sumAwards_unique (questId : string) (value : Q) (quests : list Quest.t) :
  forall (i : nat) (q : Quest.t),
    nth_error quests i = Some q ->
    Quest.id q = questId ->
    (forall j q2, nth_error quests j = Some q2 -> Quest.id q2 = questId -> j = i) ->
    sumAwards questId value quests
    = (if awards questId value q then Quest.xp q else 0).
Proof.
  induction quests as [| a rest IH]; intros i q Hi Hid Huniq.
  - destruct i; discriminate.
  - cbn [sumAwards]. destruct i as [| i]; cbn in Hi.
    + injection Hi as ->.
      assert (Hrest : sumAwards questId value rest = 0).
      { apply map_updatedQuest_noop. intros q2 Hin Hid2.
        apply In_nth_error in Hin. destruct Hin as [j Hj].
        specialize (Huniq (S j) q2 Hj Hid2). discriminate. }
      rewrite Hrest. lia.
    + assert (Ha : awards questId value a = false).
      { unfold awards.
        destruct (String.eqb_spec (Quest.id a) questId) as [Heq | Hne]; [| reflexivity].
        specialize (Huniq O a eq_refl Heq). discriminate. }
      rewrite Ha, (IH i q Hi Hid); [lia |].
      intros j q2 Hj Hid2. specialize (Huniq (S j) q2 Hj Hid2). lia.
Qed.

(** C4.  Ground-truth scenario: a record at level 1 with experience 0 in
    which the quest carrying the identifier, worth 250, is brought to its
    goal.  The loop takes the level-1 threshold of 100 (level 2, 150
    left), finds 150 below the level-2 threshold of 200 and stops: the
    result is level 2 with 150 experience. *)
Theorem scenario_quest_worth_250 (prev : UserState.t) (i : nat) (q : Quest.t) (d : Q) :
  UserState.level prev = 1 ->
  UserState.xp prev = 0 ->
  nth_error (UserState.quests prev) i = Some q ->
  (forall j q2, nth_error (UserState.quests prev) j = Some q2 ->
                Quest.id q2 = Quest.id q -> j = i) ->
  Quest.xp q = 250 ->
  (Quest.progress q < Quest.goal q)%Q ->
  (Quest.goal q <= Quest.progress q + d)%Q ->
  exists next,
    updateQuestProgress_updater (Quest.id q) d (Some prev) = Some next
    /\ UserState.level next = 2
    /\ UserState.xp next = 150
    /\ xpForNextLevel 1 = 100
    /\ loopCond (1, 250) = true
    /\ loopBody (1, 250) = (2, 150)
    /\ xpForNextLevel 2 = 200
    /\ loopCond (2, 150) = false.
Proof.
  intros HL Hxp Hi Huniq Hreward Hlt Hreach.
  assert (Haw : awards (Quest.id q) d q = true).
  { unfold awards. rewrite String.eqb_refl.
    apply Qlt_bool_iff in Hlt. rewrite Hlt. cbn.
    rewrite andb_true_r. apply Qge_bool_iff.
    apply Q.min_glb; [exact Hreach | apply Qle_refl]. }
  assert (Hgain : xpGainedBy (Quest.id q) d prev = 250).
  { rewrite xpGainedBy_sumAwards.
    rewrite (sumAwards_unique _ _ _ i q Hi eq_refl Huniq), Haw. exact Hreward. }
  rewrite updater_unfold. cbv zeta. rewrite Hgain. cbn [Z.eqb andb].
  rewrite HL, Hxp. cbn [Z.add]. rewrite levelUp_1_250.
  eexists. split; [reflexivity |]. cbn. repeat split.
Qed.

Lemma scenario_quest_worth_250_witness :
  exists next,
    updateQuestProgress_updater "q1" 30 (Some sampleState) = Some next
    /\ UserState.level next = 2
    /\ UserState.xp next = 150
    /\ xpForNextLevel 1 = 100
    /\ loopCond (1, 250) = true
    /\ loopBody (1, 250) = (2, 150)
    /\ xpForNextLevel 2 = 200
    /\ loopCond (2, 150) = false.
Proof.
  apply (scenario_quest_worth_250 sampleState 0 samplePushups 30);
    try reflexivity.
  - intros [| [| [| j]]] q2 Hj Hid; cbn in Hj.
    + reflexivity.
    + injection Hj as <-. discriminate.
    + discriminate.
    + discriminate.
  - discriminate.
Defined.

(** One update can lift the level by more than one: a reward of 300 at
    level 1 pays the thresholds 100 and 200. *)
Example multiple_level_ups_in_one_call :
  exists next,
    updateQuestProgress_updater "q2" (5 # 2) (Some sampleState) = Some next
    /\ UserState.level next = 3 /\ UserState.xp next = 0.
Proof.
  rewrite updater_unfold. cbv zeta.
  change (xpGainedBy "q2" (5 # 2) sampleState) with 300.
  change (UserState.level sampleState) with 1.
  change (UserState.xp sampleState + 300) with 300.
  assert (Hl : levelUp 1 300 = (3, 0)).
  { rewrite (levelUp_step 1 300). change (levelUp 2 200 = (3, 0)).
    rewrite (levelUp_step 2 200). change (levelUp 3 0 = (3, 0)).
    rewrite (levelUp_step 3 0). reflexivity. }
  rewrite Hl. cbn [Z.eqb andb fst snd]. eexists. split; [reflexivity |].
  split; reflexivity.
Qed.

(** ** Startup and the daily refresh *)

Lemma toISOString_valid (t : Z) :
  JSDate.validTime t = true -> exists iso, JSDate.toISOString t = Some iso.
Proof. intros H. unfold JSDate.toISOString. rewrite H. eauto. Qed.

Lemma isoDay_some_valid (t : Z) (day : string) :
  JSDate.isoDay t = Some day -> JSDate.validTime t = true.
Proof.
  unfold JSDate.isoDay, JSDate.toISOString.
  destruct (JSDate.validTime t); [reflexivity | discriminate].
Qed.



(** The refresh branch of the load effect, once the clock is valid. *)
Lemma generateNewQuests_valid (parsedState : UserState.t) (stamp : Z)
    (outcome : OracleOutcome (list QuestData.t)) (app : App.t) :
  JSDate.validTime stamp = true ->
  generateNewQuests parsedState stamp (shaped outcome) app =
  let s' := refreshed parsedState (freshQuests (getAiResponse outcome)) stamp in
  App.mk (Some s') false true (Some (Snapshot s')).
Proof.
  intros Hv. unfold generateNewQuests.
  destruct (toISOString_valid stamp Hv) as [iso Hiso].
  destruct outcome; cbn [shaped getAiResponse]; rewrite Hiso; reflexivity.
Qed.

(** The load effect over a stored snapshot, by the outcome of the day
    comparison. *)
Lemma loadEffect_snapshot (now stamp : Z)
    (outcome : OracleOutcome (Reply (list QuestData.t)))
    (app : App.t) (s : UserState.t) (today lastLoginDay : string) :
  App.storage app = Some (Snapshot s) ->
  JSDate.isoDay now = Some today ->
  JSDate.isoDay (UserState.lastLogin s) = Some lastLoginDay ->
  loadEffect now stamp outcome app =
  if dayChanged today lastLoginDay
  then generateNewQuests s stamp outcome app
  else App.setIsLoading false (App.setUserState (Some s) app).
Proof.
  intros Hst Hnow Hlast. unfold loadEffect. rewrite Hst, Hnow, Hlast.
  reflexivity.
Qed.

(** ** The daily counters *)

Lemma updater_counters (questId : string) (value : Q) (prev next : UserState.t) :
  updateQuestProgress_updater questId value (Some prev) = Some next ->
  UserState.dailySteps next = UserState.dailySteps prev
  /\ UserState.dailyDistance next = UserState.dailyDistance prev.
Proof.
  rewrite updater_unfold. cbv zeta. destruct (_ && _); intros H;
    injection H as <-; split; reflexivity.
Qed.

Lemma loadEffect_countersInvariant (now stamp : Z)
    (outcome : OracleOutcome (Reply (list QuestData.t))) (app : App.t) :
  countersInvariant app ->
  countersInvariant
    (loadEffect now stamp outcome (App.mounted (App.storage app))).
Proof.
  intros [Hu Hs]. unfold loadEffect. cbn [App.mounted App.storage].
  destruct (App.storage app) as [[| | parsedState] |] eqn:Hst.
  - split; cbn; intros s H; discriminate.
  - split; cbn; intros s H; discriminate.
  - destruct (JSDate.isoDay now) as [today |];
      [destruct (JSDate.isoDay (UserState.lastLogin parsedState))
         as [lastLoginDay |] |].
    + destruct (dayChanged today lastLoginDay).
      * unfold generateNewQuests.
        assert (Hkeep : countersInvariant
                          (App.mounted (Some (Snapshot parsedState)))).
        { split; cbn; intros s H; [discriminate |].
          injection H as <-. now apply Hs. }
        destruct (getAiResponse outcome) as [[data |] |];
          [| exact Hkeep |];
          (destruct (JSDate.toISOString stamp) as [iso |]; [| exact Hkeep]);
          split; cbn; intros s H; injection H as <-; split; reflexivity.
      * split; cbn; intros s H; injection H as <-; now apply Hs.
    + split; cbn; intros s H; discriminate.
    + split; cbn; intros s H; discriminate.
  - split; cbn; intros s H; discriminate.
Qed.

Lemma step_countersInvariant (e : Event) (app : App.t) :
  countersInvariant app -> countersInvariant (step e app).
Proof.
  intros Hinv.
  destruct e as [now stamp outcome | newAnswers now outcome
                 | questId value | | | now stamp]; cbn [step];
    try (now apply loadEffect_countersInvariant);
    destruct Hinv as [Hu Hs].
  - (* SubmitQuestionnaire *)
    unfold submitQuestionnaire.
    destruct (getAiResponse outcome) as [aiData |]; [| split; assumption].
    destruct (JSDate.toISOString now) as [iso |]; [| split; assumption].
    split; cbn; intros s H; injection H as <-; split; reflexivity.
  - (* UpdateQuest *)
    unfold updateQuestProgress, updateAndSaveState.
    destruct (App.userState app) as [prev |] eqn:Hprev.
    + destruct (updater_some questId value prev) as [next Hnext].
      rewrite Hnext.
      destruct (updater_counters _ _ _ _ Hnext) as [H1 H2].
      destruct (Hu prev eq_refl) as [H3 H4].
      split; cbn; intros s H; injection H as <-; split; congruence.
    + cbn. split; cbn; [intros s H; discriminate | exact Hs].
  - (* BeforeUnload *)
    unfold handleBeforeUnload.
    destruct (App.userState app) as [cur |] eqn:Hcur.
    2: { split; [intros s H; rewrite Hcur in H; discriminate | exact Hs]. }
    split; cbn; intros s H.
    + rewrite Hcur in H. injection H as <-. now apply Hu.
    + injection H as <-. now apply Hu.
  - (* ResetProgress *)
    split; cbn; [exact Hu | intros s H; discriminate].
Qed.

Lemma reachable_countersInvariant (app : App.t) :
  Reachable app -> countersInvariant app.
Proof.
  induction 1 as [| e app _ IH].
  - split; cbn; intros s H; discriminate.
  - now apply step_countersInvariant.
Qed.

Lemma reachable_run (events : list Event) (app : App.t) :
  Reachable app -> Reachable (run events app).
Proof.
  revert app. induction events as [| e rest IH]; intros app H; cbn.
  - exact H.
  - apply IH. now constructor.
Qed.

(** C10.  [dailySteps] and [dailyDistance] are dead fields: onboarding
    sets both to 0, the daily refresh sets both to 0, the progress
    update hands both on unchanged, and so in every state that a new
    installation can reach the record in memory and the persisted one
    have both at 0. *)
Theorem daily_counters_dead :
  (forall newAnswers now aiData,
      countersZero (initialState newAnswers now aiData))
  /\ (forall parsedState quests stamp,
        countersZero (refreshed parsedState quests stamp))
  /\ (forall questId value prev next,
        updateQuestProgress_updater questId value (Some prev) = Some next ->
        UserState.dailySteps next = UserState.dailySteps prev
        /\ UserState.dailyDistance next = UserState.dailyDistance prev)
  /\ (forall app s,
        Reachable app ->
        App.userState app = Some s \/ App.storage app = Some (Snapshot s) ->
        UserState.dailySteps s = 0%Q /\ UserState.dailyDistance s = 0%Q).
Proof.
  split; [intros; split; reflexivity |].
  split; [intros; split; reflexivity |].
  split; [intros questId value prev next; apply updater_counters |].
  intros app s Hreach Hs.
  destruct (reachable_countersInvariant app Hreach) as [Hu Hst].
  destruct Hs as [H | H]; [now apply Hu | now apply Hst].
Qed.

Lemma levelUp_below (L x : Z) :
  x < xpForNextLevel L -> levelUp L x = (L, x).
Proof.
  intros H. rewrite levelUp_step. unfold loopCond.
  destruct (x >=? xpForNextLevel L) eqn:E; [| reflexivity].
  apply Z.geb_ge in E. lia.
Qed.

Example sampleSession_end :
  run sampleSession App.initial
  = App.mk (Some sampleSessionEnd) false true (Some (Snapshot sampleSessionEnd)).
Proof.
  unfold run, sampleSession. cbn [fold_left].
  match goal with
  | |- step BeforeUnload (step ?e3 ?app2) = _ =>
      assert (E2 : app2 =
                   let s2 := initialState ["Jinwoo"%string; "3"%string]
                               1704103200000
                               (Assessment.mk "E"
                                  [QuestData.mk "q1" "Push-ups" "Do 50 push-ups"
                                     250 static 50]) in
                   App.mk (Some s2) false true (Some (Snapshot s2)))
        by (vm_compute; reflexivity);
      rewrite E2
  end.
  cbv zeta. cbn [step]. unfold updateQuestProgress, updateAndSaveState.
  cbn [App.userState]. rewrite updater_unfold. cbv zeta.
  match goal with
  | |- context [xpGainedBy ?i ?v ?s] =>
      change (xpGainedBy i v s) with 0
  end.
  cbn [initialState UserState.level UserState.xp Z.add].
  rewrite (levelUp_below 1 0) by (unfold xpForNextLevel, XP_PER_LEVEL; lia).
  vm_compute. reflexivity.
Qed.

Lemma daily_counters_dead_witness :
  Reachable (run sampleSession App.initial)
  /\ (App.userState (run sampleSession App.initial) = Some sampleSessionEnd
      \/ App.storage (run sampleSession App.initial)
         = Some (Snapshot sampleSessionEnd))
  /\ UserState.dailySteps sampleSessionEnd = 0%Q
  /\ UserState.dailyDistance sampleSessionEnd = 0%Q.
Proof.
  assert (H1 : Reachable (run sampleSession App.initial))
    by (apply reachable_run; constructor).
  assert (H2 : App.userState (run sampleSession App.initial) = Some sampleSessionEnd
               \/ App.storage (run sampleSession App.initial)
                  = Some (Snapshot sampleSessionEnd))
    by (left; rewrite sampleSession_end; reflexivity).
  split; [exact H1 |]. split; [exact H2 |].
  exact (proj2 (proj2 (proj2 daily_counters_dead)) _ _ H1 H2).
Defined.

(** ** Calendar dates *)

Module JSDateFacts.

Import JSDate.

Lemma cycleCheckFrom_spec (n : nat) :
  forall start doe : Z,
    cycleCheckFrom n start = true ->
    start <= doe < start + Z.of_nat n -> cycleCheck doe = true.
Proof.
  induction n as [| n IH]; intros start doe Hall Hin.
  - lia.
  - cbn [cycleCheckFrom] in Hall. apply andb_true_iff in Hall.
    destruct Hall as [Hhere Hrest].
    destruct (Z.eq_dec doe start) as [-> | Hne]; [exact Hhere |].
    apply (IH (start + 1)); [exact Hrest | lia].
Qed.

(** Every day of the 400-year cycle passes [cycleCheck]. *)
Lemma cycleCheck_all : cycleCheckFrom (Z.to_nat 146097) 0 = true.
Proof. vm_cast_no_check (@eq_refl bool true). Qed.

Lemma cycleCheck_range (doe : Z) :
  0 <= doe < 146097 -> cycleCheck doe = true.
Proof.
  intros H. apply (cycleCheckFrom_spec (Z.to_nat 146097) 0 doe).
  - exact cycleCheck_all.
  - rewrite Z2Nat.id; lia.
Qed.

Lemma civilFromDoe_spec (doe : Z) :
  0 <= doe < 146097 ->
  let '(yoe, m, d) := civilFromDoe doe in
  0 <= yoe <= 399 /\ 1 <= m <= 12 /\ 1 <= d <= 31
  /\ doeFromCivil yoe m d = doe.
Proof.
  intros H. pose proof (cycleCheck_range doe H) as Hc.
  unfold cycleCheck in Hc. destruct (civilFromDoe doe) as [[yoe m] d].
  repeat (apply andb_true_iff in Hc; destruct Hc as [Hc ?]).
  repeat match goal with
  | H : (_ <=? _) = true |- _ => apply Z.leb_le in H
  | H : (_ =? _) = true |- _ => apply Z.eqb_eq in H
  end.
  lia.
Qed.

(** [dayFromCivil] undoes [civilFromDay]: a date names one day. *)
Lemma dayFromCivil_civilFromDay (day : Z) :
  dayFromCivil (civilFromDay day) = day.
Proof.
  unfold civilFromDay.
  pose proof (Z.div_mod (day + 719468) 146097 ltac:(lia)) as Hdm.
  pose proof (Z.mod_pos_bound (day + 719468) 146097 ltac:(lia)) as Hb.
  set (era := (day + 719468) / 146097) in *.
  set (doe := (day + 719468) mod 146097) in *.
  pose proof (civilFromDoe_spec doe Hb) as Hs.
  destruct (civilFromDoe doe) as [[yoe m] d].
  destruct Hs as (Hy & Hm & Hd & Hinv).
  unfold dayFromCivil.
  assert (Hyear : (if m <=? 2
                   then (if m <=? 2 then yoe + era * 400 + 1 else yoe + era * 400) - 1
                   else (if m <=? 2 then yoe + era * 400 + 1 else yoe + era * 400))
                  = yoe + era * 400)
    by (destruct (m <=? 2); lia).
  rewrite Hyear.
  rewrite Z.div_add, Z.mod_add by lia.
  rewrite Z.div_small, Z.mod_small by lia.
  rewrite Hinv. lia.
Qed.

Lemma civilFromDay_inj (day1 day2 : Z) :
  civilFromDay day1 = civilFromDay day2 -> day1 = day2.
Proof.
  intros H. rewrite <- (dayFromCivil_civilFromDay day1), H.
  apply dayFromCivil_civilFromDay.
Qed.

(** Month and day of month are in range, and within the valid range of
    time values the year has at most six digits. *)
Lemma civilFromDay_range (day : Z) :
  -100000000 <= day <= 100000000 ->
  let '(y, m, d) := civilFromDay day in
  -999999 <= y <= 999999 /\ 1 <= m <= 12 /\ 1 <= d <= 31.
Proof.
  intros Hday. unfold civilFromDay.
  pose proof (Z.div_mod (day + 719468) 146097 ltac:(lia)) as Hdm.
  pose proof (Z.mod_pos_bound (day + 719468) 146097 ltac:(lia)) as Hb.
  set (era := (day + 719468) / 146097) in *.
  set (doe := (day + 719468) mod 146097) in *.
  pose proof (civilFromDoe_spec doe Hb) as Hs.
  destruct (civilFromDoe doe) as [[yoe m] d].
  destruct Hs as (Hy & Hm & Hd & _).
  destruct (m <=? 2); lia.
Qed.

Lemma Day_range (t : Z) :
  validTime t = true -> -100000000 <= Day t <= 100000000.
Proof.
  unfold validTime, Day, msPerDay. intros H.
  apply andb_true_iff in H. destruct H as [H1 H2].
  apply Z.leb_le in H1, H2.
  pose proof (Z.div_mod t 86400000 ltac:(lia)).
  pose proof (Z.mod_pos_bound t 86400000 ltac:(lia)).
  lia.
Qed.

(** *** Rendering *)

Lemma digit_code (x : Z) :
  0 <= x < 10 -> nat_of_ascii (digit x) = (48 + Z.to_nat x)%nat.
Proof.
  intros H. unfold digit. apply nat_ascii_embedding. lia.
Qed.

Lemma digit_inj (x y : Z) :
  0 <= x < 10 -> 0 <= y < 10 -> digit x = digit y -> x = y.
Proof.
  intros Hx Hy H. apply (f_equal nat_of_ascii) in H.
  rewrite !digit_code in H by assumption. lia.
Qed.

(** A digit is none of the other characters of a rendered date. *)
Lemma digit_not (x : Z) (c : ascii) :
  0 <= x < 10 ->
  (nat_of_ascii c < 48)%nat \/ (57 < nat_of_ascii c)%nat ->
  digit x <> c.
Proof.
  intros Hx Hc H. apply (f_equal nat_of_ascii) in H.
  rewrite digit_code in H by assumption. lia.
Qed.

Lemma pad_inj_mod (w : nat) :
  forall a b : Z,
    pad w a = pad w b -> a mod 10 ^ Z.of_nat w = b mod 10 ^ Z.of_nat w.
Proof.
  induction w as [| w IH]; intros a b H.
  - cbn. now rewrite !Z.mod_1_r.
  - cbn [pad] in H. injection H as Hd Hrest.
    apply IH in Hrest.
    apply digit_inj in Hd; try (apply Z.mod_pos_bound; lia).
    rewrite Nat2Z.inj_succ, Z.pow_succ_r by lia.
    assert (Hp : 0 < 10 ^ Z.of_nat w) by (apply Z.pow_pos_nonneg; lia).
    rewrite (Z.mul_comm 10).
    rewrite !Z.rem_mul_r by lia. rewrite Hd, Hrest. reflexivity.
Qed.

Lemma pad_inj (w : nat) (a b : Z) :
  0 <= a < 10 ^ Z.of_nat w -> 0 <= b < 10 ^ Z.of_nat w ->
  pad w a = pad w b -> a = b.
Proof.
  intros Ha Hb H. apply pad_inj_mod in H.
  now rewrite !Z.mod_small in H by assumption.
Qed.

Lemma pad_length (w : nat) (n : Z) : String.length (pad w n) = w.
Proof. induction w as [| w IH]; cbn; [reflexivity | now rewrite IH]. Qed.

Lemma avoids_pad (c : ascii) (w : nat) (n : Z) :
  (nat_of_ascii c < 48)%nat \/ (57 < nat_of_ascii c)%nat ->
  avoids c (pad w n).
Proof.
  intros Hc. induction w as [| w IH]; cbn; [exact I |].
  split; [| exact IH]. apply digit_not; [| exact Hc].
  apply Z.mod_pos_bound. lia.
Qed.

Lemma avoids_app (c : ascii) (s1 s2 : string) :
  avoids c s1 -> avoids c s2 -> avoids c (s1 ++ s2).
Proof.
  intros H1 H2. induction s1 as [| a s1 IH]; cbn; [exact H2 |].
  destruct H1 as [Ha H1]. split; [exact Ha | now apply IH].
Qed.

Lemma splitHead_app (sep : ascii) (s rest : string) :
  avoids sep s -> splitHead sep (s ++ String sep rest) = s.
Proof.
  intros H. induction s as [| a s IH]; cbn.
  - now rewrite Ascii.eqb_refl.
  - destruct H as [Ha H]. apply Ascii.eqb_neq in Ha. rewrite Ha.
    now rewrite IH.
Qed.

Lemma avoids_renderYear (y : Z) : avoids "T" (renderYear y).
Proof.
  unfold renderYear. destruct ((0 <=? y) && (y <=? 9999)).
  - apply avoids_pad. right. cbn. lia.
  - cbn [avoids]. split.
    + destruct (0 <=? y); discriminate.
    + apply avoids_pad. right. cbn. lia.
Qed.

Lemma avoids_renderDate (ymd : Z * Z * Z) : avoids "T" (renderDate ymd).
Proof.
  destruct ymd as [[y m] d]. unfold renderDate.
  assert (Hdash : forall s, avoids "T" s -> avoids "T" ("-" ++ s)).
  { intros s Hs. cbn. split; [discriminate | exact Hs]. }
  apply avoids_app; [apply avoids_renderYear |].
  apply Hdash. apply avoids_app; [apply avoids_pad; right; cbn; lia |].
  apply Hdash. apply avoids_pad. right. cbn. lia.
Qed.

(** The day part of the ISO rendering is the rendered calendar date. *)
Lemma isoDay_valid (t : Z) :
  validTime t = true ->
  isoDay t = Some (renderDate (civilFromDay (Day t))).
Proof.
  intros Hv. unfold isoDay, toISOString. rewrite Hv. cbn [option_map].
  f_equal. apply (splitHead_app "T"). apply avoids_renderDate.
Qed.

Lemma string_cons_inj (a b : ascii) (s t : string) :
  String a s = String b t -> a = b /\ s = t.
Proof. intros H. injection H as -> ->. split; reflexivity. Qed.

Lemma string_app_inj (s1 s2 r1 r2 : string) :
  String.length s1 = String.length s2 ->
  (s1 ++ r1 = s2 ++ r2)%string -> s1 = s2 /\ r1 = r2.
Proof.
  revert s2. induction s1 as [| a s1 IH]; intros [| b s2] Hlen H;
    try discriminate.
  - split; [reflexivity | exact H].
  - cbn [String.append] in H. apply string_cons_inj in H.
    destruct H as [-> H]. cbn in Hlen.
    destruct (IH s2 ltac:(lia) H) as [-> ->]. split; reflexivity.
Qed.

Lemma pad_app_inj (w : nat) (a b : Z) (r1 r2 : string) :
  0 <= a < 10 ^ Z.of_nat w -> 0 <= b < 10 ^ Z.of_nat w ->
  (pad w a ++ r1 = pad w b ++ r2)%string -> a = b /\ r1 = r2.
Proof.
  intros Ha Hb H. apply string_app_inj in H.
  - destruct H as [H ->]. split; [| reflexivity]. now apply (pad_inj w).
  - now rewrite !pad_length.
Qed.

Lemma renderYear_inj (y1 y2 : Z) (rest1 rest2 : string) :
  -999999 <= y1 <= 999999 -> -999999 <= y2 <= 999999 ->
  (renderYear y1 ++ rest1 = renderYear y2 ++ rest2)%string ->
  y1 = y2 /\ rest1 = rest2.
Proof.
  intros H1 H2 H. unfold renderYear in H.
  destruct ((0 <=? y1) && (y1 <=? 9999)) eqn:E1;
    destruct ((0 <=? y2) && (y2 <=? 9999)) eqn:E2.
  - (* four digits both *)
    apply andb_true_iff in E1, E2. destruct E1 as [A1 B1], E2 as [A2 B2].
    apply Z.leb_le in A1, B1, A2, B2.
    apply (pad_app_inj 4) in H; [exact H | cbn; lia | cbn; lia].
  - (* digit against sign *)
    exfalso. change (pad 4 y1) with
      (String (digit ((y1 / 10 ^ Z.of_nat 3) mod 10)) (pad 3 y1)) in H.
    cbn [String.append] in H. apply string_cons_inj in H.
    destruct H as [h1 _]. revert h1.
    apply digit_not; [apply Z.mod_pos_bound; lia |].
    destruct (0 <=? y2); cbn; lia.
  - exfalso. change (pad 4 y2) with
      (String (digit ((y2 / 10 ^ Z.of_nat 3) mod 10)) (pad 3 y2)) in H.
    cbn [String.append] in H. apply string_cons_inj in H.
    destruct H as [h1 _]. symmetry in h1. revert h1.
    apply digit_not; [apply Z.mod_pos_bound; lia |].
    destruct (0 <=? y1); cbn; lia.
  - (* sign and six digits both *)
    cbn [String.append] in H. apply string_cons_inj in H.
    destruct H as [hs H].
    apply (pad_app_inj 6) in H; [| cbn; lia | cbn; lia].
    destruct H as [Habs ->]. split; [| reflexivity].
    destruct (0 <=? y1) eqn:S1; destruct (0 <=? y2) eqn:S2;
      try discriminate;
      try apply Z.leb_le in S1; try apply Z.leb_le in S2;
      try apply Z.leb_gt in S1; try apply Z.leb_gt in S2; lia.
Qed.

Lemma renderDate_inj (y1 m1 d1 y2 m2 d2 : Z) :
  -999999 <= y1 <= 999999 -> 1 <= m1 <= 12 -> 1 <= d1 <= 31 ->
  -999999 <= y2 <= 999999 -> 1 <= m2 <= 12 -> 1 <= d2 <= 31 ->
  renderDate (y1, m1, d1) = renderDate (y2, m2, d2) ->
  (y1, m1, d1) = (y2, m2, d2).
Proof.
  intros Hy1 Hm1 Hd1 Hy2 Hm2 Hd2 H. unfold renderDate in H.
  apply renderYear_inj in H; try assumption.
  destruct H as [-> H].
  cbn [String.append] in H. apply string_cons_inj in H. destruct H as [_ H].
  apply (pad_app_inj 2) in H; [| cbn; lia | cbn; lia].
  destruct H as [-> H].
  apply string_cons_inj in H. destruct H as [_ H].
  assert (d1 = d2) as ->; [| reflexivity].
  apply (pad_inj 2); [cbn; lia | cbn; lia | exact H].
Qed.

Lemma some_inj (A : Type) (a b : A) : Some a = Some b -> a = b.
Proof. intros H. congruence. Qed.

(** Two valid time values have the same ISO day exactly when they fall
    on the same UTC day. *)
Lemma isoDay_eq_iff (t1 t2 : Z) :
  validTime t1 = true -> validTime t2 = true ->
  (isoDay t1 = isoDay t2 <-> Day t1 = Day t2).
Proof.
  intros H1 H2. rewrite !isoDay_valid by assumption. split.
  - intros H. apply some_inj in H.
    pose proof (civilFromDay_range (Day t1) (Day_range t1 H1)) as R1.
    pose proof (civilFromDay_range (Day t2) (Day_range t2 H2)) as R2.
    apply civilFromDay_inj.
    destruct (civilFromDay (Day t1)) as [[y1 m1] d1].
    destruct (civilFromDay (Day t2)) as [[y2 m2] d2].
    destruct R1 as (? & ? & ?), R2 as (? & ? & ?).
    apply renderDate_inj; assumption.
  - intros ->. reflexivity.
Qed.

End JSDateFacts.

(** ** The refresh decision *)

Lemma localDay_utc (t : Z) : localDay 0 t = JSDate.civilFromDay (JSDate.Day t).
Proof. unfold localDay. now rewrite Z.mul_0_l, Z.add_0_r. Qed.

(** The day test of the load effect, in terms of UTC days. *)
Lemma dayChanged_isoDay (now lastLogin : Z) (today lastLoginDay : string) :
  JSDate.isoDay now = Some today ->
  JSDate.isoDay lastLogin = Some lastLoginDay ->
  dayChanged today lastLoginDay
  = negb (JSDate.Day now =? JSDate.Day lastLogin).
Proof.
  intros Hn Hl.
  pose proof (isoDay_some_valid _ _ Hn) as Vn.
  pose proof (isoDay_some_valid _ _ Hl) as Vl.
  pose proof (JSDateFacts.isoDay_eq_iff now lastLogin Vn Vl) as Hiff.
  rewrite Hn, Hl in Hiff. unfold dayChanged. f_equal.
  destruct (String.eqb_spec today lastLoginDay) as [Heq | Hne];
    destruct (Z.eqb_spec (JSDate.Day now) (JSDate.Day lastLogin)) as [Hd | Hd];
    try reflexivity; exfalso.
  - apply Hd. apply Hiff. now rewrite Heq.
  - apply Hne. apply Hiff in Hd. congruence.
Qed.

(** C6, as the code has it.  The load effect compares the last-active
    day with the current day as calendar dates in UTC (offset 0), which
    is what [toISOString] renders: for two time values on the same UTC
    calendar day no refresh is started and the stored record is used as
    it is, and for time values on different UTC calendar days the
    refresh is started. *)
Theorem refresh_compares_utc_days (app : App.t) (s : UserState.t)
    (now stamp : Z) (outcome : OracleOutcome (list QuestData.t)) :
  App.storage app = Some (Snapshot s) ->
  JSDate.validTime now = true ->
  JSDate.validTime (UserState.lastLogin s) = true ->
  (localDay 0 now = localDay 0 (UserState.lastLogin s) ->
   step (Mount now stamp outcome) app
   = App.mk (Some s) false false (Some (Snapshot s)))
  /\ (localDay 0 now <> localDay 0 (UserState.lastLogin s) ->
      step (Mount now stamp outcome) app
      = generateNewQuests s stamp (shaped outcome)
          (App.mounted (Some (Snapshot s)))).
Proof.
  intros Hst Vn Vl. rewrite !localDay_utc. cbn [step]. rewrite Hst.
  pose proof (JSDateFacts.isoDay_valid now Vn) as Hn.
  pose proof (JSDateFacts.isoDay_valid _ Vl) as Hl.
  rewrite (loadEffect_snapshot now stamp (shaped outcome)
             (App.mounted (Some (Snapshot s))) s _ _ eq_refl Hn Hl).
  rewrite (dayChanged_isoDay _ _ _ _ Hn Hl).
  split.
  - intros H. apply JSDateFacts.civilFromDay_inj in H. rewrite H, Z.eqb_refl.
    reflexivity.
  - intros H.
    destruct (Z.eqb_spec (JSDate.Day now) (JSDate.Day (UserState.lastLogin s)))
      as [Heq | Hne]; [| reflexivity].
    exfalso. apply H. now rewrite Heq.
Qed.

Lemma refresh_compares_utc_days_witness :
  App.storage sampleApp = Some (Snapshot sampleState)
  /\ JSDate.validTime sampleNow = true
  /\ JSDate.validTime (UserState.lastLogin sampleState) = true
  /\ (localDay 0 sampleNow = localDay 0 (UserState.lastLogin sampleState) ->
      step (Mount sampleNow sampleStamp NetworkError) sampleApp
      = App.mk (Some sampleState) false false (Some (Snapshot sampleState)))
  /\ (localDay 0 sampleNow <> localDay 0 (UserState.lastLogin sampleState) ->
      step (Mount sampleNow sampleStamp NetworkError) sampleApp
      = generateNewQuests sampleState sampleStamp (shaped NetworkError)
          (App.mounted (Some (Snapshot sampleState)))).
Proof.
  assert (H1 : App.storage sampleApp = Some (Snapshot sampleState))
    by reflexivity.
  assert (H2 : JSDate.validTime sampleNow = true) by reflexivity.
  assert (H3 : JSDate.validTime (UserState.lastLogin sampleState) = true)
    by reflexivity.
  repeat (split; [assumption |]).
  exact (refresh_compares_utc_days sampleApp sampleState sampleNow sampleStamp
           NetworkError H1 H2 H3).
Defined.

(** C6 as stated fails.  In a timezone two hours ahead of UTC:
    22:30Z and 00:30Z of the next UTC day are 00:30 and 02:30 of the
    same local day, yet the refresh replaces the record's quests; and
    21:30Z and 22:30Z of one UTC day are 23:30 and 00:30 of different
    local days, yet the record is used as it is. *)
Lemma refresh_not_by_local_day :
  (localDay 120 1704155400000 = localDay 120 (UserState.lastLogin sampleLate)
   /\ App.userState
        (step (Mount 1704155400000 1704155400000 (Parsed sampleBatch))
              (App.mounted (Some (Snapshot sampleLate))))
      = Some (refreshed sampleLate (map withZeroProgress sampleBatch)
                1704155400000))
  /\ (localDay 120 1704148200000 <> localDay 120 (UserState.lastLogin sampleEarlier)
      /\ App.userState
           (step (Mount 1704148200000 1704148200000 (Parsed sampleBatch))
                 (App.mounted (Some (Snapshot sampleEarlier))))
         = Some sampleEarlier).
Proof.
  split; split.
  - vm_compute. reflexivity.
  - vm_compute. reflexivity.
  - vm_compute. discriminate.
  - vm_compute. reflexivity.
Qed.

(** ** Distance estimator *)

Module GeoFacts.

Import Geo.
Local Open Scope R_scope.

Lemma toRad_0 : toRad 0 = 0.
Proof. unfold toRad. Lra.lra. Qed.

Lemma toRad_opp (x y : R) : toRad (x - y) / 2 = - (toRad (y - x) / 2).
Proof. unfold toRad. Lra.lra. Qed.

Lemma atan2_0_1 : atan2 0 1 = 0.
Proof.
  unfold atan2. destruct (Rlt_dec 0 1) as [_ | H]; [| exfalso; Lra.lra].
  replace (0 / 1) with 0 by Lra.lra. apply atan_0.
Qed.

Lemma haversineA_same (p : GeolocationCoordinates) : haversineA p p = 0.
Proof.
  unfold haversineA. rewrite !Rminus_diag, toRad_0.
  replace (0 / 2) with 0 by Lra.lra. rewrite sin_0. ring.
Qed.

Lemma haversineA_sym (p1 p2 : GeolocationCoordinates) :
  haversineA p1 p2 = haversineA p2 p1.
Proof.
  unfold haversineA.
  rewrite (toRad_opp (latitude p2)), (toRad_opp (longitude p2)).
  rewrite !sin_neg. ring.
Qed.

Lemma sin_half_sqr (x : R) : sin (x / 2) * sin (x / 2) = (1 - cos x) / 2.
Proof.
  pose proof (cos_2a_sin (x / 2)) as H.
  replace (2 * (x / 2)) with x in H by Lra.lra. Lra.lra.
Qed.

Lemma toRad_minus (x y : R) : toRad (x - y) = toRad x - toRad y.
Proof. unfold toRad. Lra.lra. Qed.

(** A dot product of two unit vectors, one of them turned: within
    [[-1, 1]]. *)
Lemma law_of_cosines_bound (s1 c1 s2 c2 c : R) :
  s1 * s1 + c1 * c1 = 1 -> s2 * s2 + c2 * c2 = 1 -> -1 <= c <= 1 ->
  -1 <= s1 * s2 + c1 * c2 * c <= 1.
Proof.
  intros H1 H2 Hc.
  pose proof (Rle_0_sqr (c1 - c2)) as P1.
  pose proof (Rle_0_sqr (c1 + c2)) as P2.
  pose proof (Rle_0_sqr (s1 - s2)) as P3.
  pose proof (Rle_0_sqr (s1 + s2)) as P4.
  unfold Rsqr in *.
  assert (A : - (c1 * c1 + c2 * c2) / 2 <= c1 * c2 * c
              <= (c1 * c1 + c2 * c2) / 2).
  { destruct (Rle_dec 0 (c1 * c2)) as [Hp | Hn].
    - assert (0 <= c1 * c2 * (1 - c)) by (apply Rmult_le_pos; Lra.lra).
      assert (0 <= c1 * c2 * (1 + c)) by (apply Rmult_le_pos; Lra.lra).
      split; Lra.lra.
    - assert (0 <= (- (c1 * c2)) * (1 - c)) by (apply Rmult_le_pos; Lra.lra).
      assert (0 <= (- (c1 * c2)) * (1 + c)) by (apply Rmult_le_pos; Lra.lra).
      split; Lra.lra. }
  split; Lra.lra.
Qed.

(** [a] is the haversine [(1 - cos theta) / 2] of the central angle
    [theta] given by the spherical law of cosines. *)
Lemma haversineA_law_of_cosines (p1 p2 : GeolocationCoordinates) :
  haversineA p1 p2 =
  (1 - (sin (toRad (latitude p1)) * sin (toRad (latitude p2))
        + cos (toRad (latitude p1)) * cos (toRad (latitude p2))
          * cos (toRad (longitude p2 - longitude p1)))) / 2.
Proof.
  unfold haversineA. rewrite !sin_half_sqr.
  rewrite (toRad_minus (latitude p2)), cos_minus. Lra.lra.
Qed.

(** So the square roots of the source never see a negative number. *)
Lemma haversineA_bounds (p1 p2 : GeolocationCoordinates) :
  0 <= haversineA p1 p2 <= 1.
Proof.
  rewrite haversineA_law_of_cosines.
  pose proof (law_of_cosines_bound
                (sin (toRad (latitude p1))) (cos (toRad (latitude p1)))
                (sin (toRad (latitude p2))) (cos (toRad (latitude p2)))
                (cos (toRad (longitude p2 - longitude p1)))) as H.
  pose proof (sin2_cos2 (toRad (latitude p1))) as H1.
  pose proof (sin2_cos2 (toRad (latitude p2))) as H2.
  unfold Rsqr in H1, H2.
  specialize (H H1 H2 (COS_bound _)). Lra.lra.
Qed.

Lemma atan2_asin (a : R) :
  0 <= a <= 1 -> atan2 (sqrt a) (sqrt (1 - a)) = asin (sqrt a).
Proof.
  intros [H0 H1]. destruct (Req_dec a 1) as [-> | Hne].
  - rewrite Rminus_diag, sqrt_0, sqrt_1. unfold atan2, asin.
    destruct (Rlt_dec 0 0) as [H | _]; [exfalso; Lra.lra |].
    destruct (Rlt_dec 0 1) as [_ | H]; [| exfalso; Lra.lra].
    destruct (Rle_dec 1 (-1)) as [H | _]; [exfalso; Lra.lra |].
    destruct (Rle_dec 1 1) as [_ | H]; [reflexivity | exfalso; Lra.lra].
  - assert (Hpos : 0 < sqrt (1 - a)) by (apply sqrt_lt_R0; Lra.lra).
    unfold atan2. destruct (Rlt_dec 0 (sqrt (1 - a))) as [_ | H];
      [| contradiction].
    assert (Hlt : sqrt a < 1).
    { rewrite <- sqrt_1. apply sqrt_lt_1_alt. Lra.lra. }
    pose proof (sqrt_pos a) as Hge.
    rewrite asin_atan by Lra.lra.
    rewrite Rsqr_sqrt by exact H0. reflexivity.
Qed.

End GeoFacts.

(* ================================================================== *)
(** * Further properties *)
(* ================================================================== *)

(** ** The progression engine over a day *)

Lemma updatedQuest_fields (questId : string) (value : Q) (q : Quest.t) :
  Quest.id (updatedQuest questId value q) = Quest.id q
  /\ Quest.title (updatedQuest questId value q) = Quest.title q
  /\ Quest.description (updatedQuest questId value q) = Quest.description q
  /\ Quest.xp (updatedQuest questId value q) = Quest.xp q
  /\ Quest.type (updatedQuest questId value q) = Quest.type q
  /\ Quest.goal (updatedQuest questId value q) = Quest.goal q.
Proof.
  unfold updatedQuest, questCallback.
  destruct (String.eqb (Quest.id q) questId
            && Qlt_bool (Quest.progress q) (Quest.goal q));
    cbn; repeat split.
Qed.



(** *** Position-wise relations between quest lists *)

Section Pointwise.

Context {A : Type}.




Lemma Forall2_nth (R : A -> A -> Prop) (l l' : list A) (i : nat) (a : A) :
  Forall2 R l l' -> nth_error l i = Some a ->
  exists b, nth_error l' i = Some b /\ R a b.
Proof.
  intros H. revert i. induction H as [| x y l l' Hxy _ IH]; intros i Hi.
  - destruct i; discriminate.
  - destruct i as [| i]; cbn in *.
    + injection Hi as <-. eauto.
    + now apply IH.
Qed.

End Pointwise.





(** *** Experience accounting *)

Lemma sumAwards_nonneg (questId : string) (value : Q) (quests : list Quest.t) :
  rewardsNonneg quests -> 0 <= sumAwards questId value quests.
Proof.
  induction 1 as [| q rest Hq _ IH]; cbn [sumAwards]; [lia |].
  destruct (awards questId value q); lia.
Qed.

(** *** Well-formed records *)

Lemma updater_wellFormed (questId : string) (value : Q) (prev : UserState.t) :
  wellFormed prev -> rewardsNonneg (UserState.quests prev) ->
  exists next,
    updateQuestProgress_updater questId value (Some prev) = Some next
    /\ wellFormed next
    /\ rewardsNonneg (UserState.quests next)
    /\ UserState.level prev <= UserState.level next.
Proof.
  intros [HL Hxp] Hrw.
  pose proof (sumAwards_nonneg questId value _ Hrw) as Hg.
  rewrite <- xpGainedBy_sumAwards in Hg.
  rewrite updater_unfold. cbv zeta. destruct (_ && _).
  - exists prev. repeat split; try assumption; lia.
  - eexists. split; [reflexivity |].
    unfold wellFormed. cbn [UserState.level UserState.xp UserState.quests].
    pose proof (levelUp_spec (UserState.level prev)
                  (UserState.xp prev + xpGainedBy questId value prev)) as Hs.
    pose proof (levelUp_nonneg (UserState.level prev)
                  (UserState.xp prev + xpGainedBy questId value prev)) as Hn.
    destruct (levelUp _ _) as [L' E']. cbn [fst snd] in *.
    destruct Hs as (Hle & Hlt & _). unfold xpForNextLevel in Hlt.
    pose proof (Hn ltac:(lia) ltac:(lia)).
    repeat split; try lia.
    unfold rewardsNonneg in *. rewrite Forall_forall in *.
    intros q' Hin. apply in_map_iff in Hin. destruct Hin as (q & <- & Hin).
    destruct (updatedQuest_fields questId value q) as (_ & _ & _ & -> & _).
    now apply Hrw.
Qed.

(** ** Sessions *)

Lemma withZeroProgress_rewards (data : list QuestData.t) :
  Forall (fun q => 0 <= QuestData.xp q) data ->
  rewardsNonneg (map withZeroProgress data).
Proof.
  unfold rewardsNonneg. induction 1; cbn; constructor; assumption.
Qed.

Lemma loadEffect_recordsWellFormed (now stamp : Z)
    (outcome : OracleOutcome (Reply (list QuestData.t))) (app : App.t) :
  (forall data, outcome = Parsed (Shaped data) ->
                Forall (fun q => 0 <= QuestData.xp q) data) ->
  recordsWellFormed app ->
  recordsWellFormed
    (loadEffect now stamp outcome (App.mounted (App.storage app))).
Proof.
  intros Hsane Hinv. unfold loadEffect. cbn [App.mounted App.storage].
  destruct (App.storage app) as [[| | parsedState] |] eqn:Hst.
  - intros s [H | H]; discriminate.
  - intros s [H | H]; discriminate.
  - destruct (Hinv parsedState (or_intror Hst)) as [Hwf Hrw].
    assert (Hkeep : recordsWellFormed
                      (App.mounted (Some (Snapshot parsedState)))).
    { intros s [H | H]; cbn in H; [discriminate |].
      injection H as <-. now split. }
    destruct (JSDate.isoDay now) as [today |];
      [destruct (JSDate.isoDay (UserState.lastLogin parsedState))
         as [lastLoginDay |] |].
    + destruct (dayChanged today lastLoginDay).
      * unfold generateNewQuests.
        destruct outcome as [| | [data |]]; cbn [getAiResponse];
          [| | | exact Hkeep];
          (destruct (JSDate.toISOString stamp) as [iso |]; [| exact Hkeep]);
          intros s [H | H]; cbn in H; injection H as <-;
          (split; [exact Hwf |]); cbn [refreshed UserState.quests freshQuests];
          try constructor.
        all: apply withZeroProgress_rewards; now apply Hsane.
      * intros s [H | H]; cbn in H; injection H as <-; now split.
    + intros s [H | H]; discriminate.
    + intros s [H | H]; discriminate.
  - intros s [H | H]; discriminate.
Qed.

Lemma step_recordsWellFormed (e : Event) (app : App.t) :
  saneEvent e -> recordsWellFormed app -> recordsWellFormed (step e app).
Proof.
  intros Hsane Hinv.
  destruct e as [now stamp outcome | newAnswers now outcome
                 | questId value | | | now stamp]; cbn [step].
  - (* Mount *)
    apply loadEffect_recordsWellFormed; [| exact Hinv].
    intros data E. destruct outcome as [| | data']; try discriminate.
    cbn [shaped] in E. injection E as ->. exact Hsane.
  - (* SubmitQuestionnaire *)
    unfold submitQuestionnaire.
    destruct outcome as [| | aiData]; cbn [getAiResponse]; try exact Hinv.
    destruct (JSDate.toISOString now) as [iso |]; [| exact Hinv].
    intros s [H | H]; cbn in H; injection H as <-.
    all: split; [unfold wellFormed, XP_PER_LEVEL; cbn; lia |].
    all: cbn [initialState UserState.quests];
      now apply withZeroProgress_rewards.
  - (* UpdateQuest *)
    unfold updateQuestProgress, updateAndSaveState.
    destruct (App.userState app) as [prev |] eqn:Hprev.
    + destruct (Hinv prev (or_introl Hprev)) as [Hwf Hrw].
      destruct (updater_wellFormed questId value prev Hwf Hrw)
        as (next & -> & Hwf' & Hrw' & _).
      intros s [H | H]; cbn in H; injection H as <-; now split.
    + cbn. intros s [H | H]; cbn in H; [discriminate |].
      apply Hinv. now right.
  - (* BeforeUnload *)
    unfold handleBeforeUnload.
    destruct (App.userState app) as [cur |] eqn:Hcur; [| exact Hinv].
    intros s [H | H]; cbn in H.
    + apply Hinv. left. congruence.
    + injection H as <-. apply Hinv. now left.
  - (* ResetProgress *)
    intros s [H | H]; cbn in H; [| discriminate].
    apply Hinv. now left.
  - (* MountMisshapen *)
    apply loadEffect_recordsWellFormed; [| exact Hinv].
    intros data E. discriminate.
Qed.

(** X8.  The data model's bound on experience holds throughout.  In a
    session that starts from a new installation and in which the
    oracle's quests carry no negative reward, every record held in
    memory or persisted has [level >= 1] and [0 <= xp < 100 * level]. *)
Theorem session_records_are_well_formed (events : list Event) (s : UserState.t) :
  Forall saneEvent events ->
  App.userState (run events App.initial) = Some s
  \/ App.storage (run events App.initial) = Some (Snapshot s) ->
  1 <= UserState.level s
  /\ 0 <= UserState.xp s < XP_PER_LEVEL * UserState.level s.
Proof.
  intros Hsane Hs.
  assert (Hinv : recordsWellFormed (run events App.initial)).
  { assert (H0 : recordsWellFormed App.initial)
      by (intros s0 [H | H]; discriminate).
    revert H0. generalize App.initial as app. clear Hs.
    induction Hsane as [| e rest He _ IH]; intros app H0; cbn; [exact H0 |].
    apply IH. now apply step_recordsWellFormed. }
  exact (proj1 (Hinv s Hs)).
Qed.

(** *** Persistence *)

(** X11.  The reset button does not outlive the reload it asks for.  With a
    record in memory, removing the snapshot and then reloading, where
    the unload handler runs before the page goes, ends exactly as a
    plain reload does: the handler writes the record back. *)
Theorem reset_is_undone_by_the_unload_handler (app : App.t) (s : UserState.t)
    (now stamp : Z) (outcome : OracleOutcome (list QuestData.t)) :
  App.userState app = Some s ->
  App.storage (run [ResetProgress; BeforeUnload] app) = Some (Snapshot s)
  /\ run [ResetProgress; BeforeUnload; Mount now stamp outcome] app
     = run [BeforeUnload; Mount now stamp outcome] app.
Proof.
  intros Hs. cbn [run fold_left step].
  unfold handleBeforeUnload. cbn [App.removeItem App.userState].
  rewrite Hs. split; reflexivity.
Qed.

(** X13.  One refresh per day.  After a daily refresh, opening the app
    again on the UTC day of the refresh's stamp does not ask for quests
    again: the session continues with the refreshed record, whatever the
    first oracle call gave (an empty quest set after a failure
    included). *)
Theorem no_second_refresh_on_the_same_day (app : App.t) (s : UserState.t)
    (now stamp now2 stamp2 : Z)
    (outcome outcome2 : OracleOutcome (list QuestData.t)) :
  App.storage app = Some (Snapshot s) ->
  JSDate.validTime now = true ->
  JSDate.validTime (UserState.lastLogin s) = true ->
  JSDate.validTime stamp = true ->
  JSDate.validTime now2 = true ->
  JSDate.Day now <> JSDate.Day (UserState.lastLogin s) ->
  JSDate.Day now2 = JSDate.Day stamp ->
  let r := refreshed s (freshQuests (getAiResponse outcome)) stamp in
  step (Mount now stamp outcome) app
  = App.mk (Some r) false true (Some (Snapshot r))
  /\ run [Mount now stamp outcome; Mount now2 stamp2 outcome2] app
     = App.mk (Some r) false false (Some (Snapshot r)).
Proof.
  intros Hst Vn Vl Vs Vn2 Hdiff Hsame r.
  assert (H1 : step (Mount now stamp outcome) app
               = App.mk (Some r) false true (Some (Snapshot r))).
  { cbn [step]. rewrite Hst.
    pose proof (JSDateFacts.isoDay_valid now Vn) as Hn.
    pose proof (JSDateFacts.isoDay_valid _ Vl) as Hl.
    rewrite (loadEffect_snapshot now stamp (shaped outcome)
               (App.mounted (Some (Snapshot s))) s _ _ eq_refl Hn Hl).
    rewrite (dayChanged_isoDay _ _ _ _ Hn Hl).
    destruct (Z.eqb_spec (JSDate.Day now) (JSDate.Day (UserState.lastLogin s)))
      as [Heq | _]; [contradiction |].
    cbn [negb]. now rewrite generateNewQuests_valid. }
  split; [exact H1 |].
  cbn [run fold_left]. rewrite H1. cbn [step App.storage].
  pose proof (JSDateFacts.isoDay_valid now2 Vn2) as Hn2.
  assert (Hl2 : JSDate.isoDay (UserState.lastLogin r)
                = Some (JSDate.renderDate
                          (JSDate.civilFromDay (JSDate.Day stamp))))
    by (apply (JSDateFacts.isoDay_valid stamp Vs)).
  rewrite (loadEffect_snapshot now2 stamp2 (shaped outcome2)
             (App.mounted (Some (Snapshot r))) r _ _ eq_refl Hn2 Hl2).
  rewrite (dayChanged_isoDay now2 stamp _ _ Hn2
             (JSDateFacts.isoDay_valid stamp Vs)).
  rewrite Hsame, Z.eqb_refl. reflexivity.
Qed.

(** ** The onboarding questionnaire *)

Section QuestionnaireFacts.

Variable trim : string -> string.
Hypothesis trim_empty : trim EmptyString = EmptyString.

Lemma notBlank_nonempty (text : string) :
  notBlank trim text -> text <> EmptyString.
Proof.
  unfold notBlank. intros H ->. rewrite trim_empty in H. discriminate.
Qed.

Lemma questions_count : List.length INITIAL_QUESTIONS = 13%nat.
Proof. reflexivity. Qed.

(** One answer before the last question. *)
Lemma answerQuestion_early (now : Z) (outcome : OracleOutcome Assessment.t)
    (st : Questionnaire.t) (app : App.t) (text : string) :
  notBlank trim text ->
  (Questionnaire.currentIndex st < 12)%nat ->
  answerQuestion trim now outcome (st, app) text
  = (Questionnaire.mk (Questionnaire.currentIndex st + 1)
       (Questionnaire.answers st ++ [text]) EmptyString
       (Questionnaire.isLoading st), app).
Proof.
  intros Hnb Hidx. unfold answerQuestion, clickNext, nextDisabled.
  cbn [fst snd Questionnaire.setCurrentAnswer Questionnaire.currentAnswer].
  unfold notBlank in Hnb. rewrite Hnb.
  unfold Questionnaire.handleNext.
  cbn [Questionnaire.currentIndex Questionnaire.answers
       Questionnaire.currentAnswer Questionnaire.isLoading
       Questionnaire.setCurrentAnswer].
  rewrite questions_count.
  assert (H : (Questionnaire.currentIndex st <? 13 - 1)%nat = true)
    by (apply Nat.ltb_lt; lia).
  rewrite H. reflexivity.
Qed.

(** The answer to the last question. *)
Lemma answerQuestion_last (now : Z) (outcome : OracleOutcome Assessment.t)
    (st : Questionnaire.t) (app : App.t) (text : string) :
  notBlank trim text ->
  (12 <= Questionnaire.currentIndex st)%nat ->
  answerQuestion trim now outcome (st, app) text
  = (Questionnaire.mk (Questionnaire.currentIndex st)
       (Questionnaire.answers st ++ [text]) EmptyString
       (match getAiResponse outcome with Some _ => true | None => false end),
     submitQuestionnaire (Questionnaire.answers st ++ [text]) now outcome app).
Proof.
  intros Hnb Hidx. unfold answerQuestion, clickNext, nextDisabled.
  cbn [fst snd Questionnaire.setCurrentAnswer Questionnaire.currentAnswer].
  unfold notBlank in Hnb. rewrite Hnb.
  unfold Questionnaire.handleNext.
  cbn [Questionnaire.currentIndex Questionnaire.answers
       Questionnaire.currentAnswer Questionnaire.isLoading
       Questionnaire.setCurrentAnswer].
  rewrite questions_count.
  assert (H : (Questionnaire.currentIndex st <? 13 - 1)%nat = false)
    by (apply Nat.ltb_ge; lia).
  rewrite H. reflexivity.
Qed.

Lemma answerQuestions_early (now : Z) (outcome : OracleOutcome Assessment.t)
    (texts : list string) :
  forall (st : Questionnaire.t) (app : App.t),
    Forall (notBlank trim) texts ->
    Questionnaire.currentAnswer st = EmptyString ->
    (Questionnaire.currentIndex st + List.length texts <= 12)%nat ->
    answerQuestions trim now outcome texts (st, app)
    = (Questionnaire.mk (Questionnaire.currentIndex st + List.length texts)
         (Questionnaire.answers st ++ texts) EmptyString
         (Questionnaire.isLoading st), app).
Proof.
  induction texts as [| text rest IH]; intros st app Hnb Hempty Hlen.
  - cbn. rewrite Nat.add_0_r, app_nil_r. destruct st; cbn in *. now subst.
  - inversion Hnb as [| ? ? Hhere Hrest]; subst. cbn in Hlen.
    change (answerQuestions trim now outcome (text :: rest) (st, app))
      with (answerQuestions trim now outcome rest
              (answerQuestion trim now outcome (st, app) text)).
    rewrite answerQuestion_early by (assumption || lia).
    rewrite IH; [| exact Hrest | reflexivity | cbn; lia].
    cbn [Questionnaire.currentIndex Questionnaire.answers
         Questionnaire.isLoading List.length].
    rewrite <- app_assoc. cbn [List.app]. f_equal. f_equal. lia.
Qed.

(** X14.  The questionnaire collects the answers in order.  Answering the
    first [n <= 12] questions (each answer enables the button) leaves the
    form at question [n] with exactly these answers and an empty input;
    the oracle is not asked and the session is not touched. *)
Theorem questionnaire_collects_answers (now : Z)
    (outcome : OracleOutcome Assessment.t) (texts : list string) (app : App.t) :
  Forall (notBlank trim) texts ->
  (List.length texts <= 12)%nat ->
  answerQuestions trim now outcome texts (Questionnaire.initial, app)
  = (Questionnaire.mk (List.length texts) texts EmptyString false, app).
Proof.
  intros Hnb Hlen.
  rewrite answerQuestions_early; [reflexivity | exact Hnb | reflexivity |].
  cbn. exact Hlen.
Qed.

Lemma answerQuestions_snoc (now : Z) (outcome : OracleOutcome Assessment.t)
    (texts : list string) (text : string) (p : Questionnaire.t * App.t) :
  answerQuestions trim now outcome (texts ++ [text]) p
  = answerQuestion trim now outcome
      (answerQuestions trim now outcome texts p) text.
Proof. unfold answerQuestions. rewrite fold_left_app. reflexivity. Qed.

(** All thirteen answers, split into the first twelve and the last. *)
Lemma thirteen_answers (texts : list string) :
  List.length texts = 13%nat ->
  exists first middle last,
    texts = first :: (middle ++ [last])%list
    /\ List.length (first :: middle) = 12%nat.
Proof.
  intros Hlen.
  destruct texts as [| first rest]; [discriminate |].
  destruct (exists_last (l := rest)) as (middle & last & ->).
  { intros ->. discriminate. }
  exists first, middle, last. split; [reflexivity |].
  cbn in *. rewrite length_app in Hlen. cbn in Hlen. lia.
Qed.

Lemma answerQuestions_all (now : Z) (outcome : OracleOutcome Assessment.t)
    (texts : list string) (app : App.t) :
  Forall (notBlank trim) texts ->
  List.length texts = 13%nat ->
  answerQuestions trim now outcome texts (Questionnaire.initial, app)
  = (Questionnaire.mk 12 texts EmptyString
       (match getAiResponse outcome with Some _ => true | None => false end),
     submitQuestionnaire texts now outcome app).
Proof.
  intros Hnb Hlen.
  destruct (thirteen_answers texts Hlen) as (first & middle & last & -> & H12).
  change (first :: (middle ++ [last])%list)
    with (((first :: middle) ++ [last])%list) in *.
  apply Forall_app in Hnb. destruct Hnb as [Hfirst Hlast].
  inversion Hlast as [| ? ? Hl _]; subst.
  rewrite answerQuestions_snoc.
  rewrite answerQuestions_early;
    [| exact Hfirst | reflexivity | cbn in *; lia].
  rewrite H12.
  rewrite answerQuestion_last by (assumption || (cbn; lia)).
  reflexivity.
Qed.

(** X15.  The thirteenth answer creates the record.  When all thirteen
    questions are answered and the oracle returns an assessment, the
    session holds and persists a record at level 1 with experience 0,
    the oracle's difficulty, the oracle's quests each at progress 0, no
    skills, both daily counters 0, the clock as last login, and the first
    answer as the name: the default name is never used. *)
Theorem questionnaire_creates_the_record (now : Z) (aiData : Assessment.t)
    (texts : list string) (app : App.t) :
  Forall (notBlank trim) texts ->
  List.length texts = 13%nat ->
  JSDate.validTime now = true ->
  exists first rest,
    texts = first :: rest
    /\ first <> EmptyString
    /\ let r := UserState.mk 1 0 (Assessment.difficulty aiData)
                  (map withZeroProgress (Assessment.quests aiData))
                  [] first now 0 0 in
       snd (answerQuestions trim now (Parsed aiData) texts
              (Questionnaire.initial, app))
       = App.mk (Some r) (App.isLoading app) true (Some (Snapshot r)).
Proof.
  intros Hnb Hlen Hnow.
  destruct texts as [| first rest] eqn:Htexts; [discriminate |].
  exists first, rest. split; [reflexivity |].
  assert (Hfirst : first <> EmptyString).
  { apply notBlank_nonempty. now inversion Hnb. }
  split; [exact Hfirst |]. cbv zeta.
  rewrite answerQuestions_all by assumption. cbn [snd].
  unfold submitQuestionnaire. cbn [getAiResponse].
  destruct (toISOString_valid now Hnow) as [iso ->].
  unfold handleCompleteQuestionnaire, updateAndSaveState, initialState.
  cbn [playerName].
  destruct (String.eqb_spec first EmptyString) as [E | _]; [contradiction |].
  reflexivity.
Qed.

(** X16.  A failed assessment can be retried, with one answer more.  When
    the oracle fails at the thirteenth answer, the session is untouched
    and the form stays at the last question with the loading flag off
    and an empty input; the next answer is appended to the thirteen, so
    the retry builds the record from fourteen answers. *)
Theorem questionnaire_retry_after_failure (now now' : Z)
    (outcome : OracleOutcome Assessment.t) (aiData : Assessment.t)
    (texts : list string) (again : string) (app : App.t) :
  Forall (notBlank trim) texts ->
  List.length texts = 13%nat ->
  notBlank trim again ->
  getAiResponse outcome = None ->
  let failed := answerQuestions trim now outcome texts
                  (Questionnaire.initial, app) in
  failed = (Questionnaire.mk 12 texts EmptyString false, app)
  /\ answerQuestion trim now' (Parsed aiData) failed again
     = (Questionnaire.mk 12 (texts ++ [again]) EmptyString true,
        submitQuestionnaire (texts ++ [again]) now' (Parsed aiData) app).
Proof.
  intros Hnb Hlen Hagain Hfail failed. subst failed.
  rewrite answerQuestions_all by assumption. rewrite Hfail.
  unfold submitQuestionnaire at 1 2. rewrite Hfail.
  split; [reflexivity |].
  rewrite answerQuestion_last by (assumption || (cbn; lia)).
  reflexivity.
Qed.

End QuestionnaireFacts.

(** ** The manual log *)

Lemma readDigits_acc (s : string) :
  forall acc, 0 <= acc -> 0 <= readDigits acc s.
Proof.
  induction s as [| c rest IH]; intros acc Hacc; cbn [readDigits].
  - exact Hacc.
  - unfold digitValue.
    destruct ((48 <=? Z.of_nat (nat_of_ascii c))
              && (Z.of_nat (nat_of_ascii c) <=? 57)) eqn:E.
    + apply IH. apply andb_true_iff in E. destruct E as [E1 E2].
      apply Z.leb_le in E1. lia.
    + exact Hacc.
Qed.

(** Reading stops at the first character that is no digit. *)
Lemma readDigits_app (ds rest : string) :
  allDigits ds = true ->
  startsWithDigit rest = false ->
  forall acc, readDigits acc (ds ++ rest) = readDigits acc ds.
Proof.
  intros Hds Hrest. induction ds as [| c ds IH]; intros acc.
  - cbn [append readDigits]. destruct rest as [| r rest']; [reflexivity |].
    cbn [startsWithDigit] in Hrest. cbn [readDigits].
    destruct (digitValue r); [discriminate | reflexivity].
  - cbn [append readDigits allDigits] in *.
    destruct (digitValue c); [| discriminate]. apply IH. exact Hds.
Qed.

Lemma digit_not_whiteSpace (c : ascii) (d : Z) :
  digitValue c = Some d -> isWhiteSpace c = false.
Proof.
  unfold digitValue, isWhiteSpace. intros H.
  destruct ((48 <=? Z.of_nat (nat_of_ascii c))
            && (Z.of_nat (nat_of_ascii c) <=? 57)) eqn:E; [| discriminate].
  apply andb_true_iff in E. destruct E as [E1 E2].
  apply Z.leb_le in E1. apply Z.leb_le in E2.
  repeat rewrite orb_false_iff. repeat split; apply Nat.eqb_neq; lia.
Qed.

Lemma digit_not_sign (c : ascii) (d : Z) :
  digitValue c = Some d -> c <> "-"%char /\ c <> "+"%char.
Proof.
  intros H. split; intros ->; vm_compute in H; discriminate.
Qed.

Lemma parseInt_digits (ds rest : string) :
  allDigits ds = true ->
  ds <> EmptyString ->
  startsWithDigit rest = false ->
  parseInt (ds ++ rest) = Some (readDigits 0 ds).
Proof.
  intros Hds Hne Hrest.
  destruct ds as [| c ds']; [contradiction |].
  pose proof Hds as Hds0. cbn [allDigits] in Hds0.
  destruct (digitValue c) as [d |] eqn:Hc; [| discriminate].
  unfold parseInt.
  assert (Htrim : trimStart (String c ds' ++ rest) = String c (ds' ++ rest)).
  { cbn [append trimStart]. now rewrite (digit_not_whiteSpace c d Hc). }
  rewrite Htrim.
  destruct (digit_not_sign c d Hc) as [Hminus Hplus].
  assert (Hbody :
    match String c (ds' ++ rest) with
    | String "-"%char r => (-1, r)
    | String "+"%char r => (1, r)
    | _ => (1, String c (ds' ++ rest))
    end = (1, String c (ds' ++ rest))).
  { destruct c as [[] [] [] [] [] [] [] []];
      try reflexivity; exfalso;
      solve [apply Hminus; reflexivity | apply Hplus; reflexivity]. }
  rewrite Hbody. cbn [startsWithDigit]. rewrite Hc.
  change (String c (ds' ++ rest)) with (String c ds' ++ rest)%string.
  rewrite readDigits_app by assumption.
  f_equal. lia.
Qed.

(** X17.  The log reads the leading digits only.  When the input field
    holds a non-empty run of digits followed by anything that does not
    start with a digit (a fraction, an exponent), the click applies the
    value of the digits alone and clears the field, and does nothing when
    that value is 0. *)
Theorem log_entry_reads_the_leading_digits (quest : Quest.t)
    (ds rest : string) (app : App.t) :
  allDigits ds = true ->
  ds <> EmptyString ->
  startsWithDigit rest = false ->
  QuestItem.handleLogSubmit quest (ds ++ rest) app
  = if 0 <? readDigits 0 ds
    then (EmptyString,
          updateQuestProgress (Quest.id quest)
            (inject_Z (readDigits 0 ds)) app)
    else ((ds ++ rest)%string, app).
Proof.
  intros Hds Hne Hrest. unfold QuestItem.handleLogSubmit.
  rewrite parseInt_digits by assumption. reflexivity.
Qed.

(** X18.  A log entry with a minus sign is rejected.  Whatever follows the
    sign, the click changes neither the input field nor the session. *)
Theorem negative_log_entry_is_rejected (quest : Quest.t) (rest : string)
    (app : App.t) :
  QuestItem.handleLogSubmit quest (String "-"%char rest) app
  = (String "-"%char rest, app).
Proof.
  unfold QuestItem.handleLogSubmit, parseInt.
  change (trimStart (String "-"%char rest)) with (String "-"%char rest).
  cbv iota beta.
  destruct (startsWithDigit rest); [| reflexivity].
  pose proof (readDigits_acc rest 0 ltac:(lia)) as Hnonneg.
  assert (H : (0 <? -1 * readDigits 0 rest) = false)
    by (apply Z.ltb_ge; lia).
  rewrite H. reflexivity.
Qed.








(** ** The level-up notification *)

(** With the level already seen, the effect has nothing to do. *)
Lemma levelEffect_idle (s : UserState.t) (n : Notifier.t) :
  Notifier.prevLevel n = Some (UserState.level s) ->
  levelEffect (Some s) n = n.
Proof.
  intros H. unfold levelEffect, levelRose. rewrite H.
  assert (E : (UserState.level s >? UserState.level s) = false)
    by (rewrite Z.gtb_ltb; apply Z.ltb_irrefl).
  rewrite E, andb_false_r. destruct n as [p m]. cbn in *. now subst.
Qed.

Lemma levelEffect_prevLevel (s : UserState.t) (n : Notifier.t) :
  Notifier.prevLevel (levelEffect (Some s) n) = Some (UserState.level s).
Proof. reflexivity. Qed.

Lemma sessionStep_inSync (e : SessionEvent) (st : App.t * Notifier.t) :
  inSync st -> inSync (sessionStep e st).
Proof.
  intros Hsync. destruct e as [e |].
  - intros s Hs. cbn [sessionStep fst snd] in *. rewrite Hs.
    apply levelEffect_prevLevel.
  - exact Hsync.
Qed.



(** X20.  A page load never shows a level-up.  Whatever the session and
    the notifier were before, after a page load no notification is
    pending: an unacknowledged one is lost, and the loaded record raises
    none. *)
Theorem page_load_never_notifies (st : App.t * Notifier.t)
    (now stamp : Z) (outcome : OracleOutcome (list QuestData.t)) :
  Notifier.notification
    (snd (sessionStep (AppEvent (Mount now stamp outcome)) st)) = None.
Proof.
  cbn [sessionStep snd]. unfold levelEffect.
  destruct (App.userState _); reflexivity.
Qed.


(** X22.  The notifier is in step with the record.  From a fresh
    installation, after any events and acknowledgements, the level the
    notifier saw last is the level of the record in memory, so running
    the level effect again would change nothing. *)
Theorem notifier_has_seen_the_current_level (events : list SessionEvent)
    (s : UserState.t) :
  let st := sessionRun events (App.initial, Notifier.initial) in
  App.userState (fst st) = Some s ->
  Notifier.prevLevel (snd st) = Some (UserState.level s)
  /\ levelEffect (Some s) (snd st) = snd st.
Proof.
  cbv zeta.
  assert (Hsync : inSync (sessionRun events (App.initial, Notifier.initial))).
  { assert (H0 : inSync (App.initial, Notifier.initial))
      by (intros s0 Hs0; discriminate).
    revert H0. generalize (App.initial, Notifier.initial).
    induction events as [| e rest IH]; intros st Hst; [exact Hst |].
    apply IH. apply sessionStep_inSync. exact Hst. }
  intros Hs. split; [exact (Hsync s Hs) |].
  apply levelEffect_idle. exact (Hsync s Hs).
Qed.

(** ** Extraction of the oracle's JSON *)

Lemma throughLast_none (close : ascii) (s : string) :
  JSDate.avoids close s -> throughLast close s = None.
Proof.
  induction s as [| c rest IH]; [reflexivity |].
  cbn [JSDate.avoids throughLast]. intros [Hc Hrest].
  rewrite (IH Hrest). apply Ascii.eqb_neq in Hc. now rewrite Hc.
Qed.

Lemma throughLast_app (close : ascii) (s post : string) :
  JSDate.avoids close post ->
  throughLast close (s ++ String close post)
  = Some (s ++ String close EmptyString)%string.
Proof.
  intros Hpost. induction s as [| c rest IH].
  - cbn [append throughLast]. rewrite (throughLast_none _ _ Hpost).
    now rewrite Ascii.eqb_refl.
  - cbn [append throughLast]. now rewrite IH.
Qed.

Lemma matchHere_plain (c : ascii) (rest : string) :
  c <> "`"%char -> c <> "{"%char -> c <> "["%char ->
  matchHere (String c rest) = None.
Proof.
  intros H1 H2 H3. unfold matchHere, fenced, enclosed.
  apply Ascii.eqb_neq in H1, H2, H3.
  assert (Hp : afterPrefix fenceOpen (String c rest) = None).
  { unfold fenceOpen. cbn [append afterPrefix].
    rewrite Ascii.eqb_sym, H1. reflexivity. }
  rewrite Hp, H2, H3. reflexivity.
Qed.

Lemma regexMatch_skip (pre rest : string) :
  opensNoBlock pre -> regexMatch (pre ++ rest) = regexMatch rest.
Proof.
  unfold opensNoBlock. induction pre as [| c pre' IH]; [reflexivity |].
  cbn [JSDate.avoids]. intros ((H1 & A1) & (H2 & A2) & (H3 & A3)).
  cbn [append regexMatch]. rewrite matchHere_plain by assumption.
  apply IH. repeat split; assumption.
Qed.

Lemma regexMatch_plain (text : string) :
  opensNoBlock text -> regexMatch text = None.
Proof.
  unfold opensNoBlock. induction text as [| c rest IH]; [reflexivity |].
  cbn [JSDate.avoids]. intros ((H1 & A1) & (H2 & A2) & (H3 & A3)).
  cbn [regexMatch]. rewrite matchHere_plain by assumption.
  apply IH. repeat split; assumption.
Qed.

Lemma afterPrefix_app (p s : string) : afterPrefix p (p ++ s) = Some s.
Proof.
  induction p as [| a p' IH]; [reflexivity |].
  cbn [append afterPrefix]. now rewrite Ascii.eqb_refl.
Qed.

Lemma prefix_app (p s : string) : String.prefix p (p ++ s) = true.
Proof.
  induction p as [| a p' IH]; cbn [append String.prefix].
  - now destruct s.
  - destruct (ascii_dec a a) as [_ | N]; [exact IH | contradiction].
Qed.

(** The lazy body stops at the closing fence when it holds no backtick. *)
Lemma before_fenceClose (body post : string) :
  JSDate.avoids "`" body ->
  before fenceClose (body ++ fenceClose ++ post) = Some body.
Proof.
  induction body as [| c rest IH].
  - intros _. cbn [append]. 
    change (String LF ("```" ++ post))%string with (fenceClose ++ post)%string.
    destruct (fenceClose ++ post)%string eqn:E; [discriminate |].
    cbn [before]. rewrite <- E, prefix_app. reflexivity.
  - cbn [JSDate.avoids]. intros [Hc Hrest].
    change ((String c rest ++ fenceClose ++ post)%string)
      with (String c (rest ++ fenceClose ++ post)%string).
    cbn [before].
    assert (Hp : String.prefix fenceClose
                   (String c (rest ++ fenceClose ++ post)) = false).
    { unfold fenceClose at 1. cbn [String.prefix].
      destruct (ascii_dec LF c) as [_ | _]; [| reflexivity].
      destruct rest as [| r rest'].
      - reflexivity.
      - cbn [append String.prefix]. cbn [JSDate.avoids] in Hrest.
        destruct (ascii_dec "`" r) as [E | _]; [| reflexivity].
        destruct Hrest as [Hr _]. now subst r. }
    rewrite Hp, (IH Hrest). reflexivity.
Qed.

Section ParseAiJsonFacts.

Variable JSON : Type.
Variable JSON_parse : string -> option JSON.

(** X23.  A response without a block gives null.  A text with no
    backtick, no opening brace and no opening bracket is never handed to
    the JSON parser. *)
Theorem response_without_block_is_null (text : string) :
  opensNoBlock text -> parseAiJson JSON JSON_parse text = None.
Proof.
  intros H. unfold parseAiJson. now rewrite regexMatch_plain.
Qed.

(** X24.  An object is taken up to the last closing brace.  After prose
    that opens no block, everything from the first opening brace to the
    last closing brace of the response is parsed as one JSON text,
    whatever lies between them. *)
Theorem object_runs_to_the_last_brace (pre body post : string) :
  opensNoBlock pre ->
  JSDate.avoids "}" post ->
  parseAiJson JSON JSON_parse (pre ++ String "{" (body ++ String "}" post))
  = JSON_parse (String "{" (body ++ String "}" EmptyString)).
Proof.
  intros Hpre Hpost. unfold parseAiJson.
  rewrite regexMatch_skip by exact Hpre.
  cbn [regexMatch]. unfold matchHere, fenced, enclosed.
  change (afterPrefix fenceOpen (String "{" (body ++ String "}" post)))
    with (@None string).
  cbv iota. rewrite Ascii.eqb_refl, throughLast_app by exact Hpost.
  reflexivity.
Qed.

(** X25.  A fenced block is parsed, an empty one is not.  After prose that
    opens no block, the body of a [json] fence that holds no backtick is
    what the JSON parser gets; when the body is empty the parser gets
    the text [undefined] instead. *)
Theorem fenced_block_is_extracted (pre body post : string) :
  opensNoBlock pre ->
  JSDate.avoids "`" body ->
  parseAiJson JSON JSON_parse (pre ++ fenceOpen ++ body ++ fenceClose ++ post)
  = JSON_parse (match body with
                | EmptyString => "undefined"
                | _ => body
                end).
Proof.
  intros Hpre Hbody. unfold parseAiJson.
  rewrite regexMatch_skip by exact Hpre.
  assert (Hm : matchHere (fenceOpen ++ body ++ fenceClose ++ post)
               = Some (Some body, None, None)).
  { unfold matchHere, fenced.
    now rewrite afterPrefix_app, before_fenceClose. }
  assert (Hr : regexMatch (fenceOpen ++ body ++ fenceClose ++ post)
               = Some (Some body, None, None)).
  { destruct (fenceOpen ++ body ++ fenceClose ++ post)%string;
      cbn [regexMatch]; now rewrite Hm. }
  rewrite Hr. destruct body; reflexivity.
Qed.

End ParseAiJsonFacts.

(** ** Distances *)

(** The distance is the radius times twice the arcsine of [sqrt a]. *)
Lemma haversineDistance_asin (p1 p2 : Geo.GeolocationCoordinates) :
  Geo.haversineDistance p1 p2
  = (6371 * (2 * asin (sqrt (Geo.haversineA p1 p2))))%R.
Proof.
  unfold Geo.haversineDistance. cbv zeta.
  rewrite GeoFacts.atan2_asin by apply GeoFacts.haversineA_bounds.
  reflexivity.
Qed.

(** An angle in [[0, PI]] is recovered from the square of the sine of
    its half. *)
Lemma arc_of_half_angle (x : R) :
  (0 <= x <= PI)%R ->
  (2 * asin (sqrt (sin (x / 2) * sin (x / 2))))%R = x.
Proof.
  intros [H0 H1]. pose proof PI_RGT_0 as Hpi.
  rewrite sqrt_square by (apply sin_ge_0; Lra.lra).
  rewrite asin_sin by (split; Lra.lra). Lra.lra.
Qed.

Lemma sin_sqr_abs (x : R) :
  (sin (x / 2) * sin (x / 2))%R = (sin (Rabs x / 2) * sin (Rabs x / 2))%R.
Proof.
  unfold Rabs. destruct (Rcase_abs x) as [_ | _]; [| reflexivity].
  replace (- x / 2)%R with (- (x / 2))%R by Lra.lra.
  rewrite sin_neg. ring.
Qed.

Lemma toRad_abs (x : R) : Geo.toRad (Rabs x) = Rabs (Geo.toRad x).
Proof.
  pose proof PI_RGT_0 as Hpi. unfold Geo.toRad, Rabs.
  destruct (Rcase_abs x) as [Hx | Hx];
    destruct (Rcase_abs (x * PI / 180)) as [Hy | Hy]; try Lra.lra.
  - exfalso. assert (x * PI < 0)%R by Lra.nra. Lra.lra.
  - exfalso. assert (0 <= x * PI)%R by Lra.nra. Lra.lra.
Qed.

Lemma toRad_half_turn (x : R) :
  (Rabs x <= 180)%R -> (0 <= Geo.toRad (Rabs x) <= PI)%R.
Proof.
  intros H. pose proof PI_RGT_0 as Hpi. pose proof (Rabs_pos x) as H0.
  unfold Geo.toRad. split.
  - assert (0 <= Rabs x * PI)%R by (apply Rmult_le_pos; Lra.lra). Lra.lra.
  - assert (Rabs x * PI <= 180 * PI)%R
      by (apply Rmult_le_compat_r; Lra.lra).
    Lra.lra.
Qed.

(** X26.  Along a meridian the distance is the arc.  For two points of the
    same longitude whose latitudes differ by at most 180 degrees, the
    distance is 6371 times the difference of the latitudes in radians. *)
Theorem distance_along_a_meridian (p1 p2 : Geo.GeolocationCoordinates) :
  Geo.longitude p1 = Geo.longitude p2 ->
  (Rabs (Geo.latitude p2 - Geo.latitude p1) <= 180)%R ->
  Geo.haversineDistance p1 p2
  = (6371 * Geo.toRad (Rabs (Geo.latitude p2 - Geo.latitude p1)))%R.
Proof.
  intros Hlon Hlat. rewrite haversineDistance_asin.
  unfold Geo.haversineA. cbv zeta.
  rewrite Hlon, Rminus_diag, GeoFacts.toRad_0.
  replace (0 / 2)%R with 0%R by Lra.lra. rewrite sin_0.
  rewrite !Rmult_0_l, Rplus_0_r.
  rewrite sin_sqr_abs, <- toRad_abs.
  rewrite arc_of_half_angle by (apply toRad_half_turn; exact Hlat).
  reflexivity.
Qed.

(** X27.  Along the equator the distance is the arc.  For two points of
    latitude 0 whose longitudes differ by at most 180 degrees, the
    distance is 6371 times the difference of the longitudes in radians
    (111.19 km for one degree). *)
Theorem distance_along_the_equator (p1 p2 : Geo.GeolocationCoordinates) :
  Geo.latitude p1 = 0%R ->
  Geo.latitude p2 = 0%R ->
  (Rabs (Geo.longitude p2 - Geo.longitude p1) <= 180)%R ->
  Geo.haversineDistance p1 p2
  = (6371 * Geo.toRad (Rabs (Geo.longitude p2 - Geo.longitude p1)))%R.
Proof.
  intros H1 H2 Hlon. rewrite haversineDistance_asin.
  unfold Geo.haversineA. cbv zeta.
  rewrite H1, H2, Rminus_diag, GeoFacts.toRad_0.
  replace (0 / 2)%R with 0%R by Lra.lra. rewrite sin_0, cos_0.
  rewrite !Rmult_0_l, Rplus_0_l, !Rmult_1_r.
  rewrite sin_sqr_abs, <- toRad_abs.
  rewrite arc_of_half_angle by (apply toRad_half_turn; exact Hlon).
  reflexivity.
Qed.

(** ** Location tracking *)

Lemma tracker_step_singleWatch (e : Tracker.Event) (tr : Tracker.t) :
  Tracker.nonZeroIds [e] ->
  Tracker.singleWatch tr ->
  Tracker.singleWatch (snd (Tracker.step e tr)).
Proof.
  intros He Hinv. inversion He as [| ? ? Hid _]; subst. clear He.
  destruct tr as [active ref last ws].
  destruct Hinv as [(Ha & Hr & Hw) | (w & q & Hw0 & Ha & Hr & Hw)];
    cbn [Tracker.activeTrackingQuestId Tracker.questWatchIdRef
         Tracker.watches] in *; subst.
  - (* nothing tracked *)
    destruct e as [questId newId | watchId position | watchId];
      cbn [Tracker.step snd Tracker.watches Tracker.questOf].
    + right. exists newId, questId. cbn. repeat split. exact Hid.
    + left. cbn. repeat split.
    + left. cbn. repeat split.
  - (* one quest tracked *)
    assert (Hw1 : (w =? 0) = false) by (apply Z.eqb_neq; exact Hw0).
    destruct e as [questId newId | watchId position | watchId];
      cbn [Tracker.step snd Tracker.watches Tracker.questOf].
    + unfold Tracker.handleToggleTracking.
      cbn [Tracker.activeTrackingQuestId Tracker.questWatchIdRef
           Tracker.watches Tracker.truthy Tracker.clearWatch Tracker.sameId
           filter fst].
      rewrite Hw1, Z.eqb_refl. cbn [negb].
      destruct (String.eqb q questId).
      * left. cbn. repeat split.
      * right. exists newId, questId. cbn. repeat split. exact Hid.
    + destruct (w =? watchId).
      * right. exists w, q. cbn. repeat split. exact Hw0.
      * right. exists w, q. cbn. repeat split. exact Hw0.
    + destruct (w =? watchId).
      * left. cbn [snd]. unfold Tracker.onError.
        cbn [Tracker.activeTrackingQuestId Tracker.questWatchIdRef
             Tracker.watches Tracker.truthy Tracker.clearWatch Tracker.sameId
             filter fst].
        rewrite String.eqb_refl, Hw1, Z.eqb_refl. cbn. repeat split.
      * right. exists w, q. cbn. repeat split. exact Hw0.
Qed.

Lemma tracker_run_cons (e : Tracker.Event) (rest : list Tracker.Event)
    (tr : Tracker.t) :
  Tracker.run (e :: rest) tr
  = ((fst (Tracker.step e tr)
      ++ fst (Tracker.run rest (snd (Tracker.step e tr))))%list,
     snd (Tracker.run rest (snd (Tracker.step e tr)))).
Proof.
  cbn [Tracker.run]. destruct (Tracker.step e tr) as [calls t1].
  cbn [fst snd]. destruct (Tracker.run rest t1) as [more t2]. reflexivity.
Qed.

Lemma tracker_run_singleWatch (events : list Tracker.Event) :
  forall tr : Tracker.t,
    Tracker.nonZeroIds events ->
    Tracker.singleWatch tr ->
    Tracker.singleWatch (snd (Tracker.run events tr)).
Proof.
  induction events as [| e rest IH]; intros tr Hids Hinv; [exact Hinv |].
  inversion Hids as [| ? ? He Hrest]; subst.
  rewrite tracker_run_cons. cbn [snd]. apply IH; [exact Hrest |].
  apply tracker_step_singleWatch; [| exact Hinv].
  constructor; [exact He | constructor].
Qed.

(** X28.  Only one quest is tracked at a time.  From the start, after any
    toggles, fixes and sensor errors, either nothing is tracked and no
    position watch is live, or exactly one watch is live and it is the
    one of the tracked quest. *)
Theorem only_one_quest_is_tracked (events : list Tracker.Event) :
  Tracker.nonZeroIds events ->
  Tracker.singleWatch (snd (Tracker.run events Tracker.initial)).
Proof.
  intros Hids. apply tracker_run_singleWatch; [exact Hids |].
  left. repeat split.
Qed.

(** The fixes of a live watch, from an anchor on. *)
Lemma tracker_fixes (questId : string) (watchId : Z)
    (positions : list Geo.GeolocationCoordinates) :
  forall (tr : Tracker.t) (anchor : Geo.GeolocationCoordinates),
    Tracker.questOf watchId (Tracker.watches tr) = Some questId ->
    Tracker.lastQuestPositionRef tr = Some anchor ->
    fst (Tracker.run (map (Tracker.Fix watchId) positions) tr)
    = Tracker.legs questId anchor positions.
Proof.
  induction positions as [| p rest IH]; intros tr anchor Hq Hlast;
    [reflexivity |].
  cbn [map]. rewrite tracker_run_cons. cbn [fst].
  cbn [Tracker.step]. rewrite Hq. unfold Tracker.onPosition.
  rewrite Hlast. cbn [fst snd app Tracker.legs]. f_equal.
  apply IH; [exact Hq | reflexivity].
Qed.

(** X29.  A tracking session yields the legs between its fixes.  Starting
    to track a quest, whatever happened before (a stop, a sensor error),
    the first fix makes no update and every later fix makes one update
    of that quest, by the distance from the fix before it. *)
Theorem tracking_session_yields_its_legs (events : list Tracker.Event)
    (questId : string) (watchId : Z)
    (first : Geo.GeolocationCoordinates)
    (others : list Geo.GeolocationCoordinates) :
  Tracker.nonZeroIds events ->
  watchId <> 0 ->
  let tr := snd (Tracker.run events Tracker.initial) in
  Tracker.activeTrackingQuestId tr <> Some questId ->
  fst (Tracker.run
         (Tracker.Toggle questId watchId
          :: map (Tracker.Fix watchId) (first :: others)) tr)
  = Tracker.legs questId first others.
Proof.
  intros Hids Hid tr Hother.
  pose proof (tracker_run_singleWatch events Tracker.initial Hids
                (or_introl (conj eq_refl (conj eq_refl eq_refl)))) as Hinv.
  fold tr in Hinv.
  assert (Hstart :
    snd (Tracker.step (Tracker.Toggle questId watchId) tr)
    = Tracker.mk (Some questId) (Some watchId) None [(watchId, questId)]).
  { destruct tr as [active ref last ws].
    cbn [Tracker.activeTrackingQuestId] in Hother.
    destruct Hinv as [(Ha & Hr & Hw) | (w & q & Hw0 & Ha & Hr & Hw)];
      cbn [Tracker.activeTrackingQuestId Tracker.questWatchIdRef
           Tracker.watches] in *; subst.
    - reflexivity.
    - cbn [Tracker.step snd]. unfold Tracker.handleToggleTracking.
      cbn [Tracker.activeTrackingQuestId Tracker.questWatchIdRef
           Tracker.watches Tracker.truthy Tracker.clearWatch Tracker.sameId
           filter fst].
      assert (Hw1 : (w =? 0) = false) by (apply Z.eqb_neq; exact Hw0).
      rewrite Hw1, Z.eqb_refl. cbn [negb].
      destruct (String.eqb_spec q questId) as [-> | _];
        [exfalso; apply Hother; reflexivity | reflexivity]. }
  rewrite tracker_run_cons. rewrite Hstart. cbn [Tracker.step fst app].
  cbn [map]. rewrite tracker_run_cons.
  cbn [Tracker.step Tracker.watches Tracker.questOf].
  rewrite Z.eqb_refl. cbn [fst app snd Tracker.onPosition].
  unfold Tracker.onPosition.
  cbn [Tracker.lastQuestPositionRef Tracker.activeTrackingQuestId
       Tracker.questWatchIdRef Tracker.watches fst snd app].
  apply tracker_fixes.
  - cbn. now rewrite Z.eqb_refl.
  - reflexivity.
Qed.

(** ** Instances *)



Lemma session_records_are_well_formed_witness :
  Forall saneEvent sampleSession
  /\ (App.userState (run sampleSession App.initial) = Some sampleSessionEnd
      \/ App.storage (run sampleSession App.initial)
         = Some (Snapshot sampleSessionEnd))
  /\ 1 <= UserState.level sampleSessionEnd
  /\ 0 <= UserState.xp sampleSessionEnd
     < XP_PER_LEVEL * UserState.level sampleSessionEnd.
Proof.
  assert (H1 : Forall saneEvent sampleSession)
    by (repeat constructor; cbn; lia).
  assert (H2 : App.userState (run sampleSession App.initial)
               = Some sampleSessionEnd
               \/ App.storage (run sampleSession App.initial)
                  = Some (Snapshot sampleSessionEnd))
    by (left; rewrite sampleSession_end; reflexivity).
  split; [exact H1 |]. split; [exact H2 |].
  exact (session_records_are_well_formed sampleSession sampleSessionEnd H1 H2).
Defined.

Lemma reset_is_undone_by_the_unload_handler_witness :
  App.userState sampleOpen = Some sampleState
  /\ App.storage (run [ResetProgress; BeforeUnload] sampleOpen)
     = Some (Snapshot sampleState)
  /\ run [ResetProgress; BeforeUnload;
          Mount sampleNow sampleStamp (Parsed sampleBatch)] sampleOpen
     = run [BeforeUnload; Mount sampleNow sampleStamp (Parsed sampleBatch)]
         sampleOpen.
Proof.
  assert (H1 : App.userState sampleOpen = Some sampleState) by reflexivity.
  split; [exact H1 |].
  exact (reset_is_undone_by_the_unload_handler sampleOpen sampleState
           sampleNow sampleStamp (Parsed sampleBatch) H1).
Defined.

Lemma no_second_refresh_on_the_same_day_witness :
  App.storage sampleApp = Some (Snapshot sampleState)
  /\ JSDate.validTime sampleNow = true
  /\ JSDate.validTime (UserState.lastLogin sampleState) = true
  /\ JSDate.validTime sampleStamp = true
  /\ JSDate.validTime sampleNextVisit = true
  /\ JSDate.Day sampleNow <> JSDate.Day (UserState.lastLogin sampleState)
  /\ JSDate.Day sampleNextVisit = JSDate.Day sampleStamp
  /\ let r := refreshed sampleState
                (freshQuests (getAiResponse (Parsed sampleBatch)))
                sampleStamp in
     step (Mount sampleNow sampleStamp (Parsed sampleBatch)) sampleApp
     = App.mk (Some r) false true (Some (Snapshot r))
     /\ run [Mount sampleNow sampleStamp (Parsed sampleBatch);
             Mount sampleNextVisit sampleNextVisit NetworkError] sampleApp
        = App.mk (Some r) false false (Some (Snapshot r)).
Proof.
  assert (H1 : App.storage sampleApp = Some (Snapshot sampleState))
    by reflexivity.
  assert (H2 : JSDate.validTime sampleNow = true) by reflexivity.
  assert (H3 : JSDate.validTime (UserState.lastLogin sampleState) = true)
    by reflexivity.
  assert (H4 : JSDate.validTime sampleStamp = true) by reflexivity.
  assert (H5 : JSDate.validTime sampleNextVisit = true) by reflexivity.
  assert (H6 : JSDate.Day sampleNow
               <> JSDate.Day (UserState.lastLogin sampleState))
    by (vm_compute; discriminate).
  assert (H7 : JSDate.Day sampleNextVisit = JSDate.Day sampleStamp)
    by reflexivity.
  repeat (split; [assumption |]).
  exact (no_second_refresh_on_the_same_day sampleApp sampleState sampleNow
           sampleStamp sampleNextVisit sampleNextVisit (Parsed sampleBatch)
           NetworkError H1 H2 H3 H4 H5 H6 H7).
Defined.

Lemma sampleAnswers_notBlank : Forall (notBlank trimStart) sampleAnswers.
Proof. repeat constructor. Qed.

Lemma questionnaire_collects_answers_witness :
  Forall (notBlank trimStart) ["Jinwoo"; "3"; "45"]%string
  /\ (List.length ["Jinwoo"; "3"; "45"]%string <= 12)%nat
  /\ answerQuestions trimStart sampleNow NetworkError
       ["Jinwoo"; "3"; "45"]%string (Questionnaire.initial, App.initial)
     = (Questionnaire.mk (List.length ["Jinwoo"; "3"; "45"]%string)
          ["Jinwoo"; "3"; "45"]%string EmptyString false, App.initial).
Proof.
  assert (H1 : Forall (notBlank trimStart) ["Jinwoo"; "3"; "45"]%string)
    by (repeat constructor).
  assert (H2 : (List.length ["Jinwoo"; "3"; "45"]%string <= 12)%nat)
    by (cbn; lia).
  split; [exact H1 |]. split; [exact H2 |].
  exact (questionnaire_collects_answers trimStart sampleNow NetworkError
           ["Jinwoo"; "3"; "45"]%string App.initial H1 H2).
Defined.

Lemma questionnaire_creates_the_record_witness :
  trimStart EmptyString = EmptyString
  /\ Forall (notBlank trimStart) sampleAnswers
  /\ List.length sampleAnswers = 13%nat
  /\ JSDate.validTime sampleNow = true
  /\ exists first rest,
       sampleAnswers = first :: rest
       /\ first <> EmptyString
       /\ let r := UserState.mk 1 0 (Assessment.difficulty sampleAssessment)
                     (map withZeroProgress
                        (Assessment.quests sampleAssessment))
                     [] first sampleNow 0 0 in
          snd (answerQuestions trimStart sampleNow (Parsed sampleAssessment)
                 sampleAnswers (Questionnaire.initial, App.initial))
          = App.mk (Some r) (App.isLoading App.initial) true
              (Some (Snapshot r)).
Proof.
  assert (H0 : trimStart EmptyString = EmptyString) by reflexivity.
  assert (H2 : List.length sampleAnswers = 13%nat) by reflexivity.
  assert (H3 : JSDate.validTime sampleNow = true) by reflexivity.
  split; [exact H0 |]. split; [exact sampleAnswers_notBlank |].
  split; [exact H2 |]. split; [exact H3 |].
  exact (questionnaire_creates_the_record trimStart H0 sampleNow
           sampleAssessment sampleAnswers App.initial
           sampleAnswers_notBlank H2 H3).
Defined.

Lemma questionnaire_retry_after_failure_witness :
  Forall (notBlank trimStart) sampleAnswers
  /\ List.length sampleAnswers = 13%nat
  /\ notBlank trimStart "Getting stronger"
  /\ getAiResponse (@NetworkError Assessment.t) = None
  /\ let failed := answerQuestions trimStart sampleNow NetworkError
                     sampleAnswers (Questionnaire.initial, App.initial) in
     failed = (Questionnaire.mk 12 sampleAnswers EmptyString false,
               App.initial)
     /\ answerQuestion trimStart sampleStamp (Parsed sampleAssessment)
          failed "Getting stronger"
        = (Questionnaire.mk 12 (sampleAnswers ++ ["Getting stronger"%string])
             EmptyString true,
           submitQuestionnaire (sampleAnswers ++ ["Getting stronger"%string])
             sampleStamp (Parsed sampleAssessment) App.initial).
Proof.
  assert (H2 : List.length sampleAnswers = 13%nat) by reflexivity.
  assert (H3 : notBlank trimStart "Getting stronger") by reflexivity.
  assert (H4 : getAiResponse (@NetworkError Assessment.t) = None)
    by reflexivity.
  split; [exact sampleAnswers_notBlank |]. split; [exact H2 |].
  split; [exact H3 |]. split; [exact H4 |].
  exact (questionnaire_retry_after_failure trimStart sampleNow sampleStamp
           NetworkError sampleAssessment sampleAnswers "Getting stronger"
           App.initial sampleAnswers_notBlank H2 H3 H4).
Defined.

Lemma log_entry_reads_the_leading_digits_witness :
  allDigits "15" = true
  /\ "15"%string <> EmptyString
  /\ startsWithDigit ".5" = false
  /\ QuestItem.handleLogSubmit samplePushups ("15" ++ ".5") sampleOpen
     = if 0 <? readDigits 0 "15"
       then (EmptyString,
             updateQuestProgress (Quest.id samplePushups)
               (inject_Z (readDigits 0 "15")) sampleOpen)
       else (("15" ++ ".5")%string, sampleOpen).
Proof.
  assert (H1 : allDigits "15" = true) by reflexivity.
  assert (H2 : "15"%string <> EmptyString) by discriminate.
  assert (H3 : startsWithDigit ".5" = false) by reflexivity.
  repeat (split; [assumption |]).
  exact (log_entry_reads_the_leading_digits samplePushups "15" ".5"
           sampleOpen H1 H2 H3).
Defined.




Lemma notifier_has_seen_the_current_level_witness :
  App.userState
    (fst (sessionRun sampleOnboarding (App.initial, Notifier.initial)))
  = Some sampleOnboarded
  /\ Notifier.prevLevel
       (snd (sessionRun sampleOnboarding (App.initial, Notifier.initial)))
     = Some (UserState.level sampleOnboarded)
  /\ levelEffect (Some sampleOnboarded)
       (snd (sessionRun sampleOnboarding (App.initial, Notifier.initial)))
     = snd (sessionRun sampleOnboarding (App.initial, Notifier.initial)).
Proof.
  assert (H : App.userState
                (fst (sessionRun sampleOnboarding
                        (App.initial, Notifier.initial)))
              = Some sampleOnboarded) by reflexivity.
  split; [exact H |].
  exact (notifier_has_seen_the_current_level sampleOnboarding
           sampleOnboarded H).
Defined.

Lemma response_without_block_is_null_witness :
  opensNoBlock "no data"
  /\ parseAiJson string Some "no data" = None.
Proof.
  assert (H : opensNoBlock "no data")
    by (cbn; repeat split; discriminate).
  split; [exact H |].
  exact (response_without_block_is_null string Some "no data" H).
Defined.

Lemma object_runs_to_the_last_brace_witness :
  opensNoBlock "Here: "
  /\ JSDate.avoids "}" " ok"
  /\ parseAiJson string Some
       ("Here: " ++ String "{" ("a} and {b" ++ String "}" " ok"))
     = Some (String "{" ("a} and {b" ++ String "}" EmptyString)).
Proof.
  assert (H1 : opensNoBlock "Here: ")
    by (cbn; repeat split; discriminate).
  assert (H2 : JSDate.avoids "}" " ok")
    by (cbn; repeat split; discriminate).
  split; [exact H1 |]. split; [exact H2 |].
  exact (object_runs_to_the_last_brace string Some "Here: " "a} and {b"
           " ok" H1 H2).
Defined.

Lemma fenced_block_is_extracted_witness :
  opensNoBlock "Here: "
  /\ JSDate.avoids "`" "[1]"
  /\ parseAiJson string Some
       ("Here: " ++ fenceOpen ++ "[1]" ++ fenceClose ++ " done")
     = Some "[1]"%string.
Proof.
  assert (H1 : opensNoBlock "Here: ")
    by (cbn; repeat split; discriminate).
  assert (H2 : JSDate.avoids "`" "[1]")
    by (cbn; repeat split; discriminate).
  split; [exact H1 |]. split; [exact H2 |].
  exact (fenced_block_is_extracted string Some "Here: " "[1]" " done" H1 H2).
Defined.

Lemma distance_along_a_meridian_witness :
  Geo.longitude samplePosition1 = Geo.longitude samplePosition2
  /\ (Rabs (Geo.latitude samplePosition2 - Geo.latitude samplePosition1)
      <= 180)%R
  /\ Geo.haversineDistance samplePosition1 samplePosition2
     = (6371 * Geo.toRad
                 (Rabs (Geo.latitude samplePosition2
                        - Geo.latitude samplePosition1)))%R.
Proof.
  assert (H1 : Geo.longitude samplePosition1 = Geo.longitude samplePosition2)
    by reflexivity.
  assert (H2 : (Rabs (Geo.latitude samplePosition2
                      - Geo.latitude samplePosition1) <= 180)%R).
  { cbn [Geo.latitude samplePosition1 samplePosition2].
    unfold Rabs. destruct (Rcase_abs (1 - 0)); Lra.lra. }
  split; [exact H1 |]. split; [exact H2 |].
  exact (distance_along_a_meridian samplePosition1 samplePosition2 H1 H2).
Defined.

Lemma distance_along_the_equator_witness :
  Geo.latitude samplePosition0 = 0%R
  /\ Geo.latitude samplePosition1 = 0%R
  /\ (Rabs (Geo.longitude samplePosition1 - Geo.longitude samplePosition0)
      <= 180)%R
  /\ Geo.haversineDistance samplePosition0 samplePosition1
     = (6371 * Geo.toRad
                 (Rabs (Geo.longitude samplePosition1
                        - Geo.longitude samplePosition0)))%R.
Proof.
  assert (H1 : Geo.latitude samplePosition0 = 0%R) by reflexivity.
  assert (H2 : Geo.latitude samplePosition1 = 0%R) by reflexivity.
  assert (H3 : (Rabs (Geo.longitude samplePosition1
                      - Geo.longitude samplePosition0) <= 180)%R).
  { cbn [Geo.longitude samplePosition0 samplePosition1].
    unfold Rabs. destruct (Rcase_abs (1 - 0)); Lra.lra. }
  split; [exact H1 |]. split; [exact H2 |]. split; [exact H3 |].
  exact (distance_along_the_equator samplePosition0 samplePosition1
           H1 H2 H3).
Defined.

Lemma sampleTracking_ids : Tracker.nonZeroIds sampleTracking.
Proof. repeat constructor; discriminate. Qed.

Lemma sampleFailedTracking_ids : Tracker.nonZeroIds sampleFailedTracking.
Proof. repeat constructor; discriminate. Qed.

Lemma only_one_quest_is_tracked_witness :
  Tracker.nonZeroIds sampleTracking
  /\ Tracker.singleWatch (snd (Tracker.run sampleTracking Tracker.initial)).
Proof.
  split; [exact sampleTracking_ids |].
  exact (only_one_quest_is_tracked sampleTracking sampleTracking_ids).
Defined.

Lemma tracking_session_yields_its_legs_witness :
  Tracker.nonZeroIds sampleFailedTracking
  /\ 7 <> 0
  /\ Tracker.activeTrackingQuestId
       (snd (Tracker.run sampleFailedTracking Tracker.initial))
     <> Some "q2"%string
  /\ fst (Tracker.run
            (Tracker.Toggle "q2" 7
             :: map (Tracker.Fix 7)
                  [samplePosition0; samplePosition1; samplePosition2])
            (snd (Tracker.run sampleFailedTracking Tracker.initial)))
     = Tracker.legs "q2" samplePosition0 [samplePosition1; samplePosition2].
Proof.
  assert (H2 : 7 <> 0) by discriminate.
  assert (H3 : Tracker.activeTrackingQuestId
                 (snd (Tracker.run sampleFailedTracking Tracker.initial))
               <> Some "q2"%string) by (cbn; discriminate).
  split; [exact sampleFailedTracking_ids |]. split; [exact H2 |].
  split; [exact H3 |].
  exact (tracking_session_yields_its_legs sampleFailedTracking "q2" 7
           samplePosition0 [samplePosition1; samplePosition2]
           sampleFailedTracking_ids H2 H3).
Defined.

(** ** Binary64: exact arithmetic on whole numbers *)

Module B64Numbers.

Import B64.

Lemma digits_bounds (p : positive) :
  2 ^ (Zpos (digits2_pos p) - 1) <= Zpos p < 2 ^ Zpos (digits2_pos p).
Proof.
  induction p as [p IH | p IH |]; cbn [digits2_pos].
  - rewrite Pos2Z.inj_succ.
    replace (Z.succ (Zpos (digits2_pos p)) - 1) with (Zpos (digits2_pos p)) by lia.
    rewrite Z.pow_succ_r by lia.
    assert (H : 2 ^ Zpos (digits2_pos p) = 2 * 2 ^ (Zpos (digits2_pos p) - 1)).
    { rewrite <- Z.pow_succ_r by lia. f_equal. lia. }
    lia.
  - rewrite Pos2Z.inj_succ.
    replace (Z.succ (Zpos (digits2_pos p)) - 1) with (Zpos (digits2_pos p)) by lia.
    rewrite Z.pow_succ_r by lia.
    assert (H : 2 ^ Zpos (digits2_pos p) = 2 * 2 ^ (Zpos (digits2_pos p) - 1)).
    { rewrite <- Z.pow_succ_r by lia. f_equal. lia. }
    lia.
  - cbn. lia.
Qed.

(** The number of digits is determined by the bounds. *)
Lemma digits_unique (p : positive) (d : Z) :
  2 ^ (d - 1) <= Zpos p < 2 ^ d -> Zpos (digits2_pos p) = d.
Proof.
  intros [Hlo Hhi]. pose proof (digits_bounds p) as [Hlo' Hhi'].
  assert (Hd : 0 < d).
  { destruct (Z_lt_le_dec 0 d) as [H | H]; [exact H |].
    exfalso. assert (2 ^ d <= 1).
    { destruct (Z.eq_dec d 0) as [-> | N]; [cbn; lia |].
      rewrite Z.pow_neg_r by lia. lia. }
    lia. }
  destruct (Z.lt_trichotomy (Zpos (digits2_pos p)) d) as [H | [H | H]];
    [exfalso | exact H | exfalso].
  - assert (2 ^ Zpos (digits2_pos p) <= 2 ^ (d - 1))
      by (apply Z.pow_le_mono_r; lia).
    lia.
  - assert (2 ^ d <= 2 ^ (Zpos (digits2_pos p) - 1))
      by (apply Z.pow_le_mono_r; lia).
    lia.
Qed.

(** shifting left *)
Lemma iter_xO_value (k : positive) (m : positive) :
  Zpos (Pos.iter xO m k) = Zpos m * 2 ^ Zpos k.
Proof.
  revert m. induction k as [| k IH] using Pos.peano_ind; intros m.
  - cbn. lia.
  - rewrite Pos.iter_succ, Pos2Z.inj_succ, Z.pow_succ_r by lia.
    rewrite Pos2Z.inj_xO, IH. lia.
Qed.

Lemma iter_shr_exact (k : positive) :
  forall m : positive, iter_pos shr_1 k (rec0 (Zpos (Pos.iter xO m k))) = rec0 (Zpos m).
Proof.
  induction k as [k IH | k IH |]; intros m; cbn [Pos.iter iter_pos].
  - change (shr_1 (rec0 (Zpos (Pos.iter xO (Pos.iter xO m k) k)~0)))
      with (rec0 (Zpos (Pos.iter xO (Pos.iter xO m k) k))).
    now rewrite !IH.
  - now rewrite !IH.
  - reflexivity.
Qed.

(** A positive mantissa that is a multiple of [2 ^ k]. *)
Lemma multiple_is_shift (m w : positive) (k : positive) :
  Zpos m = Zpos w * 2 ^ Zpos k -> m = Pos.iter xO w k.
Proof.
  intros H. apply Pos2Z.inj. now rewrite iter_xO_value.
Qed.

Lemma digits_shift (w : positive) (m : positive) (j d : Z) :
  0 <= j ->
  Zpos (digits2_pos w) = d ->
  Zpos m = Zpos w * 2 ^ j ->
  Zpos (digits2_pos m) = d + j.
Proof.
  intros Hj Hd Hm. apply digits_unique.
  pose proof (digits_bounds w) as [Hlo Hhi]. rewrite Hd in Hlo, Hhi.
  assert (Hd1 : 1 <= d) by (rewrite <- Hd; lia).
  replace (d + j - 1) with ((d - 1) + j) by lia.
  rewrite !Z.pow_add_r by lia. rewrite Hm.
  assert (Hp : 0 < 2 ^ j) by (apply Z.pow_pos_nonneg; lia).
  split.
  - apply Z.mul_le_mono_nonneg_r; lia.
  - apply Z.mul_lt_mono_pos_r; lia.
Qed.

Lemma digits_unshift (w : positive) (m : positive) (j d : Z) :
  0 <= j ->
  Zpos (digits2_pos w) = d ->
  Zpos w = Zpos m * 2 ^ j ->
  Zpos (digits2_pos m) = d - j.
Proof.
  intros Hj Hd Hw.
  pose proof (digits_shift m w j (Zpos (digits2_pos m)) Hj eq_refl Hw) as H.
  lia.
Qed.

Lemma fexp_normal (x : Z) :
  -1074 <= x - 53 -> fexp prec emax x = x - 53.
Proof. intros H. unfold fexp, emin, prec, emax. lia. Qed.

(** Rounding a mantissa that is a 53-digit number times a power of two
    is exact. *)
Lemma binary_round_aux_exact (s : bool) (m w : positive) (e t : Z) :
  Zpos (digits2_pos w) = 53 ->
  -1074 <= t <= 971 ->
  e <= t ->
  Zpos m = Zpos w * 2 ^ (t - e) ->
  binary_round_aux prec emax s (Zpos m) e loc_Exact = S754_finite s w t.
Proof.
  intros Hw Ht He Hm.
  pose proof (digits_shift w m (t - e) 53 ltac:(lia) Hw Hm) as Hdm.
  unfold binary_round_aux.
  assert (H1 : shr_fexp prec emax (Zpos m) e loc_Exact = (rec0 (Zpos w), t)).
  { unfold shr_fexp. cbn [Zdigits2 shr_record_of_loc]. rewrite Hdm.
    rewrite fexp_normal by lia.
    replace (53 + (t - e) + e - 53 - e) with (t - e) by lia.
    destruct (t - e) as [| k | k] eqn:Hk; [| | lia].
    - cbn [shr]. rewrite Z.mul_1_r in Hm. injection Hm as ->.
      f_equal. lia.
    - cbn [shr]. apply multiple_is_shift in Hm. subst m.
      fold (rec0 (Zpos (Pos.iter xO w k))). rewrite iter_shr_exact.
      f_equal. lia. }
  rewrite H1. cbn [rec0 shr_m loc_of_shr_record round_nearest_even].
  assert (H2 : shr_fexp prec emax (Zpos w) t loc_Exact = (rec0 (Zpos w), t)).
  { unfold shr_fexp. cbn [Zdigits2 shr_record_of_loc]. rewrite Hw.
    rewrite fexp_normal by lia.
    replace (53 + t - 53 - t) with 0 by lia. reflexivity. }
  rewrite H2. cbn [rec0 shr_m].
  assert (H3 : (t <=? emax - prec) = true)
    by (apply Z.leb_le; unfold emax, prec; lia).
  rewrite H3. reflexivity.
Qed.

Lemma binary_round_exact (s : bool) (m w : positive) (e t : Z) :
  Zpos (digits2_pos w) = 53 ->
  -1074 <= t <= 971 ->
  sameValue m e w t ->
  binary_round prec emax s m e = S754_finite s w t.
Proof.
  intros Hw Ht [[He Hm] | [He Hm]]; unfold binary_round.
  - pose proof (digits_shift w m (t - e) 53 ltac:(lia) Hw Hm) as Hdm.
    rewrite Hdm, fexp_normal by lia.
    replace (53 + (t - e) + e - 53) with t by lia.
    assert (Ha : shl_align m e t = (m, e)).
    { unfold shl_align. destruct (t - e) eqn:Hk; [reflexivity .. | lia]. }
    rewrite Ha. now apply binary_round_aux_exact.
  - pose proof (digits_unshift w m (e - t) 53 ltac:(lia) Hw Hm) as Hdm.
    rewrite Hdm, fexp_normal by lia.
    replace (53 - (e - t) + e - 53) with t by lia.
    assert (Ha : shl_align m e t = (w, t)).
    { unfold shl_align. destruct (t - e) as [| k | k] eqn:Hk; [| lia |].
      - assert (e = t) by lia. subst e.
        rewrite Z.sub_diag, Z.mul_1_r in Hm. now injection Hm as ->.
      - assert (Hk' : e - t = Zpos k) by lia. rewrite Hk' in Hm.
        apply multiple_is_shift in Hm. now subst w. }
    rewrite Ha. apply binary_round_aux_exact; try assumption; try lia.
    rewrite Z.sub_diag. lia.
Qed.

Lemma scaled_pos (m e : Z) : 0 < m -> -1074 <= e -> 0 < scaled m e.
Proof.
  intros Hm He. unfold scaled. apply Z.mul_pos_pos; [exact Hm |].
  apply Z.pow_pos_nonneg; lia.
Qed.

Lemma scaled_sameValue (m w : positive) (e t : Z) :
  -1074 <= e -> -1074 <= t ->
  scaled (Zpos m) e = scaled (Zpos w) t ->
  sameValue m e w t.
Proof.
  unfold scaled, sameValue. intros He Ht H.
  destruct (Z_le_gt_dec e t) as [Hle | Hgt]; [left | right]; split; try lia.
  - replace (t + 1074) with ((t - e) + (e + 1074)) in H by lia.
    rewrite (Z.pow_add_r 2 (t - e) (e + 1074)), Z.mul_assoc in H by lia.
    apply Z.mul_reg_r in H; [exact H |].
    apply Z.neq_sym, Z.lt_neq, Z.pow_pos_nonneg; lia.
  - replace (e + 1074) with ((e - t) + (t + 1074)) in H by lia.
    rewrite (Z.pow_add_r 2 (e - t) (t + 1074)), Z.mul_assoc in H by lia.
    apply Z.mul_reg_r in H; [now symmetry |].
    apply Z.neq_sym, Z.lt_neq, Z.pow_pos_nonneg; lia.
Qed.

Lemma repr_pos (n : Z) (w : positive) (t : Z) : repr n w t -> 0 < n.
Proof.
  intros (_ & Ht & H). pose proof (scaled_pos (Zpos w) t ltac:(lia) ltac:(lia)).
  rewrite H in H0. unfold scaled in H0.
  assert (0 < 2 ^ (0 + 1074)) by (apply Z.pow_pos_nonneg; lia).
  nia.
Qed.

Lemma ofZ_repr (n : Z) (w : positive) (t : Z) :
  repr n w t -> ofZ n = S754_finite false w t.
Proof.
  intros Hr. pose proof (repr_pos _ _ _ Hr) as Hn.
  destruct Hr as (Hw & Ht & Hs).
  destruct n as [| p | p]; try lia.
  unfold ofZ, binary_normalize.
  apply binary_round_exact; try assumption.
  apply scaled_sameValue; lia.
Qed.

(** Every whole number from 1 to [2 ^ 53] has a representation. *)
Lemma repr_small (n : Z) : 0 < n <= 2 ^ 53 -> exists w t, repr n w t.
Proof.
  intros [Hpos Hle]. destruct n as [| p | p]; try lia.
  pose proof (digits_bounds p) as [Hlo Hhi].
  set (d := Zpos (digits2_pos p)) in *.
  assert (Hd : 1 <= d) by (unfold d; lia).
  destruct (Z_le_gt_dec d 53) as [Hsmall | Hbig].
  - destruct (Z.eq_dec d 53) as [E | N].
    + exists p, 0. unfold repr. repeat split; lia.
    + assert (Hk : 0 < 53 - d) by lia.
      destruct (53 - d) as [| k | k] eqn:Ek; try lia.
      exists (Pos.iter xO p k), (d - 53). unfold repr.
      split; [| split; [lia |]].
      * pose proof (digits_shift p (Pos.iter xO p k) (Zpos k) d
                      ltac:(lia) eq_refl (iter_xO_value k p)) as Hds.
        lia.
      * unfold scaled. rewrite iter_xO_value.
        assert (E1 : 0 + 1074 = Zpos k + (d - 53 + 1074)) by lia.
        rewrite E1, (Z.pow_add_r 2 (Zpos k)) by lia. ring.
  - assert (Hp : Zpos p = 2 ^ 53).
    { assert (2 ^ 53 <= 2 ^ (d - 1)) by (apply Z.pow_le_mono_r; lia). lia. }
    exists (4503599627370496)%positive, 1. unfold repr.
    split; [reflexivity |]. split; [lia |]. rewrite Hp. reflexivity.
Qed.

(** The exponent of a whole number is at least [-52]. *)
Lemma repr_exponent (n : Z) (w : positive) (t : Z) : repr n w t -> -52 <= t.
Proof.
  intros Hr. pose proof (repr_pos _ _ _ Hr) as Hn.
  destruct Hr as (Hw & Ht & Hs).
  pose proof (digits_bounds w) as [_ Hhi]. rewrite Hw in Hhi.
  destruct (Z_le_gt_dec (-52) t) as [H | H]; [exact H | exfalso].
  unfold scaled in Hs.
  assert (E : 2 ^ (0 + 1074) = 2 ^ 53 * 2 ^ (-53 + 1074))
    by (rewrite <- Z.pow_add_r by lia; f_equal).
  assert (Hm : 2 ^ (t + 1074) <= 2 ^ (-53 + 1074))
    by (apply Z.pow_le_mono_r; lia).
  assert (0 < 2 ^ (t + 1074)) by (apply Z.pow_pos_nonneg; lia).
  assert (0 < 2 ^ (-53 + 1074)) by (apply Z.pow_pos_nonneg; lia).
  rewrite E in Hs. nia.
Qed.

(** The representation is unique. *)
Lemma repr_unique (n : Z) (w w' : positive) (t t' : Z) :
  repr n w t -> repr n w' t' -> w = w' /\ t = t'.
Proof.
  intros (Hw & Ht & Hs) (Hw' & Ht' & Hs').
  assert (Hsame : sameValue w t w' t')
    by (apply scaled_sameValue; try lia; congruence).
  destruct Hsame as [[Hle Hm] | [Hle Hm]].
  - pose proof (digits_shift w' w (t' - t) 53 ltac:(lia) Hw' Hm) as Hd.
    assert (t' = t) by lia. subst t'. rewrite Z.sub_diag, Z.mul_1_r in Hm.
    split; [congruence | reflexivity].
  - pose proof (digits_shift w w' (t - t') 53 ltac:(lia) Hw Hm) as Hd.
    assert (t' = t) by lia. subst t'. rewrite Z.sub_diag, Z.mul_1_r in Hm.
    split; [congruence | reflexivity].
Qed.

Lemma shl_align_scaled (m : positive) (e ez : Z) :
  -1074 <= ez -> ez <= e ->
  scaled (Zpos (fst (shl_align m e ez))) ez = scaled (Zpos m) e.
Proof.
  intros Hz He. unfold shl_align, scaled.
  destruct (ez - e) as [| k | k] eqn:Hk; try lia; cbn [fst].
  - assert (ez = e) by lia. now subst.
  - rewrite iter_xO_value.
    assert (E : e + 1074 = Zpos k + (ez + 1074)) by lia.
    rewrite E, (Z.pow_add_r 2 (Zpos k)) by lia. ring.
Qed.

Lemma scaled_add (m1 m2 e : Z) : scaled (m1 + m2) e = scaled m1 e + scaled m2 e.
Proof. unfold scaled. ring. Qed.

Lemma scaled_sub (m1 m2 e : Z) : scaled (m1 - m2) e = scaled m1 e - scaled m2 e.
Proof. unfold scaled. ring. Qed.

Lemma scaled_sign (m e : Z) : -1074 <= e -> (0 < scaled m e <-> 0 < m).
Proof.
  intros He. unfold scaled.
  assert (0 < 2 ^ (e + 1074)) by (apply Z.pow_pos_nonneg; lia).
  split; intros; nia.
Qed.

Lemma add_repr (a b : Z) (wa wb w : positive) (ta tb t : Z) :
  repr a wa ta -> repr b wb tb -> repr (a + b) w t ->
  add (S754_finite false wa ta) (S754_finite false wb tb)
  = S754_finite false w t.
Proof.
  intros (Hwa & Hta & Hsa) (Hwb & Htb & Hsb) (Hw & Ht & Hs).
  unfold add, SFadd. cbn [cond_Zopp].
  set (ez := Z.min ta tb).
  assert (Hez : -1074 <= ez) by (unfold ez; lia).
  pose proof (shl_align_scaled wa ta ez Hez ltac:(unfold ez; lia)) as Ha.
  pose proof (shl_align_scaled wb tb ez Hez ltac:(unfold ez; lia)) as Hb.
  change (Zpos (fst (shl_align wa ta ez)) + Zpos (fst (shl_align wb tb ez)))
    with (Zpos (fst (shl_align wa ta ez) + fst (shl_align wb tb ez))).
  cbn [binary_normalize]. apply binary_round_exact; try assumption.
  apply scaled_sameValue; try lia.
  rewrite Pos2Z.inj_add, scaled_add, Ha, Hb, Hsa, Hsb, Hs.
  unfold scaled. ring.
Qed.

Lemma sub_repr (a b : Z) (wa wb w : positive) (ta tb t : Z) :
  repr a wa ta -> repr b wb tb -> repr (a - b) w t ->
  sub (S754_finite false wa ta) (S754_finite false wb tb)
  = S754_finite false w t.
Proof.
  intros (Hwa & Hta & Hsa) (Hwb & Htb & Hsb) Hr.
  pose proof (repr_pos _ _ _ Hr) as Hpos. destruct Hr as (Hw & Ht & Hs).
  unfold sub, SFsub. cbn [cond_Zopp].
  set (ez := Z.min ta tb).
  assert (Hez : -1074 <= ez) by (unfold ez; lia).
  pose proof (shl_align_scaled wa ta ez Hez ltac:(unfold ez; lia)) as Ha.
  pose proof (shl_align_scaled wb tb ez Hez ltac:(unfold ez; lia)) as Hb.
  set (A := Zpos (fst (shl_align wa ta ez))) in *.
  set (B := Zpos (fst (shl_align wb tb ez))) in *.
  assert (Hval : scaled (A - B) ez = scaled (a - b) 0).
  { rewrite scaled_sub, Ha, Hb, Hsa, Hsb. unfold scaled. ring. }
  assert (HM : 0 < A - B).
  { apply (scaled_sign (A - B) ez Hez). rewrite Hval.
    apply scaled_sign; lia. }
  destruct (A - B) as [| p | p] eqn:Ep; try lia.
  cbn [binary_normalize]. apply binary_round_exact; try assumption.
  apply scaled_sameValue; [lia | lia | congruence].
Qed.

Lemma sub_repr_same (w : positive) (t : Z) :
  sub (S754_finite false w t) (S754_finite false w t) = S754_zero false.
Proof.
  unfold sub, SFsub. cbn [cond_Zopp]. rewrite Z.min_id.
  now rewrite Z.sub_diag.
Qed.

Lemma digits_lower (p : positive) (d : Z) :
  2 ^ d <= Zpos p -> d < Zpos (digits2_pos p).
Proof.
  intros H. pose proof (digits_bounds p) as [_ Hhi].
  destruct (Z_lt_le_dec d (Zpos (digits2_pos p))) as [L | L]; [exact L |].
  assert (2 ^ Zpos (digits2_pos p) <= 2 ^ d) by (apply Z.pow_le_mono_r; lia).
  lia.
Qed.

Lemma mul_repr (a b : Z) (wa wb w : positive) (ta tb t : Z) :
  repr a wa ta -> repr b wb tb -> repr (a * b) w t ->
  mul (S754_finite false wa ta) (S754_finite false wb tb)
  = S754_finite false w t.
Proof.
  intros Ha Hb (Hw & Ht & Hs).
  pose proof (repr_exponent _ _ _ Ha) as Hea.
  pose proof (repr_exponent _ _ _ Hb) as Heb.
  destruct Ha as (Hwa & Hta & Hsa). destruct Hb as (Hwb & Htb & Hsb).
  unfold mul, SFmul. cbn [xorb].
  assert (Hval : scaled (Zpos (wa * wb)) (ta + tb) = scaled (Zpos w) t).
  { rewrite Hs. unfold scaled in *.
    assert (P : 0 < 2 ^ (0 + 1074)) by (apply Z.pow_pos_nonneg; lia).
    apply (Z.mul_reg_r _ _ (2 ^ (0 + 1074))); [lia |].
    transitivity ((Zpos wa * 2 ^ (ta + 1074)) * (Zpos wb * 2 ^ (tb + 1074))).
    - rewrite Pos2Z.inj_mul.
      assert (E : 2 ^ (ta + tb + 1074) * 2 ^ (0 + 1074)
                  = 2 ^ (ta + 1074) * 2 ^ (tb + 1074)).
      { rewrite <- !Z.pow_add_r by lia. f_equal. lia. }
      rewrite <- Z.mul_assoc, E. ring.
    - rewrite Hsa, Hsb. ring. }
  pose proof (digits_bounds wa) as [Hloa _]. rewrite Hwa in Hloa.
  pose proof (digits_bounds wb) as [Hlob _]. rewrite Hwb in Hlob.
  assert (Hprod : 2 ^ 104 <= Zpos (wa * wb)).
  { rewrite Pos2Z.inj_mul.
    change (2 ^ 104) with (2 ^ (53 - 1) * 2 ^ (53 - 1)).
    apply Z.mul_le_mono_nonneg; lia. }
  pose proof (digits_lower _ _ Hprod) as Hdp.
  pose proof (scaled_sameValue (wa * wb) w (ta + tb) t ltac:(lia) ltac:(lia)
                Hval) as [[He Hm] | [He Hm]].
  - now apply binary_round_aux_exact.
  - pose proof (digits_shift (wa * wb) w (ta + tb - t) _ ltac:(lia)
                  eq_refl Hm) as Hd.
    lia.
Qed.

Lemma compare_repr (a b : Z) (wa wb : positive) (ta tb : Z) :
  repr a wa ta -> repr b wb tb ->
  SFcompare (S754_finite false wa ta) (S754_finite false wb tb)
  = Some (a ?= b).
Proof.
  intros (Hwa & Hta & Hsa) (Hwb & Htb & Hsb).
  pose proof (digits_bounds wa) as [Hloa Hhia]. rewrite Hwa in Hloa, Hhia.
  pose proof (digits_bounds wb) as [Hlob Hhib]. rewrite Hwb in Hlob, Hhib.
  change (2 ^ (53 - 1)) with 4503599627370496 in *.
  change (2 ^ 53) with 9007199254740992 in *.
  unfold scaled in Hsa, Hsb. replace (0 + 1074) with 1074 in * by lia.
  assert (P : 0 < 2 ^ 1074) by (apply Z.pow_pos_nonneg; lia).
  cbn [SFcompare]. f_equal.
  destruct (Z.compare_spec ta tb) as [E | L | G].
  - subst tb. change (Pos.compare_cont Eq wa wb) with (Zpos wa ?= Zpos wb).
    assert (Q : 0 < 2 ^ (ta + 1074)) by (apply Z.pow_pos_nonneg; lia).
    destruct (Z.compare_spec (Zpos wa) (Zpos wb)) as [E' | L' | G'];
      symmetry.
    + apply Z.compare_eq_iff. nia.
    + apply Z.compare_lt_iff. nia.
    + apply Z.compare_gt_iff. nia.
  - symmetry. apply Z.compare_lt_iff.
    assert (M : 2 * 2 ^ (ta + 1074) <= 2 ^ (tb + 1074)).
    { rewrite <- Z.pow_succ_r by lia. apply Z.pow_le_mono_r; lia. }
    assert (Q : 0 < 2 ^ (ta + 1074)) by (apply Z.pow_pos_nonneg; lia).
    nia.
  - symmetry. apply Z.compare_gt_iff.
    assert (M : 2 * 2 ^ (tb + 1074) <= 2 ^ (ta + 1074)).
    { rewrite <- Z.pow_succ_r by lia. apply Z.pow_le_mono_r; lia. }
    assert (Q : 0 < 2 ^ (tb + 1074)) by (apply Z.pow_pos_nonneg; lia).
    nia.
Qed.

Lemma ofZ_cases (n : Z) :
  whole n ->
  (n = 0 /\ ofZ n = S754_zero false)
  \/ (exists w t, repr n w t /\ ofZ n = S754_finite false w t).
Proof.
  intros [H0 H1]. destruct (Z.eq_dec n 0) as [-> | N].
  - left. split; reflexivity.
  - right. destruct (repr_small n ltac:(lia)) as (w & t & Hr).
    exists w, t. split; [exact Hr | now apply ofZ_repr].
Qed.

Lemma add_exact (a b : Z) :
  whole a -> whole b -> whole (a + b) ->
  add (ofZ a) (ofZ b) = ofZ (a + b).
Proof.
  intros Ha Hb Hab.
  destruct (ofZ_cases a Ha) as [[-> Ea] | (wa & ta & Ra & Ea)];
    destruct (ofZ_cases b Hb) as [[-> Eb] | (wb & tb & Rb & Eb)];
    rewrite ?Ea, ?Eb.
  - reflexivity.
  - cbn [Z.add]. rewrite Eb. reflexivity.
  - rewrite Z.add_0_r, Ea. reflexivity.
  - pose proof (repr_pos _ _ _ Ra). pose proof (repr_pos _ _ _ Rb).
    destruct (ofZ_cases (a + b) Hab) as [[E _] | (w & t & R & E)]; [lia |].
    rewrite E. now apply (add_repr a b).
Qed.

Lemma sub_exact (a b : Z) :
  whole a -> whole b -> b <= a ->
  sub (ofZ a) (ofZ b) = ofZ (a - b).
Proof.
  intros Ha Hb Hle.
  destruct (ofZ_cases a Ha) as [[-> Ea] | (wa & ta & Ra & Ea)];
    destruct (ofZ_cases b Hb) as [[-> Eb] | (wb & tb & Rb & Eb)];
    rewrite ?Ea, ?Eb.
  - reflexivity.
  - pose proof (repr_pos _ _ _ Rb). lia.
  - rewrite Z.sub_0_r, Ea. reflexivity.
  - pose proof (repr_pos _ _ _ Ra). pose proof (repr_pos _ _ _ Rb).
    destruct (Z.eq_dec a b) as [-> | N].
    + destruct (repr_unique _ _ _ _ _ Ra Rb) as [-> ->].
      rewrite Z.sub_diag. apply sub_repr_same.
    + assert (Hd : whole (a - b)) by (unfold whole in *; lia).
      destruct (ofZ_cases (a - b) Hd) as [[E _] | (w & t & R & E)]; [lia |].
      rewrite E. now apply (sub_repr a b).
Qed.

Lemma mul_exact (a b : Z) :
  whole a -> whole b -> whole (a * b) ->
  mul (ofZ a) (ofZ b) = ofZ (a * b).
Proof.
  intros Ha Hb Hab.
  destruct (ofZ_cases a Ha) as [[-> Ea] | (wa & ta & Ra & Ea)];
    destruct (ofZ_cases b Hb) as [[-> Eb] | (wb & tb & Rb & Eb)];
    rewrite ?Ea, ?Eb.
  - reflexivity.
  - reflexivity.
  - rewrite Z.mul_0_r. reflexivity.
  - pose proof (repr_pos _ _ _ Ra). pose proof (repr_pos _ _ _ Rb).
    destruct (ofZ_cases (a * b) Hab) as [[E _] | (w & t & R & E)]; [nia |].
    rewrite E. now apply (mul_repr a b).
Qed.

Lemma compare_exact (a b : Z) :
  whole a -> whole b -> SFcompare (ofZ a) (ofZ b) = Some (a ?= b).
Proof.
  intros Ha Hb.
  destruct (ofZ_cases a Ha) as [[-> Ea] | (wa & ta & Ra & Ea)];
    destruct (ofZ_cases b Hb) as [[-> Eb] | (wb & tb & Rb & Eb)];
    rewrite ?Ea, ?Eb.
  - reflexivity.
  - pose proof (repr_pos _ _ _ Rb). cbn [SFcompare]. f_equal.
    symmetry. now apply Z.compare_lt_iff.
  - pose proof (repr_pos _ _ _ Ra). cbn [SFcompare]. f_equal.
    symmetry. apply Z.compare_gt_iff. lia.
  - now apply compare_repr.
Qed.

Lemma geb_exact (a b : Z) :
  whole a -> whole b -> geb (ofZ a) (ofZ b) = (a >=? b).
Proof.
  intros Ha Hb. unfold geb, SFleb. rewrite (compare_exact b a Hb Ha).
  rewrite Z.geb_leb. unfold Z.leb. now destruct (b ?= a).
Qed.

Lemma strictEq_exact (a b : Z) :
  whole a -> whole b -> strictEq (ofZ a) (ofZ b) = (a =? b).
Proof.
  intros Ha Hb. unfold strictEq, SFeqb. rewrite (compare_exact a b Ha Hb).
  unfold Z.eqb, Z.compare. destruct a, b; try reflexivity; cbn;
    try (destruct (Pos.compare_spec p p0); subst;
         rewrite ?Pos.eqb_refl; try reflexivity;
         symmetry; apply Pos.eqb_neq; lia).
Qed.

End B64Numbers.

(** ** Binary64: the level-up loop on whole numbers *)

Lemma two_53 : 2 ^ 53 = 9007199254740992.
Proof. reflexivity. Qed.

Lemma toZ_ofZ (n : Z) : B64.whole n -> B64.toZ (B64.ofZ n) = n.
Proof.
  intros Hn.
  destruct (B64Numbers.ofZ_cases n Hn) as [[-> E] | (w & t & R & E)];
    rewrite E; [reflexivity |].
  destruct R as (_ & Ht & Hs). unfold B64.scaled in Hs.
  cbn [B64.toZ]. destruct (Z.leb_spec 0 t) as [H | H].
  - replace (t + 1074) with (t + (0 + 1074)) in Hs by lia.
    rewrite (Z.pow_add_r 2 t), Z.mul_assoc in Hs by lia.
    apply Z.mul_reg_r in Hs; [exact Hs |].
    apply Z.neq_sym, Z.lt_neq, Z.pow_pos_nonneg; lia.
  - replace (0 + 1074) with (- t + (t + 1074)) in Hs by lia.
    rewrite (Z.pow_add_r 2 (- t)), Z.mul_assoc in Hs by lia.
    apply Z.mul_reg_r in Hs;
      [| apply Z.neq_sym, Z.lt_neq, Z.pow_pos_nonneg; lia].
    rewrite Hs. apply Z.div_mul.
    apply Z.neq_sym, Z.lt_neq, Z.pow_pos_nonneg; lia.
Qed.

Lemma wholeNumber_ofZ (n : Z) : B64.whole n -> B64.wholeNumber (B64.ofZ n).
Proof.
  intros Hn. unfold B64.wholeNumber. rewrite (toZ_ofZ n Hn). now split.
Qed.

(** More fuel does not change the result of the loop. *)
Lemma levelUp_more_fuel (fuel : nat) :
  forall (newLevel newXp : B64.Number) (r : B64.Number * B64.Number) (k : nat),
    B64.levelUp fuel newLevel newXp = Some r ->
    B64.levelUp (fuel + k) newLevel newXp = Some r.
Proof.
  induction fuel as [| fuel IH]; intros newLevel newXp r k H;
    [discriminate |].
  cbn [B64.levelUp Nat.add] in *.
  destruct (B64.geb newXp (B64.mul B64.XP_PER_LEVEL newLevel));
    [now apply IH | exact H].
Qed.

(** One test of the loop's condition on whole numbers. *)
Lemma loop_test_exact (L X : Z) :
  B64.exactLoop L X ->
  B64.mul B64.XP_PER_LEVEL (B64.ofZ L) = B64.ofZ (100 * L)
  /\ B64.geb (B64.ofZ X) (B64.ofZ (100 * L)) = (X >=? 100 * L).
Proof.
  intros (HL & HX & Hl & Hx). rewrite two_53 in *.
  assert (W100 : B64.whole 100) by (unfold B64.whole; rewrite two_53; lia).
  assert (WL : B64.whole L) by (unfold B64.whole; rewrite two_53; lia).
  assert (WT : B64.whole (100 * L)) by (unfold B64.whole; rewrite two_53; lia).
  assert (WX : B64.whole X) by (unfold B64.whole; rewrite two_53; lia).
  split.
  - unfold B64.XP_PER_LEVEL. now apply B64Numbers.mul_exact.
  - now apply B64Numbers.geb_exact.
Qed.

Lemma loop_body_exact (L X : Z) :
  B64.exactLoop L X -> 100 * L <= X ->
  B64.add (B64.ofZ L) (B64.ofZ 1) = B64.ofZ (L + 1)
  /\ B64.sub (B64.ofZ X) (B64.ofZ (100 * L)) = B64.ofZ (X - 100 * L)
  /\ B64.exactLoop (L + 1) (X - 100 * L).
Proof.
  intros (HL & HX & Hl & Hx) Hge. unfold B64.exactLoop. rewrite two_53 in *.
  split; [| split].
  - apply B64Numbers.add_exact; unfold B64.whole; rewrite two_53; lia.
  - apply B64Numbers.sub_exact; unfold B64.whole; try rewrite two_53; lia.
  - lia.
Qed.

(** On whole numbers in range the loop on binary64 numbers computes
    what the loop on exact integers computes, and ends within
    [X / 100 + 1] tests. *)
Lemma levelUp_exact (fuel : nat) :
  forall L X : Z,
    B64.exactLoop L X ->
    (Z.to_nat (X / 100) < fuel)%nat ->
    exists L' E,
      levelUp L X = (L', E)
      /\ B64.exactLoop L' E
      /\ B64.levelUp fuel (B64.ofZ L) (B64.ofZ X)
         = Some (B64.ofZ L', B64.ofZ E).
Proof.
  induction fuel as [| fuel IH]; intros L X Hex Hfuel; [lia |].
  destruct (loop_test_exact L X Hex) as [Hmul Hgeb].
  rewrite levelUp_step. unfold loopCond, xpForNextLevel, XP_PER_LEVEL.
  cbn [B64.levelUp]. rewrite Hmul, Hgeb.
  destruct (X >=? 100 * L) eqn:Hc.
  - apply Z.geb_le in Hc.
    destruct (loop_body_exact L X Hex Hc) as (Hadd & Hsub & Hex').
    rewrite Hadd, Hsub. apply IH; [exact Hex' |].
    destruct Hex as (HL & HX & _).
    assert (Hdiv : (X - 100 * L) / 100 < X / 100).
    { replace (X - 100 * L) with (X + (- L) * 100) by lia.
      rewrite Z.div_add by lia. lia. }
    assert (0 <= (X - 100 * L) / 100) by (apply Z.div_pos; lia).
    lia.
  - exists L, X. split; [reflexivity | split; [exact Hex | reflexivity]].
Qed.

(** ** Binary64: the experience gained by an update *)

Lemma questCallback_fst (questId : string) (value : B64.Number)
    (q : B64.Quest.t) (acc : B64.Number) :
  fst (B64.questCallback questId value q acc) = B64.updatedQuest questId value q.
Proof.
  unfold B64.updatedQuest, B64.questCallback.
  destruct (_ && _); reflexivity.
Qed.

Lemma questCallback_snd (questId : string) (value : B64.Number)
    (q : B64.Quest.t) (acc : B64.Number) :
  snd (B64.questCallback questId value q acc)
  = if B64.awards questId value q then B64.add acc (B64.Quest.xp q) else acc.
Proof.
  unfold B64.awards, B64.questCallback.
  destruct (String.eqb _ _ && _); [| reflexivity].
  cbn [snd andb]. destruct (_ && _); reflexivity.
Qed.

Lemma mapQuests_fst (questId : string) (value : B64.Number)
    (quests : list B64.Quest.t) :
  forall acc,
    fst (B64.mapQuests questId value quests acc)
    = map (B64.updatedQuest questId value) quests.
Proof.
  induction quests as [| q rest IH]; intros acc; [reflexivity |].
  cbn [B64.mapQuests map].
  pose proof (questCallback_fst questId value q acc) as Hq.
  destruct (B64.questCallback questId value q acc) as [q' acc'].
  specialize (IH acc').
  destruct (B64.mapQuests questId value rest acc') as [rest' acc''].
  cbn [fst] in *. now rewrite Hq, IH.
Qed.

Lemma gained_nonneg (questId : string) (value : B64.Number)
    (quests : list B64.Quest.t) :
  B64.wholeRewards quests -> 0 <= B64.gained questId value quests.
Proof.
  induction 1 as [| q rest [[Hq _] _] _ IH]; cbn [B64.gained]; [lia |].
  destruct (B64.awards questId value q); lia.
Qed.

(** While the total stays within [2 ^ 53] the pending experience is
    the exact sum of the rewards awarded. *)
Lemma mapQuests_snd (questId : string) (value : B64.Number)
    (quests : list B64.Quest.t) :
  B64.wholeRewards quests ->
  forall acc,
    0 <= acc -> acc + B64.gained questId value quests <= 2 ^ 53 ->
    snd (B64.mapQuests questId value quests (B64.ofZ acc))
    = B64.ofZ (acc + B64.gained questId value quests).
Proof.
  induction 1 as [| q rest Hq Hrest IH]; intros acc Hacc Hsum.
  - cbn. now rewrite Z.add_0_r.
  - cbn [B64.mapQuests B64.gained] in *.
    pose proof (questCallback_snd questId value q (B64.ofZ acc)) as Hs.
    destruct (B64.questCallback questId value q (B64.ofZ acc)) as [q' acc'].
    cbn [snd] in Hs. subst acc'.
    pose proof (gained_nonneg questId value rest Hrest) as Hn.
    destruct Hq as [Hw Hx]. pose proof Hw as [Hw0 Hw1].
    remember (B64.toZ (B64.Quest.xp q)) as r eqn:Hr. clear Hr.
    rewrite two_53 in *.
    destruct (B64.awards questId value q).
    + rewrite Hx, B64Numbers.add_exact
        by (unfold B64.whole; rewrite two_53; lia).
      specialize (IH (acc + r) ltac:(lia) ltac:(lia)).
      destruct (B64.mapQuests questId value rest _) as [rest' acc''].
      cbn [snd] in *. rewrite IH. f_equal. lia.
    + specialize (IH acc Hacc ltac:(lia)).
      destruct (B64.mapQuests questId value rest _) as [rest' acc''].
      cbn [snd] in *. rewrite IH. f_equal.
Qed.

Lemma mapQuests_exact (questId : string) (value : B64.Number)
    (quests : list B64.Quest.t) :
  B64.wholeRewards quests ->
  B64.gained questId value quests <= 2 ^ 53 ->
  B64.mapQuests questId value quests (B64.ofZ 0)
  = (map (B64.updatedQuest questId value) quests,
     B64.ofZ (B64.gained questId value quests)).
Proof.
  intros Hw Hg.
  pose proof (mapQuests_fst questId value quests (B64.ofZ 0)) as H1.
  pose proof (mapQuests_snd questId value quests Hw 0 ltac:(lia) Hg) as H2.
  destruct (B64.mapQuests questId value quests (B64.ofZ 0)) as [qs g].
  cbn [fst snd] in *. now subst.
Qed.

(** The updater on a record of whole numbers in range: what it returns,
    in terms of the loop on exact integers. *)
Lemma updater_exact (prev : B64.UserState.t) (questId : string)
    (value : B64.Number) (L X : Z) :
  B64.UserState.level prev = B64.ofZ L ->
  B64.UserState.xp prev = B64.ofZ X ->
  B64.wholeRewards (B64.UserState.quests prev) ->
  1 <= L -> 0 <= X ->
  100 * L + X + B64.gained questId value (B64.UserState.quests prev)
    <= 2 ^ 53 ->
  let G := B64.gained questId value (B64.UserState.quests prev) in
  let newQuests :=
    map (B64.updatedQuest questId value) (B64.UserState.quests prev) in
  (G = 0 /\ B64.everyProgressSame newQuests (B64.UserState.quests prev) = true
   /\ forall fuel,
        B64.updateQuestProgress_updater fuel questId value (Some prev)
        = Some (Some prev))
  \/ (exists L' E,
        levelUp L (X + G) = (L', E)
        /\ B64.exactLoop L' E
        /\ forall fuel,
             (Z.to_nat ((X + G) / 100) < fuel)%nat ->
             B64.updateQuestProgress_updater fuel questId value (Some prev)
             = Some (Some (B64.UserState.mk (B64.ofZ L') (B64.ofZ E)
                             (B64.UserState.difficulty prev) newQuests
                             (B64.UserState.skills prev)
                             (B64.UserState.name prev)
                             (B64.UserState.lastLogin prev)
                             (B64.UserState.dailySteps prev)
                             (B64.UserState.dailyDistance prev)))).
Proof.
  intros HL HX Hw HL1 HX0 Hsum G newQuests.
  pose proof (gained_nonneg questId value _ Hw) as Hg. fold G in Hg, Hsum.
  rewrite two_53 in Hsum.
  assert (WG : B64.whole G) by (unfold B64.whole; rewrite two_53; lia).
  assert (W0 : B64.whole 0) by (unfold B64.whole; rewrite two_53; lia).
  assert (WX : B64.whole X) by (unfold B64.whole; rewrite two_53; lia).
  assert (Hmap : B64.mapQuests questId value (B64.UserState.quests prev)
                   (B64.ofZ 0) = (newQuests, B64.ofZ G)).
  { apply mapQuests_exact; [exact Hw | fold G; rewrite two_53; lia]. }
  unfold B64.updateQuestProgress_updater. rewrite Hmap.
  rewrite (B64Numbers.strictEq_exact G 0 WG W0).
  destruct ((G =? 0) && B64.everyProgressSame newQuests _) eqn:Hsame.
  - left. apply andb_true_iff in Hsame. destruct Hsame as [H0 Hev].
    apply Z.eqb_eq in H0. now repeat split.
  - right. rewrite HL, HX.
    rewrite (B64Numbers.add_exact X G WX WG)
      by (unfold B64.whole; rewrite two_53; lia).
    assert (Hex : B64.exactLoop L (X + G))
      by (unfold B64.exactLoop; rewrite two_53; lia).
    destruct (levelUp_exact (S (Z.to_nat ((X + G) / 100))) L (X + G) Hex
                ltac:(lia)) as (L' & E & Hz & Hex' & _).
    exists L', E. split; [exact Hz |]. split; [exact Hex' |].
    intros fuel Hfuel.
    destruct (levelUp_exact fuel L (X + G) Hex Hfuel)
      as (L2 & E2 & Hz2 & _ & Hrun).
    rewrite Hz in Hz2. injection Hz2 as <- <-. rewrite Hrun. reflexivity.
Qed.

(** C1.  For a record whose level [L >= 1], experience [0 <= xp < 100*L]
    and quest rewards are whole numbers, and an update whose pending
    experience [g] keeps [100*L + xp + g] within [2 ^ 53] (where
    binary64 sums of whole numbers are exact), [xpGained] is the number
    [g >= 0] after the [map], and the update ends and yields a whole level [L'] and residual experience [E] with
    [0 <= E < 100*L'] and [E + (100*L + ... + 100*(L'-1)) = xp + g]: the
    loop neither creates nor loses experience, and [L'] may exceed [L]
    by any number of levels. *)
Theorem updateQuestProgress_level_up_exact (prev : B64.UserState.t)
    (questId : string) (value : B64.Number) (L X : Z) :
  B64.UserState.level prev = B64.ofZ L ->
  B64.UserState.xp prev = B64.ofZ X ->
  B64.wholeRewards (B64.UserState.quests prev) ->
  1 <= L ->
  0 <= X < 100 * L ->
  100 * L + X + B64.gained questId value (B64.UserState.quests prev)
    <= 2 ^ 53 ->
  snd (B64.mapQuests questId value (B64.UserState.quests prev) (B64.ofZ 0))
  = B64.ofZ (B64.gained questId value (B64.UserState.quests prev))
  /\ 0 <= B64.gained questId value (B64.UserState.quests prev)
  /\ exists (fuel : nat) (next : B64.UserState.t) (L' E : Z),
       (forall k : nat,
           B64.updateQuestProgress_updater (fuel + k) questId value (Some prev)
           = Some (Some next))
       /\ B64.UserState.level next = B64.ofZ L'
       /\ B64.UserState.xp next = B64.ofZ E
       /\ L <= L'
       /\ 0 <= E < 100 * L'
       /\ E + sumThresholds L L'
          = X + B64.gained questId value (B64.UserState.quests prev).
Proof.
  intros HL HX Hw HL1 HX0 Hsum.
  pose proof (gained_nonneg questId value _ Hw) as Hg0.
  split.
  { rewrite mapQuests_exact; [reflexivity | exact Hw |].
    rewrite two_53 in *. lia. }
  split; [exact Hg0 |].
  destruct (updater_exact prev questId value L X HL HX Hw HL1
              ltac:(lia) Hsum)
    as [(HG & _ & Hrun) | (L' & E & Hz & Hex & Hrun)].
  - exists 0%nat, prev, L, X. rewrite HG, sumThresholds_same.
    split; [intros k; apply Hrun |]. repeat split; try assumption; lia.
  - pose proof (levelUp_spec L
                  (X + B64.gained questId value (B64.UserState.quests prev)))
      as Hs.
    rewrite Hz in Hs. destruct Hs as (Hle & Hlt & Hsm).
    unfold xpForNextLevel, XP_PER_LEVEL in Hlt.
    destruct Hex as (_ & HE & _).
    exists (S (Z.to_nat
                 ((X + B64.gained questId value (B64.UserState.quests prev))
                  / 100))).
    eexists. exists L', E.
    split; [intros k; apply Hrun; lia |].
    cbn [B64.UserState.level B64.UserState.xp].
    repeat split; try reflexivity; try assumption; lia.
Qed.

Lemma b64State_wholeRewards : B64.wholeRewards (B64.UserState.quests b64State).
Proof.
  repeat constructor; vm_compute; discriminate.
Qed.

Lemma updateQuestProgress_level_up_exact_witness :
  snd (B64.mapQuests "q1" (B64.ofZ 50) (B64.UserState.quests b64State)
         (B64.ofZ 0))
  = B64.ofZ (B64.gained "q1" (B64.ofZ 50) (B64.UserState.quests b64State))
  /\ 0 <= B64.gained "q1" (B64.ofZ 50) (B64.UserState.quests b64State)
  /\ exists (fuel : nat) (next : B64.UserState.t) (L' E : Z),
       (forall k : nat,
           B64.updateQuestProgress_updater (fuel + k) "q1" (B64.ofZ 50)
             (Some b64State)
           = Some (Some next))
       /\ B64.UserState.level next = B64.ofZ L'
       /\ B64.UserState.xp next = B64.ofZ E
       /\ 1 <= L'
       /\ 0 <= E < 100 * L'
       /\ E + sumThresholds 1 L'
          = 90 + B64.gained "q1" (B64.ofZ 50) (B64.UserState.quests b64State).
Proof.
  apply (updateQuestProgress_level_up_exact b64State "q1" (B64.ofZ 50) 1 90).
  - reflexivity.
  - reflexivity.
  - exact b64State_wholeRewards.
  - lia.
  - lia.
  - vm_compute. discriminate.
Defined.

(** C1, as stated, fails on binary64 numbers.  The record
    [b64LargeReward] has level 1 and experience 1; completing its
    quest gains [2 ^ 53].  The sum [1 + 2 ^ 53] is rounded to [2 ^ 53]
    before the loop runs, so the update ends at level 13421773 with
    402653192 experience left, which accounts for [2 ^ 53] only: one
    point of experience is lost. *)
Lemma experience_lost_above_2_53 :
  B64.UserState.level b64LargeReward = B64.ofZ 1
  /\ B64.UserState.xp b64LargeReward = B64.ofZ 1
  /\ B64.gained "q1" (B64.ofZ 1) (B64.UserState.quests b64LargeReward)
     = 2 ^ 53
  /\ (exists fuel : nat,
        forall k : nat,
        exists next : B64.UserState.t,
          B64.updateQuestProgress_updater (fuel + k) "q1" (B64.ofZ 1)
            (Some b64LargeReward)
          = Some (Some next)
          /\ B64.UserState.level next = B64.ofZ 13421773
          /\ B64.UserState.xp next = B64.ofZ 402653192)
  /\ 402653192 < 100 * 13421773
  /\ 402653192 + sumThresholds 1 13421773 = 2 ^ 53
  /\ 402653192 + sumThresholds 1 13421773 <> 1 + 2 ^ 53.
Proof.
  split; [reflexivity |]. split; [reflexivity |].
  split; [vm_compute; reflexivity |].
  assert (Hclosed : 402653192 + sumThresholds 1 13421773 = 2 ^ 53)
    by (rewrite sumThresholds_closed by lia; reflexivity).
  split; [| split; [lia | split; [exact Hclosed |]]].
  2: { rewrite Hclosed, two_53. lia. }
  assert (Hex : B64.exactLoop 1 (2 ^ 53))
    by (unfold B64.exactLoop; rewrite two_53; lia).
  destruct (levelUp_exact (S (Z.to_nat (2 ^ 53 / 100))) 1 (2 ^ 53) Hex
              ltac:(lia)) as (L' & E & Hz & Hex' & Hrun).
  pose proof (levelUp_spec 1 (2 ^ 53)) as Hs. rewrite Hz in Hs.
  destruct Hs as (Hle & Hlt & Hsm).
  unfold xpForNextLevel, XP_PER_LEVEL in Hlt.
  rewrite sumThresholds_closed in Hsm by exact Hle.
  destruct Hex' as (_ & H2 & _). rewrite two_53 in *.
  assert (HL' : L' = 13421773).
  { assert (L' < 13421774) by nia. assert (13421772 < L') by nia. lia. }
  subst L'. assert (HE : E = 402653192) by lia. subst E.
  exists (S (Z.to_nat (9007199254740992 / 100))).
  intros k. eexists. split.
  { unfold B64.updateQuestProgress_updater.
    let v := eval vm_compute in
        (B64.mapQuests "q1" (B64.ofZ 1)
           (B64.UserState.quests b64LargeReward) (B64.ofZ 0)) in
      change (B64.mapQuests "q1" (B64.ofZ 1)
                (B64.UserState.quests b64LargeReward) (B64.ofZ 0)) with v.
    cbv beta iota.
    change (B64.strictEq (S754_finite false 4503599627370496 1) (B64.ofZ 0))
      with false.
    cbn [andb].
    change (B64.add (B64.UserState.xp b64LargeReward)
              (S754_finite false 4503599627370496 1))
      with (B64.ofZ 9007199254740992).
    change (B64.UserState.level b64LargeReward) with (B64.ofZ 1).
    rewrite (levelUp_more_fuel _ _ _ _ k Hrun).
    reflexivity. }
  split; reflexivity.
Qed.

(** One update can raise the level more than once: from level 1 with
    90 experience, the 250 of the quest bring the record to level 3
    with 40 left, after three tests of the loop's condition. *)
Lemma two_level_ups_in_one_call (fuel : nat) :
  B64.updateQuestProgress_updater (3 + fuel) "q1" (B64.ofZ 50) (Some b64State)
  = Some (Some (B64.UserState.mk (B64.ofZ 3) (B64.ofZ 40) "E"
                  [B64.Quest.withProgress b64Pushups (B64.ofZ 50)]
                  [] "Jinwoo" 1704103200000 (B64.ofZ 0) (B64.ofZ 0))).
Proof. vm_compute. reflexivity. Qed.

(** ** Binary64: termination of the level-up loop *)

Lemma iterations_first (n : nat) (st : B64.Number * B64.Number) :
  B64.iterations (S n) st = B64.iterations n (B64.loopBody st).
Proof. unfold B64.iterations. apply Nat.iter_succ_r. Qed.

Lemma levelUp_iterations_exact (m : nat) :
  forall L X : Z,
    B64.exactLoop L X ->
    (Z.to_nat (X / 100) < m)%nat ->
    exists n : nat,
      Z.of_nat n * 100 <= X
      /\ (forall fuel : nat,
            (n < fuel)%nat ->
            B64.levelUp fuel (B64.ofZ L) (B64.ofZ X)
            = Some (B64.iterations n (B64.ofZ L, B64.ofZ X)))
      /\ B64.loopCond (B64.iterations n (B64.ofZ L, B64.ofZ X)) = false
      /\ (forall k : nat,
            (k < n)%nat ->
            B64.loopCond (B64.iterations k (B64.ofZ L, B64.ofZ X)) = true).
Proof.
  induction m as [| m IH]; intros L X Hex Hm; [lia |].
  destruct (loop_test_exact L X Hex) as [Hmul Hgeb].
  assert (Hcond : B64.loopCond (B64.ofZ L, B64.ofZ X) = (X >=? 100 * L)).
  { unfold B64.loopCond. cbn [fst snd]. now rewrite Hmul, Hgeb. }
  destruct (X >=? 100 * L) eqn:Hc.
  - apply Z.geb_le in Hc.
    destruct (loop_body_exact L X Hex Hc) as (Hadd & Hsub & Hex').
    assert (Hbody : B64.loopBody (B64.ofZ L, B64.ofZ X)
                    = (B64.ofZ (L + 1), B64.ofZ (X - 100 * L))).
    { unfold B64.loopBody. cbn [fst snd]. now rewrite Hmul, Hadd, Hsub. }
    destruct Hex as (HL & HX & _).
    assert (Hdiv : (X - 100 * L) / 100 < X / 100).
    { replace (X - 100 * L) with (X + (- L) * 100) by lia.
      rewrite Z.div_add by lia. lia. }
    assert (0 <= (X - 100 * L) / 100) by (apply Z.div_pos; lia).
    destruct (IH (L + 1) (X - 100 * L) Hex' ltac:(lia))
      as (n & Hn & Hrun & Hexit & Hbefore).
    exists (S n). rewrite iterations_first, Hbody.
    split; [lia |]. split; [| split; [exact Hexit |]].
    + intros [| fuel] Hfuel; [lia |]. cbn [B64.levelUp].
      rewrite Hmul, Hgeb, Hadd, Hsub.
      apply Hrun. lia.
    + intros [| k] Hk; [exact Hcond |].
      rewrite iterations_first, Hbody. apply Hbefore. lia.
  - exists 0%nat. cbn [B64.iterations Nat.iter].
    split; [destruct Hex; lia |]. split; [| split; [exact Hcond |]].
    + intros [| fuel] Hfuel; [lia |]. cbn [B64.levelUp].
      now rewrite Hmul, Hgeb.
    + intros k Hk. lia.
Qed.

(** C9.  The level-up loop terminates from every whole level [L >= 1]
    and every whole experience total [x >= 0] with [100*L + x] within
    [2 ^ 53]: it leaves after some [n <= x / 100] runs of its body,
    before each of which its condition holds, with the state those [n]
    runs give. *)
Theorem level_up_loop_terminates_exact (L x : Z) :
  1 <= L -> 0 <= x -> 100 * L + x <= 2 ^ 53 ->
  exists n : nat,
    Z.of_nat n * 100 <= x
    /\ (forall fuel : nat,
          (n < fuel)%nat ->
          B64.levelUp fuel (B64.ofZ L) (B64.ofZ x)
          = Some (B64.iterations n (B64.ofZ L, B64.ofZ x)))
    /\ B64.loopCond (B64.iterations n (B64.ofZ L, B64.ofZ x)) = false
    /\ (forall k : nat,
          (k < n)%nat ->
          B64.loopCond (B64.iterations k (B64.ofZ L, B64.ofZ x)) = true).
Proof.
  intros HL Hx Hsum.
  apply (levelUp_iterations_exact (S (Z.to_nat (x / 100)))); [| lia].
  unfold B64.exactLoop. rewrite two_53 in *. lia.
Qed.

Lemma level_up_loop_terminates_exact_witness :
  exists n : nat,
    Z.of_nat n * 100 <= 250
    /\ (forall fuel : nat,
          (n < fuel)%nat ->
          B64.levelUp fuel (B64.ofZ 1) (B64.ofZ 250)
          = Some (B64.iterations n (B64.ofZ 1, B64.ofZ 250)))
    /\ B64.loopCond (B64.iterations n (B64.ofZ 1, B64.ofZ 250)) = false
    /\ (forall k : nat,
          (k < n)%nat ->
          B64.loopCond (B64.iterations k (B64.ofZ 1, B64.ofZ 250)) = true).
Proof.
  apply (level_up_loop_terminates_exact 1 250).
  - lia.
  - lia.
  - vm_compute. discriminate.
Defined.

(** At level [2 ^ 53] with [1e40] experience a run of the loop's body
    changes nothing, and the loop is still running after any number of
    tests. *)
Lemma levelUp_stuck :
  B64.loopCond (B64.ofZ (2 ^ 53), b64_1e40) = true
  /\ B64.loopBody (B64.ofZ (2 ^ 53), b64_1e40) = (B64.ofZ (2 ^ 53), b64_1e40)
  /\ forall fuel : nat,
       B64.levelUp fuel (B64.ofZ (2 ^ 53)) b64_1e40 = None.
Proof.
  assert (Hcond : B64.loopCond (B64.ofZ (2 ^ 53), b64_1e40) = true)
    by (vm_compute; reflexivity).
  assert (Hbody : B64.loopBody (B64.ofZ (2 ^ 53), b64_1e40)
                  = (B64.ofZ (2 ^ 53), b64_1e40))
    by (vm_compute; reflexivity).
  split; [exact Hcond |]. split; [exact Hbody |].
  induction fuel as [| fuel IH]; [reflexivity |].
  cbn [B64.levelUp].
  change (B64.geb b64_1e40 (B64.mul B64.XP_PER_LEVEL (B64.ofZ (2 ^ 53))))
    with (B64.loopCond (B64.ofZ (2 ^ 53), b64_1e40)).
  rewrite Hcond.
  change (B64.levelUp fuel (B64.add (B64.ofZ (2 ^ 53)) (B64.ofZ 1))
            (B64.sub b64_1e40 (B64.mul B64.XP_PER_LEVEL (B64.ofZ (2 ^ 53)))))
    with (B64.levelUp fuel
            (fst (B64.loopBody (B64.ofZ (2 ^ 53), b64_1e40)))
            (snd (B64.loopBody (B64.ofZ (2 ^ 53), b64_1e40)))).
  rewrite Hbody. exact IH.
Qed.

(** C9, as stated, fails on binary64 numbers.  At level [2 ^ 53] with
    the finite experience total [1e40] the condition of the loop holds,
    [newLevel++] gives [2 ^ 53] again and the subtraction gives [1e40]
    again: the loop is still running after any number of tests. *)
Lemma level_up_loop_runs_forever :
  B64.geb (B64.ofZ (2 ^ 53)) (B64.ofZ 1) = true
  /\ B64.isFinite b64_1e40 = true
  /\ B64.geb b64_1e40 (B64.ofZ 0) = true
  /\ B64.loopCond (B64.ofZ (2 ^ 53), b64_1e40) = true
  /\ B64.loopBody (B64.ofZ (2 ^ 53), b64_1e40) = (B64.ofZ (2 ^ 53), b64_1e40)
  /\ forall fuel : nat,
       B64.levelUp fuel (B64.ofZ (2 ^ 53)) b64_1e40 = None.
Proof.
  split; [vm_compute; reflexivity |].
  split; [vm_compute; reflexivity |].
  split; [vm_compute; reflexivity |].
  exact levelUp_stuck.
Qed.

(** ** Binary64: comparisons *)

Lemma compare_cont_antisym (m n : positive) :
  Pos.compare_cont Eq n m = CompOpp (Pos.compare_cont Eq m n).
Proof. symmetry. apply (Pos.compare_cont_antisym m n Eq). Qed.

Lemma compare_antisym (x y : B64.Number) :
  SFcompare y x = option_map CompOpp (SFcompare x y).
Proof.
  destruct x as [sx | sx | | sx mx ex], y as [sy | sy | | sy my ey];
    unfold SFcompare; cbn [option_map];
    try reflexivity;
    try (destruct sx; reflexivity); try (destruct sy; reflexivity);
    try (destruct sx, sy; reflexivity).
  f_equal.
  destruct sx, sy; try reflexivity;
    rewrite (Z.compare_antisym ex ey), (compare_cont_antisym mx my);
    destruct (ex ?= ey); cbn [CompOpp]; try reflexivity;
    destruct (Pos.compare_cont Eq mx my); reflexivity.
Qed.

Lemma ltb_not_geb (p g : B64.Number) :
  B64.ltb p g = true -> B64.geb p g = false.
Proof.
  unfold B64.geb, B64.ltb, SFleb, SFltb. rewrite (compare_antisym p g).
  destruct (SFcompare p g) as [[] |]; cbn; congruence.
Qed.

(** [a === b] holds of one number and itself and of the two zeros. *)
Lemma strictEq_cases (a b : B64.Number) :
  B64.strictEq a b = true ->
  a = b \/ exists s s', a = S754_zero s /\ b = S754_zero s'.
Proof.
  unfold B64.strictEq, SFeqb.
  destruct a as [sa | sa | | sa ma ea], b as [sb | sb | | sb mb eb]; cbn;
    try (destruct sa); try (destruct sb); cbn; try discriminate; intros H;
    try (left; reflexivity);
    try (right; eexists; eexists; split; reflexivity).
  all: destruct (ea ?= eb) eqn:He; try discriminate;
    apply Z.compare_eq in He; subst eb;
    destruct (Pos.compare_cont Eq ma mb) eqn:Hm; try discriminate;
    apply Pos.compare_eq in Hm; subst mb; now left.
Qed.

Lemma strictEq_geb (a b g : B64.Number) :
  B64.strictEq a b = true -> B64.geb a g = B64.geb b g.
Proof.
  intros H. destruct (strictEq_cases a b H) as [-> | (s & s' & -> & ->)];
    [reflexivity |].
  destruct g as [sg | sg | | sg mg eg]; reflexivity.
Qed.

Lemma Math_min_cases (x y : B64.Number) :
  B64.Math_min x y = x \/ B64.Math_min x y = y \/ B64.Math_min x y = B64.NaN.
Proof.
  unfold B64.Math_min.
  destruct (_ || _); [now right; right |].
  destruct (B64.ltb y x); [now right; left |].
  destruct (B64.ltb x y); [now left |].
  destruct x as [[] | | |]; auto.
Qed.

(** A quest short of its goal whose progress a positive delta does not
    change under [===] keeps its very progress. *)
Lemma absorbed_delta (p d g : B64.Number) :
  B64.ltb p g = true ->
  B64.ltb (B64.ofZ 0) d = true ->
  B64.strictEq (B64.Math_min (B64.add p d) g) p = true ->
  B64.Math_min (B64.add p d) g = p.
Proof.
  intros Hlt Hd Heq.
  destruct (strictEq_cases _ _ Heq) as [E | (s & s' & E & ->)]; [exact E |].
  exfalso.
  assert (Hadd : B64.add (S754_zero s') d = d).
  { destruct d as [sd | sd | | sd md ed]; try discriminate; reflexivity. }
  rewrite Hadd in E.
  destruct (Math_min_cases d g) as [H | [H | H]]; rewrite H in E.
  - subst d. discriminate.
  - subst g. discriminate.
  - discriminate.
Qed.

(** ** Binary64: one quest under an update *)

Lemma award_completes_quest (questId : string) (value : B64.Number)
    (q : B64.Quest.t) :
  ((if B64.awards questId value q then 1 else 0)
   + (if B64.isCompleted q then 1 else 0)
   = (if B64.isCompleted (B64.updatedQuest questId value q) then 1 else 0))%nat.
Proof.
  unfold B64.awards, B64.updatedQuest, B64.questCallback, B64.isCompleted.
  destruct (String.eqb _ _); cbn [andb fst]; [| reflexivity].
  destruct (B64.ltb (B64.Quest.progress q) (B64.Quest.goal q)) eqn:Hlt;
    cbn [andb fst]; [| reflexivity].
  rewrite (ltb_not_geb _ _ Hlt). cbn [B64.Quest.progress B64.Quest.goal
    B64.Quest.withProgress].
  rewrite andb_true_r. now rewrite Nat.add_0_r.
Qed.

Lemma updatedQuest_xp (questId : string) (value : B64.Number)
    (q : B64.Quest.t) :
  B64.Quest.xp (B64.updatedQuest questId value q) = B64.Quest.xp q.
Proof.
  unfold B64.updatedQuest, B64.questCallback. destruct (_ && _); reflexivity.
Qed.

Lemma updatedQuest_goal (questId : string) (value : B64.Number)
    (q : B64.Quest.t) :
  B64.Quest.goal (B64.updatedQuest questId value q) = B64.Quest.goal q.
Proof.
  unfold B64.updatedQuest, B64.questCallback. destruct (_ && _); reflexivity.
Qed.

(** An update that runs [xpGained += q.xp] changes the quest's
    progress under [===]. *)
Lemma awards_changes (questId : string) (value : B64.Number)
    (q : B64.Quest.t) :
  B64.strictEq (B64.Quest.progress (B64.updatedQuest questId value q))
    (B64.Quest.progress q) = true ->
  B64.awards questId value q = false.
Proof.
  intros Heq.
  pose proof (award_completes_quest questId value q) as Hc.
  unfold B64.isCompleted in Hc.
  rewrite updatedQuest_goal, (strictEq_geb _ _ _ Heq) in Hc.
  destruct (B64.awards questId value q); [| reflexivity].
  destruct (B64.geb _ _); lia.
Qed.

Lemma everyProgressSame_at (f : B64.Quest.t -> B64.Quest.t)
    (quests : list B64.Quest.t) :
  B64.everyProgressSame (map f quests) quests = true ->
  forall (i : nat) (q : B64.Quest.t),
    nth_error quests i = Some q ->
    B64.strictEq (B64.Quest.progress (f q)) (B64.Quest.progress q) = true.
Proof.
  induction quests as [| q0 rest IH]; intros H i q Hq.
  - destruct i; discriminate.
  - cbn [map B64.everyProgressSame] in H. apply andb_true_iff in H.
    destruct H as [H0 Hrest]. destruct i as [| i].
    + cbn in Hq. injection Hq as <-. exact H0.
    + cbn in Hq. exact (IH Hrest i q Hq).
Qed.

Lemma wholeRewards_map (questId : string) (value : B64.Number)
    (quests : list B64.Quest.t) :
  B64.wholeRewards quests ->
  B64.wholeRewards (map (B64.updatedQuest questId value) quests).
Proof.
  induction 1 as [| q rest Hq _ IH]; cbn [map]; constructor; [| exact IH].
  now rewrite updatedQuest_xp.
Qed.

Lemma pending_nonneg (quests : list B64.Quest.t) :
  B64.wholeRewards quests -> 0 <= B64.pending quests.
Proof.
  induction 1 as [| q rest [[Hq _] _] _ IH]; cbn [B64.pending]; [lia |].
  destruct (B64.isCompleted q); lia.
Qed.

(** What an update awards is no longer pending. *)
Lemma pending_step (questId : string) (value : B64.Number)
    (quests : list B64.Quest.t) :
  B64.pending (map (B64.updatedQuest questId value) quests)
  + B64.gained questId value quests
  = B64.pending quests.
Proof.
  induction quests as [| q rest IH]; [reflexivity |].
  cbn [map B64.pending B64.gained].
  pose proof (award_completes_quest questId value q) as Hc.
  rewrite updatedQuest_xp.
  destruct (B64.awards questId value q), (B64.isCompleted q),
    (B64.isCompleted (B64.updatedQuest questId value q)); lia.
Qed.

(** ** Binary64: records in range under updates *)

Lemma sumThresholds_lower (L L' : Z) :
  1 <= L -> L <= L' -> 100 * (L' - L) <= sumThresholds L L'.
Proof.
  intros H1 Hle. rewrite sumThresholds_closed by exact Hle.
  destruct (Z.eq_dec L L') as [-> | Hne]; [lia |].
  assert (0 <= (L' - L) * (L' + L - 3))
    by (apply Z.mul_nonneg_nonneg; lia).
  lia.
Qed.

Lemma fuel_bound (X : Z) (fuel : nat) :
  0 <= X <= 2 ^ 53 ->
  (Z.to_nat (2 ^ 53 / 100) < fuel)%nat ->
  (Z.to_nat (X / 100) < fuel)%nat.
Proof.
  intros HX Hfuel.
  assert (Hdiv : X / 100 <= 2 ^ 53 / 100) by (apply Z.div_le_mono; lia).
  apply Z2Nat.inj_le in Hdiv.
  - generalize dependent (Z.to_nat (2 ^ 53 / 100)). intros; lia.
  - apply Z.div_pos; lia.
  - apply Z.div_pos; [rewrite two_53 |]; lia.
Qed.

(** An update of a record in range ends, within a number of tests that
    does not depend on the record, in a record in range. *)
Lemma step_inRange (st : B64.UserState.t) (questId : string)
    (value : B64.Number) :
  B64.inRange st ->
  exists st' : B64.UserState.t,
    (forall fuel : nat,
        (Z.to_nat (2 ^ 53 / 100) < fuel)%nat ->
        B64.updateQuestProgress_updater fuel questId value (Some st)
        = Some (Some st'))
    /\ B64.inRange st'
    /\ B64.cumulativeXp st'
       = B64.cumulativeXp st + B64.gained questId value (B64.UserState.quests st)
    /\ ((st' = st
         /\ B64.everyProgressSame
              (map (B64.updatedQuest questId value) (B64.UserState.quests st))
              (B64.UserState.quests st) = true)
        \/ B64.UserState.quests st'
           = map (B64.updatedQuest questId value) (B64.UserState.quests st))
    /\ (B64.toZ (B64.UserState.xp st) < 100 * B64.toZ (B64.UserState.level st)
        -> B64.toZ (B64.UserState.xp st')
           < 100 * B64.toZ (B64.UserState.level st')).
Proof.
  intros Hin. pose proof Hin as ([WL EL] & [WX EX] & Hw & HL1 & Hsum).
  pose proof (pending_step questId value (B64.UserState.quests st)) as Hp.
  pose proof (pending_nonneg _ (wholeRewards_map questId value _ Hw)) as Hp0.
  pose proof (gained_nonneg questId value _ Hw) as Hg0.
  unfold B64.cumulativeXp.
  remember (B64.toZ (B64.UserState.level st)) as L eqn:HeqL.
  remember (B64.toZ (B64.UserState.xp st)) as X eqn:HeqX.
  remember (B64.gained questId value (B64.UserState.quests st)) as G eqn:HeqG.
  destruct WX as [WX0 WX1].
  assert (Hsum' : 100 * L + X + G <= 2 ^ 53) by lia.
  destruct (updater_exact st questId value L X EL EX Hw HL1 WX0
              ltac:(rewrite <- HeqG; exact Hsum'))
    as [(HG & Hsame & Hrun) | (L' & E & Hz & Hex & Hrun)];
    rewrite <- HeqG in *.
  - exists st. rewrite <- HeqL, <- HeqX.
    split; [intros fuel _; apply Hrun |]. split; [exact Hin |].
    split; [lia |]. split; [left; now split | tauto].
  - pose proof (levelUp_spec L (X + G)) as Hs. rewrite Hz in Hs.
    destruct Hs as (Hle & Hlt & Hsm).
    unfold xpForNextLevel, XP_PER_LEVEL in Hlt.
    pose proof (sumThresholds_lower L L' HL1 Hle) as Hlow.
    rewrite sumThresholds_closed in Hsm by exact Hle.
    pose proof Hex as (HL'1 & HE0 & HL'2 & HE2).
    assert (WL' : B64.whole L') by (unfold B64.whole; lia).
    assert (WE : B64.whole E).
    { unfold B64.whole. rewrite two_53 in *. lia. }
    eexists. split.
    { intros fuel Hfuel. apply Hrun.
      apply fuel_bound; [| exact Hfuel]. rewrite two_53 in *. lia. }
    cbn [B64.UserState.level B64.UserState.xp B64.UserState.quests].
    rewrite !(toZ_ofZ L' WL'), !(toZ_ofZ E WE).
    split; [| split; [lia | split; [now right | intros _; exact Hlt]]].
    unfold B64.inRange.
    cbn [B64.UserState.level B64.UserState.xp B64.UserState.quests].
    rewrite !(toZ_ofZ L' WL'), !(toZ_ofZ E WE).
    split; [now apply wholeNumber_ofZ |].
    split; [now apply wholeNumber_ofZ |].
    split; [now apply wholeRewards_map |].
    split; [exact HL'1 |].
    rewrite sumThresholds_closed in Hlow by exact Hle. lia.
Qed.

(** The quest at a position of the record an update leaves. *)
Lemma step_quest (st st' : B64.UserState.t) (questId : string)
    (value : B64.Number) (i : nat) (q : B64.Quest.t) :
  nth_error (B64.UserState.quests st) i = Some q ->
  (st' = st
   /\ B64.everyProgressSame
        (map (B64.updatedQuest questId value) (B64.UserState.quests st))
        (B64.UserState.quests st) = true)
  \/ B64.UserState.quests st'
     = map (B64.updatedQuest questId value) (B64.UserState.quests st) ->
  exists q' : B64.Quest.t,
    nth_error (B64.UserState.quests st') i = Some q'
    /\ ((q' = q
         /\ B64.strictEq
              (B64.Quest.progress (B64.updatedQuest questId value q))
              (B64.Quest.progress q) = true)
        \/ q' = B64.updatedQuest questId value q)
    /\ ((if B64.awards questId value q then 1 else 0)
        + (if B64.isCompleted q then 1 else 0)
        = (if B64.isCompleted q' then 1 else 0))%nat.
Proof.
  intros Hq [[-> Hsame] | Hmap].
  - exists q. split; [exact Hq |].
    pose proof (everyProgressSame_at _ _ Hsame i q Hq) as Heq.
    split; [left; now split |].
    now rewrite (awards_changes questId value q Heq).
  - exists (B64.updatedQuest questId value q).
    split; [rewrite Hmap, nth_error_map, Hq; reflexivity |].
    split; [now right | apply award_completes_quest].
Qed.

Lemma awardsAt_nth (st : B64.UserState.t) (questId : string)
    (value : B64.Number) (i : nat) (q : B64.Quest.t) :
  nth_error (B64.UserState.quests st) i = Some q ->
  B64.awardsAt i questId value st = B64.awards questId value q.
Proof. intros H. unfold B64.awardsAt. now rewrite H. Qed.

Lemma updatedQuest_map_xp (questId : string) (value : B64.Number)
    (quests : list B64.Quest.t) :
  map B64.Quest.xp (map (B64.updatedQuest questId value) quests)
  = map B64.Quest.xp quests.
Proof.
  rewrite map_map. apply map_ext. intros q. apply updatedQuest_xp.
Qed.

(** Any sequence of updates of a record in range ends in a record in
    range; the experience credited and the rewards still pending add up
    to what they were. *)
Lemma run_conserves (updates : list (string * B64.Number)) :
  forall (st : B64.UserState.t) (i : nat),
    B64.inRange st ->
    exists (final : B64.UserState.t) (n : nat),
      (forall fuel : nat,
          (Z.to_nat (2 ^ 53 / 100) < fuel)%nat ->
          B64.runUpdates fuel i updates st = Some (final, n))
      /\ B64.inRange final
      /\ B64.cumulativeXp final + B64.pending (B64.UserState.quests final)
         = B64.cumulativeXp st + B64.pending (B64.UserState.quests st)
      /\ map B64.Quest.xp (B64.UserState.quests final)
         = map B64.Quest.xp (B64.UserState.quests st)
      /\ (B64.toZ (B64.UserState.xp st)
          < 100 * B64.toZ (B64.UserState.level st)
          -> B64.toZ (B64.UserState.xp final)
             < 100 * B64.toZ (B64.UserState.level final)).
Proof.
  induction updates as [| [questId value] rest IH]; intros st i Hin.
  - exists st, 0%nat. repeat split; try assumption; try apply Hin. tauto.
  - destruct (step_inRange st questId value Hin)
      as (st' & Hrun & Hin' & Hcum & Hcase & Hcanon).
    destruct (IH st' i Hin') as (final & n & Hrest & Hf & Hsum & Hxp & Hc).
    exists final, ((if B64.awardsAt i questId value st then 1 else 0) + n)%nat.
    pose proof (pending_step questId value (B64.UserState.quests st)) as Hp.
    split; [| split; [exact Hf | split; [| split]]].
    + intros fuel Hfuel. cbn [B64.runUpdates].
      now rewrite (Hrun fuel Hfuel), (Hrest fuel Hfuel).
    + destruct Hcase as [[-> _] | Hmap]; [lia |]. rewrite Hmap in Hsum. lia.
    + rewrite Hxp. destruct Hcase as [[-> _] | Hmap]; [reflexivity |].
      rewrite Hmap. apply updatedQuest_map_xp.
    + intros H. apply Hc, Hcanon, H.
Qed.

(** What an update that ends returns, whatever the numbers. *)
Lemma updater_shape (fuel : nat) (questId : string) (value : B64.Number)
    (st st' : B64.UserState.t) :
  B64.updateQuestProgress_updater fuel questId value (Some st)
  = Some (Some st') ->
  (st' = st
   /\ B64.everyProgressSame
        (map (B64.updatedQuest questId value) (B64.UserState.quests st))
        (B64.UserState.quests st) = true)
  \/ (B64.UserState.quests st'
      = map (B64.updatedQuest questId value) (B64.UserState.quests st)
      /\ B64.levelUp fuel (B64.UserState.level st)
           (B64.add (B64.UserState.xp st)
              (snd (B64.mapQuests questId value (B64.UserState.quests st)
                      (B64.ofZ 0))))
         = Some (B64.UserState.level st', B64.UserState.xp st')).
Proof.
  unfold B64.updateQuestProgress_updater.
  pose proof (mapQuests_fst questId value (B64.UserState.quests st)
                (B64.ofZ 0)) as Hfst.
  destruct (B64.mapQuests questId value (B64.UserState.quests st) (B64.ofZ 0))
    as [newQuests xpGained].
  cbn [fst snd] in *. subst newQuests.
  destruct (B64.strictEq xpGained (B64.ofZ 0) && _) eqn:Hsame.
  - intros H. injection H as <-. left.
    apply andb_true_iff in Hsame. now split.
  - destruct (B64.levelUp fuel _ _) as [[newLevel newXp] |];
      [| discriminate].
    intros H. injection H as <-. right. now split.
Qed.

(** Over any updates that end, a quest is awarded once if it is
    complete at the end and was not at the start, and not at all
    otherwise. *)
Lemma run_awards (updates : list (string * B64.Number)) :
  forall (fuel : nat) (st final : B64.UserState.t) (i n : nat)
         (q : B64.Quest.t),
    nth_error (B64.UserState.quests st) i = Some q ->
    B64.runUpdates fuel i updates st = Some (final, n) ->
    exists qe : B64.Quest.t,
      nth_error (B64.UserState.quests final) i = Some qe
      /\ (n + (if B64.isCompleted q then 1 else 0)
          = (if B64.isCompleted qe then 1 else 0))%nat.
Proof.
  induction updates as [| [questId value] rest IH];
    intros fuel st final i n q Hq Hrun.
  - cbn in Hrun. injection Hrun as <- <-. now exists q.
  - cbn [B64.runUpdates] in Hrun.
    destruct (B64.updateQuestProgress_updater fuel questId value (Some st))
      as [[st' |] |] eqn:Hupd; try discriminate.
    destruct (B64.runUpdates fuel i rest st') as [[final' n'] |] eqn:Hrest;
      [| discriminate].
    injection Hrun as <- <-.
    destruct (updater_shape _ _ _ _ _ Hupd) as [Hsame | [Hmap _]].
    + destruct (step_quest st st' questId value i q Hq (or_introl Hsame))
        as (q' & Hq' & _ & Hcount).
      destruct (IH fuel st' final' i n' q' Hq' Hrest) as (qe & Hqe & Hn).
      exists qe. split; [exact Hqe |].
      rewrite (awardsAt_nth st questId value i q Hq). lia.
    + destruct (step_quest st st' questId value i q Hq (or_intror Hmap))
        as (q' & Hq' & _ & Hcount).
      destruct (IH fuel st' final' i n' q' Hq' Hrest) as (qe & Hqe & Hn).
      exists qe. split; [exact Hqe |].
      rewrite (awardsAt_nth st questId value i q Hq). lia.
Qed.

(** C2.  A quest [q] of the active set (at position [i]) that is short
    of its goal is updated by a delta [d > 0] under its identifier.
    Whenever the update ends,
    - the quest's new progress is [Math.min(progress + d, goal)], where
      the sum is the binary64 sum, rounded to the nearest number, and
      nothing else of the quest changes;
    - the callback adds its reward to the pending experience
      [xpGained] iff [progress < goal <= new progress];
    - the record is returned as it is (and then no reward was added),
      or the pending experience is added to the record's experience
      and the level-up loop is run on the sum;
    - over this update and any [later] ones that end, the reward is
      awarded exactly once if the quest ends up complete and not at all
      otherwise, and never again once the quest is complete.
    For a record of whole numbers in range this update and the later
    ones do end, and all experience ever credited to the record grows
    by the pending experience, the rewards of the quests so awarded. *)
Theorem quest_progress_and_award_rounded (prev : B64.UserState.t) (i : nat)
    (q : B64.Quest.t) (d : B64.Number)
    (later : list (string * B64.Number)) :
  nth_error (B64.UserState.quests prev) i = Some q ->
  B64.ltb (B64.Quest.progress q) (B64.Quest.goal q) = true ->
  B64.ltb (B64.ofZ 0) d = true ->
  (forall (fuel : nat) (next : B64.UserState.t),
      B64.updateQuestProgress_updater fuel (B64.Quest.id q) d (Some prev)
      = Some (Some next) ->
      exists q' : B64.Quest.t,
        nth_error (B64.UserState.quests next) i = Some q'
        /\ B64.Quest.progress q'
           = B64.Math_min (B64.add (B64.Quest.progress q) d)
               (B64.Quest.goal q)
        /\ q' = B64.Quest.withProgress q (B64.Quest.progress q')
        /\ (B64.awards (B64.Quest.id q) d q = true
            <-> (B64.ltb (B64.Quest.progress q) (B64.Quest.goal q) = true
                 /\ B64.geb (B64.Quest.progress q') (B64.Quest.goal q)
                    = true))
        /\ (forall xpGained : B64.Number,
              snd (B64.questCallback (B64.Quest.id q) d q xpGained)
              = if B64.geb (B64.Quest.progress q') (B64.Quest.goal q)
                then B64.add xpGained (B64.Quest.xp q)
                else xpGained)
        /\ ((next = prev /\ B64.awards (B64.Quest.id q) d q = false)
            \/ B64.levelUp fuel (B64.UserState.level prev)
                 (B64.add (B64.UserState.xp prev)
                    (snd (B64.mapQuests (B64.Quest.id q) d
                            (B64.UserState.quests prev) (B64.ofZ 0))))
               = Some (B64.UserState.level next, B64.UserState.xp next))
        /\ (forall (final : B64.UserState.t) (n : nat),
              B64.runUpdates fuel i later next = Some (final, n) ->
              exists qe : B64.Quest.t,
                nth_error (B64.UserState.quests final) i = Some qe
                /\ ((if B64.awards (B64.Quest.id q) d q then 1 else 0) + n
                    = (if B64.isCompleted qe then 1 else 0))%nat
                /\ (B64.isCompleted q' = true -> n = 0%nat)))
  /\ (B64.inRange prev ->
      exists (fuel : nat) (next final : B64.UserState.t) (n : nat),
        (forall k : nat,
            B64.updateQuestProgress_updater (fuel + k) (B64.Quest.id q) d
              (Some prev)
            = Some (Some next))
        /\ (forall k : nat,
              B64.runUpdates (fuel + k) i later next = Some (final, n))
        /\ snd (B64.mapQuests (B64.Quest.id q) d (B64.UserState.quests prev)
                  (B64.ofZ 0))
           = B64.ofZ (B64.gained (B64.Quest.id q) d
                        (B64.UserState.quests prev))
        /\ B64.cumulativeXp next
           = B64.cumulativeXp prev
             + B64.gained (B64.Quest.id q) d (B64.UserState.quests prev)).
Proof.
  intros Hq Hlt Hd.
  assert (Hupd : B64.updatedQuest (B64.Quest.id q) d q
                 = B64.Quest.withProgress q
                     (B64.Math_min (B64.add (B64.Quest.progress q) d)
                        (B64.Quest.goal q))).
  { unfold B64.updatedQuest, B64.questCallback.
    now rewrite String.eqb_refl, Hlt. }
  assert (Hc0 : B64.isCompleted q = false)
    by (unfold B64.isCompleted; now apply ltb_not_geb).
  split.
  - intros fuel next Hrun.
    pose proof (updater_shape _ _ _ _ _ Hrun) as Hshape0.
    assert (Hcase :
              (next = prev
               /\ B64.everyProgressSame
                    (map (B64.updatedQuest (B64.Quest.id q) d)
                       (B64.UserState.quests prev))
                    (B64.UserState.quests prev) = true)
              \/ B64.UserState.quests next
                 = map (B64.updatedQuest (B64.Quest.id q) d)
                     (B64.UserState.quests prev))
      by (destruct Hshape0 as [H | [H _]]; [now left | now right]).
    destruct (step_quest prev next (B64.Quest.id q) d i q Hq Hcase)
      as (q' & Hq' & Hshape & Hcount).
    rewrite Hc0 in Hcount.
    assert (Hprog : B64.Quest.progress q'
                    = B64.Math_min (B64.add (B64.Quest.progress q) d)
                        (B64.Quest.goal q)).
    { destruct Hshape as [[-> Heq] | ->].
      - rewrite Hupd in Heq.
        cbn [B64.Quest.progress B64.Quest.withProgress] in Heq.
        symmetry. now apply absorbed_delta.
      - now rewrite Hupd. }
    assert (Hwith : q' = B64.Quest.withProgress q (B64.Quest.progress q')).
    { destruct Hshape as [[-> _] | ->].
      - destruct q; reflexivity.
      - now rewrite Hupd. }
    assert (Haw : B64.awards (B64.Quest.id q) d q
                  = B64.geb (B64.Quest.progress q') (B64.Quest.goal q)).
    { unfold B64.awards. rewrite String.eqb_refl, Hlt, Hprog.
      cbn [andb]. apply andb_true_r. }
    exists q'.
    split; [exact Hq' |]. split; [exact Hprog |]. split; [exact Hwith |].
    split; [rewrite Haw; split; [intros H; now split | now intros [_ H]] |].
    split; [intros xpGained; now rewrite questCallback_snd, Haw |].
    split.
    { destruct Hshape0 as [[-> Hsame] | [_ Hloop]]; [left | now right].
      split; [reflexivity |].
      apply awards_changes.
      exact (everyProgressSame_at _ _ Hsame i q Hq). }
    intros final n Hrest.
    destruct (run_awards later fuel next final i n q' Hq' Hrest)
      as (qe & Hqe & Hn).
    exists qe. split; [exact Hqe |]. split.
    + destruct (B64.awards (B64.Quest.id q) d q), (B64.isCompleted q'),
        (B64.isCompleted qe); lia.
    + intros Hdone. rewrite Hdone in Hn.
      destruct (B64.isCompleted qe); lia.
  - intros Hin.
    destruct (step_inRange prev (B64.Quest.id q) d Hin)
      as (next & Hrun & Hin' & Hcum & _ & _).
    destruct (run_conserves later next i Hin')
      as (final & n & Hrest & _).
    exists (S (Z.to_nat (2 ^ 53 / 100))), next, final, n.
    split; [intros k; apply Hrun; lia |].
    split; [intros k; apply Hrest; lia |].
    split; [| exact Hcum].
    destruct Hin as (_ & [[WX0 _] _] & Hw & HL1 & Hsum).
    pose proof (pending_step (B64.Quest.id q) d (B64.UserState.quests prev))
      as Hp.
    pose proof (pending_nonneg _
                  (wholeRewards_map (B64.Quest.id q) d _ Hw)) as Hp0.
    rewrite mapQuests_exact; [reflexivity | exact Hw |].
    rewrite two_53 in *. lia.
Qed.

Lemma b64State_inRange : B64.inRange b64State.
Proof.
  unfold B64.inRange.
  split; [apply wholeNumber_ofZ; unfold B64.whole; rewrite two_53; lia |].
  split; [apply wholeNumber_ofZ; unfold B64.whole; rewrite two_53; lia |].
  split; [exact b64State_wholeRewards |].
  split; vm_compute; discriminate.
Qed.

Lemma quest_progress_and_award_rounded_witness :
  exists (fuel : nat) (next final : B64.UserState.t) (n : nat),
    (forall k : nat,
        B64.updateQuestProgress_updater (fuel + k) "q1" (B64.ofZ 50)
          (Some b64State)
        = Some (Some next))
    /\ (forall k : nat,
          B64.runUpdates (fuel + k) 0 [("q1"%string, B64.ofZ 1)] next
          = Some (final, n))
    /\ snd (B64.mapQuests "q1" (B64.ofZ 50) (B64.UserState.quests b64State)
              (B64.ofZ 0))
       = B64.ofZ (B64.gained "q1" (B64.ofZ 50)
                    (B64.UserState.quests b64State))
    /\ B64.cumulativeXp next
       = B64.cumulativeXp b64State
         + B64.gained "q1" (B64.ofZ 50) (B64.UserState.quests b64State).
Proof.
  apply (quest_progress_and_award_rounded b64State 0 b64Pushups (B64.ofZ 50)
           [("q1"%string, B64.ofZ 1)]).
  - reflexivity.
  - vm_compute. reflexivity.
  - vm_compute. reflexivity.
  - exact b64State_inRange.
Defined.

(** C2, as stated, fails on binary64 numbers.  The quest [b64Sprint]
    stands at progress [0.7] of its goal 1 and is updated by [0.3].
    The exact sum of the two numbers is short of the goal, so
    [min(old progress + d, goal)] is that sum and [goal <= new progress]
    fails; the update rounds the sum to 1, sets the progress to the
    goal and adds the reward.  And in the record [b64Stuck], at level
    [2 ^ 53] with [1e40] experience, the same update of the same quest
    never ends: it sets no progress at all. *)
Lemma award_on_rounded_sum :
  nth_error (B64.UserState.quests b64Runner) 0 = Some b64Sprint
  /\ B64.ltb (B64.Quest.progress b64Sprint) (B64.Quest.goal b64Sprint) = true
  /\ B64.ltb (B64.ofZ 0) (B64.ofQ 3 10) = true
  /\ (B64.toQ (B64.Quest.progress b64Sprint) + B64.toQ (B64.ofQ 3 10)
      < B64.toQ (B64.Quest.goal b64Sprint))%Q
  /\ (forall fuel : nat,
        B64.updateQuestProgress_updater (S fuel) "q2" (B64.ofQ 3 10)
          (Some b64Runner)
        = Some (Some (B64.UserState.mk (B64.ofZ 1) (B64.ofZ 50) "E"
                        [B64.Quest.withProgress b64Sprint
                           (B64.Quest.goal b64Sprint)]
                        [] "Jinwoo" 1704103200000 (B64.ofZ 0) (B64.ofZ 0))))
  /\ B64.awards "q2" (B64.ofQ 3 10) b64Sprint = true
  /\ ~ (B64.toQ (B64.Quest.goal b64Sprint)
        == Qmin (B64.toQ (B64.Quest.progress b64Sprint)
                 + B64.toQ (B64.ofQ 3 10))
             (B64.toQ (B64.Quest.goal b64Sprint)))%Q
  /\ nth_error (B64.UserState.quests b64Stuck) 0 = Some b64Sprint
  /\ (forall fuel : nat,
        B64.updateQuestProgress_updater fuel "q2" (B64.ofQ 3 10)
          (Some b64Stuck)
        = None).
Proof.
  split; [reflexivity |].
  split; [vm_compute; reflexivity |].
  split; [vm_compute; reflexivity |].
  split; [vm_compute; reflexivity |].
  split; [intros fuel; vm_compute; reflexivity |].
  split; [vm_compute; reflexivity |].
  split; [intros H; vm_compute in H; discriminate |].
  split; [reflexivity |].
  intros fuel. unfold B64.updateQuestProgress_updater.
  let v := eval vm_compute in
      (B64.mapQuests "q2" (B64.ofQ 3 10) (B64.UserState.quests b64Stuck)
         (B64.ofZ 0)) in
    change (B64.mapQuests "q2" (B64.ofQ 3 10)
              (B64.UserState.quests b64Stuck) (B64.ofZ 0)) with v.
  cbv beta iota.
  match goal with
  | |- context [B64.strictEq ?g (B64.ofZ 0)] =>
      change (B64.strictEq g (B64.ofZ 0)) with false;
      change (B64.add (B64.UserState.xp b64Stuck) g) with b64_1e40
  end.
  cbn [andb].
  change (B64.UserState.level b64Stuck) with (B64.ofZ (2 ^ 53)).
  destruct levelUp_stuck as (_ & _ & Hstuck).
  now rewrite Hstuck.
Qed.

(** ** Binary64: the distance estimator *)

Lemma sub_same (x : B64.Number) :
  B64.isFinite x = true -> B64.sub x x = S754_zero false.
Proof.
  destruct x as [s | s | | s m e]; try discriminate; intros _.
  - destruct s; reflexivity.
  - unfold B64.sub, SFsub. rewrite Z.sub_diag. reflexivity.
Qed.

Lemma toRad_zero : B64.Geo.toRad (S754_zero false) = S754_zero false.
Proof. vm_compute. reflexivity. Qed.

Lemma mul_zero_twice (c : B64.Number) :
  B64.isFinite c = true ->
  B64.mul (B64.mul (S754_zero false) c) c = S754_zero false.
Proof.
  destruct c as [s | s | | s m e]; try discriminate; intros _;
    destruct s; reflexivity.
Qed.

Lemma sampleMath_ecmaScript : B64.Geo.ecmaScript sampleMath.
Proof.
  unfold B64.Geo.ecmaScript, sampleMath.
  cbn [B64.Geo.sin B64.Geo.cos B64.Geo.atan2].
  repeat split; try reflexivity.
  - intros x Hx. unfold sampleAtan2.
    destruct x; try discriminate; cbn [B64.isNaN orb]; now rewrite Hx.
  - intros y. unfold sampleAtan2. now rewrite orb_true_r.
Qed.

(** C8.  For a position whose coordinates are finite and the cosine of
    whose latitude is, the estimator gives exactly [+0] for the
    position and itself, whatever implementation of [Math.sin],
    [Math.cos] and [Math.atan2] that follows ECMAScript it runs on.
    For one degree of longitude along the equator it gives
    [111.19492664455873] wherever [sin(0.008726646259971648)] and
    [atan2(0.008726535498373935, 0.9999619230641713)] are the correctly
    rounded [0.008726535498373935] and [0.008726646259971648].
    Over the real numbers, where nothing is rounded, it gives 0 for a
    point and itself and the same distance in either direction, and it
    is the haversine great-circle distance with Earth radius 6371:
    [2 * 6371 * asin (sqrt a)] with
    [a = sin^2 (dLat / 2) + sin^2 (dLon / 2) * cos lat1 * cos lat2]
    within [[0, 1]], the angles being the degrees times [PI / 180]. *)
Theorem haversineDistance_zero_and_formula (M : B64.Geo.Math)
    (p : B64.Geo.GeolocationCoordinates) :
  B64.Geo.ecmaScript M ->
  B64.isFinite (B64.Geo.latitude p) = true ->
  B64.isFinite (B64.Geo.longitude p) = true ->
  B64.isFinite (B64.Geo.cos M (B64.Geo.toRad (B64.Geo.latitude p))) = true ->
  B64.Geo.haversineDistance M p p = S754_zero false
  /\ (B64.Geo.sin M (S754_finite false 5030569068109113 (-59))
      = S754_finite false 5030505218395169 (-59) ->
      B64.Geo.atan2 M (S754_finite false 5030505218395169 (-59))
        (S754_finite false 9006856288192973 (-53))
      = S754_finite false 5030569068109113 (-59) ->
      B64.Geo.haversineDistance M b64Origin b64East
      = S754_finite false 7824647346905068 (-46))
  /\ (forall q : Geo.GeolocationCoordinates,
        Geo.haversineDistance q q = 0%R)
  /\ (forall p1 p2 : Geo.GeolocationCoordinates,
        Geo.haversineDistance p1 p2 = Geo.haversineDistance p2 p1)
  /\ (forall p1 p2 : Geo.GeolocationCoordinates,
        let rad := fun x : R => (x * PI / 180)%R in
        let a :=
          (Rsqr (sin (rad (Geo.latitude p2 - Geo.latitude p1) / 2))
           + Rsqr (sin (rad (Geo.longitude p2 - Geo.longitude p1) / 2))
             * cos (rad (Geo.latitude p1)) * cos (rad (Geo.latitude p2)))%R in
        (0 <= a <= 1)%R
        /\ Geo.haversineDistance p1 p2 = (2 * 6371 * asin (sqrt a))%R).
Proof.
  intros (Hsin & Hcos0 & _ & _ & Hatan & _ & _) Hlat Hlon Hcos.
  split; [| split; [| split; [| split]]].
  - unfold B64.Geo.haversineDistance, B64.Geo.haversineA. cbv zeta.
    rewrite (sub_same _ Hlat), (sub_same _ Hlon), toRad_zero.
    change (B64.div (S754_zero false) (B64.ofZ 2)) with (S754_zero false).
    rewrite Hsin.
    change (B64.mul (S754_zero false) (S754_zero false))
      with (S754_zero false).
    rewrite (mul_zero_twice _ Hcos).
    change (B64.add (S754_zero false) (S754_zero false))
      with (S754_zero false).
    change (B64.sqrt (S754_zero false)) with (S754_zero false).
    change (B64.sqrt (B64.sub (B64.ofZ 1) (S754_zero false)))
      with (B64.ofZ 1).
    rewrite (Hatan (B64.ofZ 1)) by reflexivity.
    reflexivity.
  - intros Hs Ha.
    unfold B64.Geo.haversineDistance, B64.Geo.haversineA. cbv zeta.
    replace (B64.div
               (B64.Geo.toRad
                  (B64.sub (B64.Geo.latitude b64East)
                     (B64.Geo.latitude b64Origin)))
               (B64.ofZ 2))
      with (S754_zero false) by (vm_compute; reflexivity).
    replace (B64.div
               (B64.Geo.toRad
                  (B64.sub (B64.Geo.longitude b64East)
                     (B64.Geo.longitude b64Origin)))
               (B64.ofZ 2))
      with (S754_finite false 5030569068109113 (-59))
      by (vm_compute; reflexivity).
    replace (B64.Geo.toRad (B64.Geo.latitude b64Origin))
      with (S754_zero false) by (vm_compute; reflexivity).
    replace (B64.Geo.toRad (B64.Geo.latitude b64East))
      with (S754_zero false) by (vm_compute; reflexivity).
    rewrite Hsin, Hs, Hcos0.
    match goal with
    | |- context [B64.Geo.atan2 M (B64.sqrt ?a) _] =>
        replace a with (S754_finite false 5619056942474338 (-66))
          by (vm_compute; reflexivity)
    end.
    replace (B64.sqrt (S754_finite false 5619056942474338 (-66)))
      with (S754_finite false 5030505218395169 (-59))
      by (vm_compute; reflexivity).
    replace (B64.sqrt
               (B64.sub (B64.ofZ 1)
                  (S754_finite false 5619056942474338 (-66))))
      with (S754_finite false 9006856288192973 (-53))
      by (vm_compute; reflexivity).
    rewrite Ha. vm_compute. reflexivity.
  - intros q. unfold Geo.haversineDistance. cbv zeta.
    rewrite GeoFacts.haversineA_same, Rminus_0_r, sqrt_0, sqrt_1,
      GeoFacts.atan2_0_1.
    ring.
  - intros p1 p2. unfold Geo.haversineDistance. cbv zeta.
    rewrite (GeoFacts.haversineA_sym p1 p2). reflexivity.
  - intros p1 p2 rad a.
    assert (Ha : a = Geo.haversineA p1 p2).
    { unfold a, rad, Geo.haversineA, Geo.toRad, Rsqr. reflexivity. }
    rewrite Ha. pose proof (GeoFacts.haversineA_bounds p1 p2) as Hb.
    split; [exact Hb |]. unfold Geo.haversineDistance. cbv zeta.
    rewrite (GeoFacts.atan2_asin _ Hb). ring.
Qed.

Lemma haversineDistance_zero_and_formula_witness :
  B64.Geo.haversineDistance sampleMath b64Fix1 b64Fix1 = S754_zero false
  /\ (B64.Geo.sin sampleMath (S754_finite false 5030569068109113 (-59))
      = S754_finite false 5030505218395169 (-59) ->
      B64.Geo.atan2 sampleMath (S754_finite false 5030505218395169 (-59))
        (S754_finite false 9006856288192973 (-53))
      = S754_finite false 5030569068109113 (-59) ->
      B64.Geo.haversineDistance sampleMath b64Origin b64East
      = S754_finite false 7824647346905068 (-46))
  /\ (forall q : Geo.GeolocationCoordinates,
        Geo.haversineDistance q q = 0%R)
  /\ (forall p1 p2 : Geo.GeolocationCoordinates,
        Geo.haversineDistance p1 p2 = Geo.haversineDistance p2 p1)
  /\ (forall p1 p2 : Geo.GeolocationCoordinates,
        let rad := fun x : R => (x * PI / 180)%R in
        let a :=
          (Rsqr (sin (rad (Geo.latitude p2 - Geo.latitude p1) / 2))
           + Rsqr (sin (rad (Geo.longitude p2 - Geo.longitude p1) / 2))
             * cos (rad (Geo.latitude p1)) * cos (rad (Geo.latitude p2)))%R in
        (0 <= a <= 1)%R
        /\ Geo.haversineDistance p1 p2 = (2 * 6371 * asin (sqrt a))%R).
Proof.
  apply (haversineDistance_zero_and_formula sampleMath b64Fix1).
  - exact sampleMath_ecmaScript.
  - reflexivity.
  - reflexivity.
  - vm_compute. reflexivity.
Defined.

(** One degree of longitude along the equator: 111.19492664455873 km,
    with the correctly rounded sine and arc tangent. *)
Lemma haversineDistance_one_degree :
  B64.Geo.haversineDistance sampleMath b64Origin b64East
  = S754_finite false 7824647346905068 (-46)
  /\ B64.Geo.haversineDistance sampleMath b64East b64Origin
     = S754_finite false 7824647346905068 (-46).
Proof. split; vm_compute; reflexivity. Qed.

(** C8, as stated, fails on binary64 numbers.  Between the fixes
    (8, 0) and (-8, 180), with the correctly rounded sines and cosine,
    [a] is [1.0000000000000002]; [1 - a] is negative, its square root
    is [NaN], and so is the distance, in either direction: the two are
    not equal under [===], and neither is a distance. *)
Lemma haversineDistance_not_a_number :
  B64.Geo.haversineA sampleMath b64Fix1 b64Fix2
  = S754_finite false 4503599627370497 (-52)
  /\ B64.ltb (B64.ofZ 1) (B64.Geo.haversineA sampleMath b64Fix1 b64Fix2) = true
  /\ B64.Geo.haversineDistance sampleMath b64Fix1 b64Fix2 = B64.NaN
  /\ B64.Geo.haversineDistance sampleMath b64Fix2 b64Fix1 = B64.NaN
  /\ B64.strictEq (B64.Geo.haversineDistance sampleMath b64Fix1 b64Fix2)
       (B64.Geo.haversineDistance sampleMath b64Fix2 b64Fix1) = false.
Proof.
  repeat split; vm_compute; reflexivity.
Qed.

(** ** The daily refresh on load *)



(** C7.  A reply that is cut off after its first quest.  The array is
    never closed, so the pattern of [parseAiJson] finds the first
    object, from its brace to the last closing brace, and hands that to
    [JSON.parse]: the reply parses, to an object that is no array.  On
    the refresh [newQuestsData?.map] then throws: the page load ends
    with no record in the session, the loading screen still up and the
    snapshot as it was, where a reply that does not parse gives the
    record with no quests, both counters at 0 and [lastLogin]
    stamped. *)
Theorem refresh_aborts_on_reply_cut_short :
  (forall (JSON : Type) (JSON_parse : string -> option JSON),
      parseAiJson JSON JSON_parse sampleCutReply
      = JSON_parse sampleFirstObject)
  /\ JSDate.isoDay sampleNow = Some "2024-01-02"%string
  /\ JSDate.isoDay (UserState.lastLogin sampleState)
     = Some "2024-01-01"%string
  /\ (let loaded := step (MountMisshapen sampleNow sampleStamp) sampleApp in
      App.userState loaded = None
      /\ App.isLoading loaded = true
      /\ App.storage loaded = Some (Snapshot sampleState))
  /\ (let loaded := step (Mount sampleNow sampleStamp Unparseable) sampleApp in
      let s' :=
        UserState.mk (UserState.level sampleState) (UserState.xp sampleState)
          (UserState.difficulty sampleState) []
          (UserState.skills sampleState) (UserState.name sampleState)
          sampleStamp 0 0 in
      App.userState loaded = Some s'
      /\ App.isLoading loaded = false
      /\ App.storage loaded = Some (Snapshot s')).
Proof.
  split.
  { intros JSON JSON_parse. unfold parseAiJson.
    assert (Hm : regexMatch sampleCutReply
                 = Some (None, Some sampleFirstObject, None))
      by (vm_compute; reflexivity).
    rewrite Hm. reflexivity. }
  split; [vm_compute; reflexivity |].
  split; [vm_compute; reflexivity |].
  split; vm_compute; repeat split.
Qed.

(** X12.  Startup without a usable snapshot.  If nothing is stored, or
    the stored text is empty, or it cannot be read, or its last login
    (or the clock) is not a valid date, the load ends with no record and
    the loading screen off: the questionnaire is shown.  The empty text
    is falsy at [if (savedState)] and stays where it is; what cannot be
    read or has no valid date is removed. *)
Theorem load_without_usable_snapshot (app : App.t) (now stamp : Z)
    (outcome : OracleOutcome (list QuestData.t)) :
  App.storage app = None
  \/ App.storage app = Some Empty
  \/ App.storage app = Some Unreadable
  \/ (exists s, App.storage app = Some (Snapshot s)
                /\ (JSDate.validTime now = false
                    \/ JSDate.validTime (UserState.lastLogin s) = false)) ->
  step (Mount now stamp outcome) app
  = App.mk None false false
      (match App.storage app with
       | Some Empty => Some Empty
       | _ => None
       end).
Proof.
  intros H. cbn [step]. unfold loadEffect. cbn [App.mounted App.storage].
  destruct H as [-> | [-> | [-> | (s & -> & Hbad)]]]; try reflexivity.
  unfold JSDate.isoDay, JSDate.toISOString.
  destruct Hbad as [-> | Hl].
  - reflexivity.
  - rewrite Hl. destruct (JSDate.validTime now); reflexivity.
Qed.

Lemma load_without_usable_snapshot_witness :
  step (Mount sampleNow sampleStamp NetworkError) (App.mounted (Some Empty))
  = App.mk None false false (Some Empty).
Proof.
  apply (load_without_usable_snapshot (App.mounted (Some Empty))
           sampleNow sampleStamp NetworkError).
  right. left. reflexivity.
Defined.

(** ** Binary64: experience over a sequence of updates *)

(** X4.  Experience is conserved.  Any sequence of updates of a record
    of whole numbers in range ends, and the experience credited in all
    has grown by the rewards that are no longer pending: those of the
    quests the updates completed. *)
Theorem experience_gained_is_rewards_of_completed_quests
    (st : B64.UserState.t) (updates : list (string * B64.Number)) :
  B64.inRange st ->
  exists (fuel : nat) (final : B64.UserState.t),
    (forall k : nat,
        option_map fst (B64.runUpdates (fuel + k) 0 updates st) = Some final)
    /\ B64.inRange final
    /\ B64.cumulativeXp final
       = B64.cumulativeXp st
         + (B64.pending (B64.UserState.quests st)
            - B64.pending (B64.UserState.quests final)).
Proof.
  intros Hin.
  destruct (run_conserves updates st 0 Hin)
    as (final & n & Hrun & Hf & Hsum & _ & _).
  exists (S (Z.to_nat (2 ^ 53 / 100))), final.
  split; [| split; [exact Hf | lia]].
  intros k. rewrite Hrun by lia. reflexivity.
Qed.

Lemma experience_gained_is_rewards_of_completed_quests_witness :
  exists (fuel : nat) (final : B64.UserState.t),
    (forall k : nat,
        option_map fst (B64.runUpdates (fuel + k) 0 b64LogTwice b64State)
        = Some final)
    /\ B64.inRange final
    /\ B64.cumulativeXp final
       = B64.cumulativeXp b64State
         + (B64.pending (B64.UserState.quests b64State)
            - B64.pending (B64.UserState.quests final)).
Proof.
  apply (experience_gained_is_rewards_of_completed_quests b64State
           b64LogTwice).
  exact b64State_inRange.
Defined.

Lemma pending_determined (qs1 qs2 : list B64.Quest.t) :
  map B64.Quest.xp qs1 = map B64.Quest.xp qs2 ->
  Forall2 (fun a b => B64.isCompleted a = B64.isCompleted b) qs1 qs2 ->
  B64.pending qs1 = B64.pending qs2.
Proof.
  intros Hxp Hst. induction Hst as [| a b r1 r2 Hab _ IH]; [reflexivity |].
  cbn [map] in Hxp. injection Hxp as Hx Hr.
  cbn [B64.pending]. rewrite Hab, Hx, (IH Hr). reflexivity.
Qed.

Lemma level_and_residue_unique (L E L' E' : Z) :
  1 <= L -> 1 <= L' -> 0 <= E < 100 * L -> 0 <= E' < 100 * L' ->
  E + 50 * L * (L - 1) = E' + 50 * L' * (L' - 1) ->
  L = L' /\ E = E'.
Proof.
  intros HL HL' HE HE' Heq.
  assert (L = L').
  { destruct (Z.lt_trichotomy L L') as [Hlt | [-> | Hgt]]; [| reflexivity |].
    - exfalso.
      assert (50 * (L + 1) * L <= 50 * L' * (L' - 1)) by nia. nia.
    - exfalso.
      assert (50 * (L' + 1) * L' <= 50 * L * (L - 1)) by nia. nia. }
  subst L'. split; [reflexivity | lia].
Qed.

(** X5.  Level and experience do not depend on how progress was logged.
    From a record of whole numbers in range with [xp < 100 * level],
    two sequences of updates end, and if they leave the same quests
    complete they leave the same level and the same experience. *)
Theorem level_depends_only_on_completed_quests (st : B64.UserState.t)
    (us1 us2 : list (string * B64.Number)) :
  B64.inRange st ->
  B64.toZ (B64.UserState.xp st) < 100 * B64.toZ (B64.UserState.level st) ->
  exists (fuel : nat) (s1 s2 : B64.UserState.t),
    (forall k : nat,
        option_map fst (B64.runUpdates (fuel + k) 0 us1 st) = Some s1)
    /\ (forall k : nat,
          option_map fst (B64.runUpdates (fuel + k) 0 us2 st) = Some s2)
    /\ (Forall2 (fun a b => B64.isCompleted a = B64.isCompleted b)
          (B64.UserState.quests s1) (B64.UserState.quests s2) ->
        B64.UserState.level s1 = B64.UserState.level s2
        /\ B64.UserState.xp s1 = B64.UserState.xp s2).
Proof.
  intros Hin Hcanon.
  destruct (run_conserves us1 st 0 Hin)
    as (s1 & n1 & Hrun1 & Hin1 & Hsum1 & Hxp1 & Hc1).
  destruct (run_conserves us2 st 0 Hin)
    as (s2 & n2 & Hrun2 & Hin2 & Hsum2 & Hxp2 & Hc2).
  exists (S (Z.to_nat (2 ^ 53 / 100))), s1, s2.
  split; [intros k; rewrite Hrun1 by lia; reflexivity |].
  split; [intros k; rewrite Hrun2 by lia; reflexivity |].
  intros Hst.
  assert (Hp : B64.pending (B64.UserState.quests s1)
               = B64.pending (B64.UserState.quests s2))
    by (apply pending_determined; [congruence | exact Hst]).
  specialize (Hc1 Hcanon). specialize (Hc2 Hcanon).
  destruct Hin1 as ([_ EL1] & [[WX1 _] EX1] & _ & HL1 & _).
  destruct Hin2 as ([_ EL2] & [[WX2 _] EX2] & _ & HL2 & _).
  unfold B64.cumulativeXp in *.
  destruct (level_and_residue_unique
              (B64.toZ (B64.UserState.level s1)) (B64.toZ (B64.UserState.xp s1))
              (B64.toZ (B64.UserState.level s2)) (B64.toZ (B64.UserState.xp s2)))
    as [HL HE]; try lia.
  split; [rewrite EL1, EL2, HL | rewrite EX1, EX2, HE]; reflexivity.
Qed.

Lemma level_depends_only_on_completed_quests_witness :
  exists (fuel : nat) (s1 s2 : B64.UserState.t),
    (forall k : nat,
        option_map fst (B64.runUpdates (fuel + k) 0 b64LogOnce b64State)
        = Some s1)
    /\ (forall k : nat,
          option_map fst (B64.runUpdates (fuel + k) 0 b64LogTwice b64State)
          = Some s2)
    /\ (Forall2 (fun a b => B64.isCompleted a = B64.isCompleted b)
          (B64.UserState.quests s1) (B64.UserState.quests s2) ->
        B64.UserState.level s1 = B64.UserState.level s2
        /\ B64.UserState.xp s1 = B64.UserState.xp s2).
Proof.
  apply (level_depends_only_on_completed_quests b64State b64LogOnce
           b64LogTwice).
  - exact b64State_inRange.
  - vm_compute. reflexivity.
Defined.
